(** * kilo-openai-proxy: the session driver of [server.js], embedded and verified

    The development follows the latest revision of the server (the file that
    starts with [server.js — kilo-openai-proxy (Node.js v20 ESM)] and defines
    [CFG]) and [tools/kilo_sanitizer_cli.mjs].

    - JavaScript strings are lists of UTF-16 code units ([Js.str]), so that
      [.length] and [.slice] count what the engine counts.
    - Every read of [Date.now()] and every snapshot of the page is an input
      of the model: a capture loop runs over a list of [Tick]s, one per
      iteration.
    - The page driver (Playwright calls) runs in a small monad over an
      oracle for the page and a history of the operations issued. *)

From Stdlib Require Import String Ascii.
From Stdlib Require Import List ZArith NArith Bool Lia Floats.
Import ListNotations.

Set Warnings "-register-all".

(* ------------------------------------------------------------------ *)
(** ** JavaScript strings *)
(* ------------------------------------------------------------------ *)

Module Js.

Definition str := list N.

(** ASCII literals of the source. *)
Definition lit (s : string) : str := map N_of_ascii (list_ascii_of_string s).

Fixpoint eqb (a b : str) : bool :=
  match a, b with
  | [], [] => true
  | x :: a', y :: b' => N.eqb x y && eqb a' b'
  | _, _ => false
  end.

(** [!!s] of a string: only the empty string is falsy. *)
Definition truthy (s : str) : bool :=
  match s with [] => false | _ => true end.

(** [s.slice(n)] for [0 <= n]: empty once [n] reaches the length. *)
Definition slice (n : nat) (s : str) : str := skipn n s.

(** LineTerminator: LF, CR, LS, PS. *)
Definition isLineTerminator (c : N) : bool :=
  (N.eqb c 10 || N.eqb c 13 || N.eqb c 8232 || N.eqb c 8233)%N.

(** WhiteSpace and LineTerminator code units: what [trim] strips and what
    [\s] matches. *)
Definition isSpace (c : N) : bool :=
  (N.eqb c 9 || N.eqb c 10 || N.eqb c 11 || N.eqb c 12 || N.eqb c 13
   || N.eqb c 32 || N.eqb c 160 || N.eqb c 5760
   || (N.leb 8192 c && N.leb c 8202)
   || N.eqb c 8232 || N.eqb c 8233 || N.eqb c 8239 || N.eqb c 8287
   || N.eqb c 12288 || N.eqb c 65279)%N.

Fixpoint trimStart (s : str) : str :=
  match s with
  | c :: t => if isSpace c then trimStart t else s
  | [] => []
  end.

Definition trimEnd (s : str) : str := rev (trimStart (rev s)).

Definition trim (s : str) : str := trimEnd (trimStart s).

(** Case-sensitive prefix test and [s.includes(p)]. *)
Fixpoint startsWith (p s : str) : bool :=
  match p, s with
  | [], _ => true
  | x :: p', y :: s' => N.eqb x y && startsWith p' s'
  | _ :: _, [] => false
  end.

Fixpoint includes (s p : str) : bool :=
  startsWith p s ||
  match s with
  | [] => false
  | _ :: t => includes t p
  end.

(** [\w] without the [u] flag: [A-Za-z0-9_]. *)
Definition isWord (c : N) : bool :=
  ((N.leb 48 c && N.leb c 57) || (N.leb 65 c && N.leb c 90)
   || N.eqb c 95 || (N.leb 97 c && N.leb c 122))%N.

Definition isWordAt (c : option N) : bool :=
  match c with Some x => isWord x | None => false end.

(** [\b] between the code unit before the position and the rest. *)
Definition atBoundary (prev : option N) (rest : str) : bool :=
  xorb (isWordAt prev) (isWordAt (hd_error rest)).

(** Canonicalize of the [i] flag (no [u]): upper case, except that a code
    unit of 128 or more never folds onto an ASCII one.  The patterns of
    this program hold ASCII letters and CJK ideographs only, for which
    folding the 26 ASCII letters decides every comparison. *)
Definition canon (c : N) : N :=
  if (N.leb 97 c && N.leb c 122)%bool then (c - 32)%N else c.

(** Case-insensitive match of a literal at the head; the rest on success. *)
Fixpoint matchLit (p s : str) : option str :=
  match p, s with
  | [], _ => Some s
  | x :: p', y :: s' => if N.eqb (canon x) (canon y) then matchLit p' s' else None
  | _ :: _, [] => None
  end.

Definition lastOr (d : option N) (s : str) : option N :=
  match rev s with c :: _ => Some c | [] => d end.

End Js.

(* ------------------------------------------------------------------ *)
(** ** Placeholder filtering *)
(* ------------------------------------------------------------------ *)

Module Noise.
Import Js.

Definition GeminiIsTyping : str := lit "Gemini is typing".
Definition GeminiReplied : str := lit "Gemini replied".
(** 正在输入, 正在思考, 思考中, 生成中, 加载中 *)
Definition zhTyping : str := [27491; 22312; 36755; 20837]%N.
Definition zhThinkingNow : str := [27491; 22312; 24605; 32771]%N.
Definition zhThinking : str := [24605; 32771; 20013]%N.
Definition zhGenerating : str := [29983; 25104; 20013]%N.
Definition zhLoading : str := [21152; 36733; 20013]%N.

(** A literal alternative followed by the closing [\b]. *)
Definition altLit (p s : str) : option str :=
  match matchLit p s with
  | Some r => if atBoundary (lastOr None p) r then Some r else None
  | None => None
  end.

(** [.*?\b]: the shortest run of non-line-terminators after which a word
    boundary holds. *)
Fixpoint lazyDots (prev : N) (r : str) : option str :=
  if atBoundary (Some prev) r then Some r
  else match r with
       | [] => None
       | c :: r' => if isLineTerminator c then None else lazyDots c r'
       end.

Definition altLazy (p s : str) : option str :=
  match matchLit p s with
  | Some r =>
      match lastOr None p with
      | Some c => lazyDots c r
      | None => None
      end
  | None => None
  end.

Definition orElse {A} (a b : option A) : option A :=
  match a with Some _ => a | None => b end.

(** One attempt of
    [/\b(Gemini is typing|Gemini replied|正在输入.*?)\b/gi]
    at a position: the rest of the subject after the match. *)
Definition matchChunkNoise (prev : option N) (s : str) : option str :=
  if atBoundary prev s then
    orElse (altLit GeminiIsTyping s)
      (orElse (altLit GeminiReplied s) (altLazy zhTyping s))
  else None.

(** One attempt of
    [/\b(Gemini is typing|Gemini replied|正在输入|思考中|生成中|加载中)\b/gi]. *)
Definition matchFinalNoise (prev : option N) (s : str) : option str :=
  if atBoundary prev s then
    orElse (altLit GeminiIsTyping s)
      (orElse (altLit GeminiReplied s)
         (orElse (altLit zhTyping s)
            (orElse (altLit zhThinking s)
               (orElse (altLit zhGenerating s) (altLit zhLoading s)))))
  else None.

(** [s.replace(re, '')] for a global [re] whose matches are never empty:
    scan left to right; a match is dropped and the scan resumes after it.
    [skip] counts the code units of the current match still to drop. *)
Fixpoint removeAll (m : option N -> str -> option str)
         (skip : nat) (prev : option N) (s : str) : str :=
  match s with
  | [] => []
  | c :: t =>
      match skip with
      | S k => removeAll m k (Some c) t
      | O =>
          match m prev s with
          | Some r => removeAll m (length t - length r) (Some c) t
          | None => c :: removeAll m 0 (Some c) t
          end
      end
  end.

(** The cleaning of the streaming capture and of the aggregate capture. *)
Definition cleanChunk (raw : str) : str :=
  trim (removeAll matchChunkNoise 0 None raw).

Definition cleanFinal (text : str) : str :=
  trim (removeAll matchFinalNoise 0 None text).

Definition placeholders : list str :=
  [ lit "Gemini is typing"; lit "Gemini replied";
    zhTyping; zhThinkingNow; zhThinking; zhGenerating; zhLoading ].

(** [/^[.…\s]+$/.test(s)] *)
Definition onlyEllipsisOrSpace (s : str) : bool :=
  truthy s && forallb (fun c => N.eqb c 46 || N.eqb c 8230 || isSpace c)%N s.

Definition isPlaceholderText (t : str) : bool :=
  if negb (truthy t) then true
  else
    let s := trim t in
    onlyEllipsisOrSpace s || existsb (fun p => includes s p) placeholders.

End Noise.

(* ------------------------------------------------------------------ *)
(** ** Configuration and results *)
(* ------------------------------------------------------------------ *)

(** The fields of [CFG] the driver reads.  All are parsed integers or
    flags; times are milliseconds. *)
Record Config := {
  MAX_ANSWER_MS : Z;
  STABLE_MS : Z;
  AFTER_INPUT_SETTLE_MS : Z;
  FORCE_ENTER_ONLY : bool;
  SAN_ON : bool
}.

(** A call either returns or throws [new Error(msg)]. *)
Inductive Res (A : Type) : Type :=
| Ok (a : A)
| Throw (msg : Js.str).
Arguments Ok {A} a.
Arguments Throw {A} msg.

(* ------------------------------------------------------------------ *)
(** ** The page: reply bubbles *)
(* ------------------------------------------------------------------ *)

Module Dom.
Import Js.

(** The node [last.querySelector(BUBBLE_TEXT_SELECTOR)]. *)
Record TextNode := {
  tn_innerText : str;
  tn_textContent : str
}.

(** A node matched by one of [BUBBLE_ROOT_SELECTORS].  [node] is its
    identity (what [new Set] compares), [visible] what [isVisible] answers
    for it, and [spinners] has, for every entry of [SPINNER_SELECTORS], the
    first match inside the node with its own visibility. *)
Record Bubble := {
  node : nat;
  visible : bool;
  txtNode : option TextNode;
  innerText : str;
  textContent : str;
  spinners : list (option bool)
}.

(** [document.querySelectorAll(s)] for every root selector, in order. *)
Definition Page := list (list Bubble).

Record BubbleState := {
  hasBubble : bool;
  text : str;
  spinning : bool
}.

Definition noBubble : BubbleState :=
  {| hasBubble := false; text := []; spinning := false |}.

(** [Array.from(new Set(all))]: first occurrences, in insertion order. *)
Fixpoint uniq (seen : list nat) (all : list Bubble) : list Bubble :=
  match all with
  | [] => []
  | b :: t =>
      if existsb (Nat.eqb (node b)) seen then uniq seen t
      else b :: uniq (node b :: seen) t
  end.

Definition visibleBubbles (pg : Page) : list Bubble :=
  filter visible (uniq [] (concat pg)).

(** [a || b] on strings. *)
Definition orStr (a b : str) : str := if truthy a then a else b.

Definition bubbleText (last : Bubble) : str :=
  let fromNode f := match txtNode last with Some n => f n | None => [] end in
  trim (orStr (fromNode tn_innerText)
         (orStr (fromNode tn_textContent)
            (orStr (innerText last) (orStr (textContent last) [])))).

Definition bubbleSpinning (last : Bubble) : bool :=
  existsb (fun hit => match hit with Some v => v | None => false end)
          (spinners last).

(** The state read from the bubbles the page shows; the body of the
    function evaluated in the page. *)
Definition readBubbles (base : nat) (list : list Bubble) : BubbleState :=
  if length list <=? base then noBubble
  else
    match nth_error list (length list - 1) with
    | Some last =>
        {| hasBubble := true; text := bubbleText last;
           spinning := bubbleSpinning last |}
    | None => noBubble
    end.

(** [getBubbleState(baselineCount)]; [None] is a rejected [page.evaluate],
    which the [.catch] turns into the no-bubble state. *)
Definition getBubbleState (baselineCount : nat) (snap : option Page) : BubbleState :=
  match snap with
  | Some pg => readBubbles baselineCount (visibleBubbles pg)
  | None => noBubble
  end.

Definition grabAnswerText (baselineCount : nat) (snap : option Page) : str :=
  orStr (text (getBubbleState baselineCount snap)) [].

End Dom.

(* ------------------------------------------------------------------ *)
(** ** Answer capture *)
(* ------------------------------------------------------------------ *)

Module Capture.
Import Js Noise Dom.

(** What one iteration of a capture loop reads from outside: the clock at
    the loop test, the page at the read, the clock when a change is
    recorded and the clock at the stability test. *)
Record Tick := {
  now_loop : Z;
  snap : option Page;
  now_change : Z;
  now_stable : Z
}.

Inductive Exit := ExitTimeout | ExitStable | ExitShort.

(** *** Streaming capture: [readAnswerInChunks] *)

Record Cap := {
  last : str;
  lastChangeAt : Z
}.

Inductive Next := Continue | Break.

(** The body of the [while] of [readAnswerInChunks]: the delta yielded (if
    any), the variables after it, and whether the loop goes on. *)
Definition chunkBody (cfg : Config) (baselineCount : nat) (st : Cap) (tk : Tick)
  : option str * Cap * Next :=
  let raw := grabAnswerText baselineCount (snap tk) in
  if negb (truthy raw) then (None, st, Continue)
  else
    let cur := cleanChunk raw in
    let '(out, st') :=
      if truthy cur && negb (isPlaceholderText cur) && negb (eqb cur (last st))
      then
        let delta := slice (length (last st)) cur in
        if truthy delta
        then (Some delta, {| last := cur; lastChangeAt := now_change tk |})
        else (None, st)
      else (None, st) in
    if truthy (last st') && (STABLE_MS cfg <=? now_stable tk - lastChangeAt st')%Z
    then (out, st', Break)
    else (out, st', Continue).

Record LoopEnd := {
  why : Exit;
  polls : nat;
  endCap : Cap
}.

Definition emit (d : option str) (l : list str) : list str :=
  match d with Some x => x :: l | None => l end.

(** The [while] loop: the deltas in the order yielded and how it ended;
    [None] when the ticks supplied run out before the loop ends. *)
Fixpoint chunkLoop (cfg : Config) (baselineCount : nat) (t0 : Z)
         (n : nat) (st : Cap) (ticks : list Tick)
  : option (list str * LoopEnd) :=
  match ticks with
  | [] => None
  | tk :: rest =>
      if (now_loop tk - t0 <? MAX_ANSWER_MS cfg)%Z then
        match chunkBody cfg baselineCount st tk with
        | (d, st', Break) =>
            Some (emit d [], {| why := ExitStable; polls := S n; endCap := st' |})
        | (d, st', Continue) =>
            match chunkLoop cfg baselineCount t0 (S n) st' rest with
            | Some (ds, e) => Some (emit d ds, e)
            | None => None
            end
        end
      else Some ([], {| why := ExitTimeout; polls := n; endCap := st |})
  end.

(** The read after the loop. *)
Definition chunkTail (baselineCount : nat) (lastEmitted : str)
           (finalSnap : option Page) : list str :=
  let final := grabAnswerText baselineCount finalSnap in
  let finalClean := cleanChunk (orStr final []) in
  if truthy finalClean && (length lastEmitted <? length finalClean)
  then [slice (length lastEmitted) finalClean]
  else [].

Record StreamRun := {
  deltas : list str;
  loopEnd : LoopEnd
}.

(** [readAnswerInChunks(baselineCount)]: [tInit] and [t0] are the two reads
    of the clock before the loop, [finalSnap] the page at the last read. *)
Definition readAnswerInChunks (cfg : Config) (baselineCount : nat)
           (tInit t0 : Z) (ticks : list Tick) (finalSnap : option Page)
  : option StreamRun :=
  match chunkLoop cfg baselineCount t0 0
          {| last := []; lastChangeAt := tInit |} ticks with
  | Some (ds, e) =>
      Some {| deltas := ds ++ chunkTail baselineCount (last (endCap e)) finalSnap;
              loopEnd := e |}
  | None => None
  end.

(** *** Aggregate capture: [waitForFinalAnswer] *)

Record Agg := {
  lastText : str;
  aggChangeAt : Z;
  everHadText : bool
}.

(** The body of the [while] of [waitForFinalAnswer]: the variables after
    it and the value returned from inside the loop, if any. *)
Definition finalBody (cfg : Config) (baselineCount : nat) (st : Agg) (tk : Tick)
  : Agg * option (Exit * str) :=
  let bs := getBubbleState baselineCount (snap tk) in
  let clean := cleanFinal (orStr (text bs) []) in
  let changed := truthy clean && negb (eqb clean (lastText st)) in
  let st' :=
    if changed
    then {| lastText := clean; aggChangeAt := now_change tk; everHadText := true |}
    else st in
  if changed && (length (lastText st') <=? 5) && negb (spinning bs)
  then (st', Some (ExitShort, lastText st'))
  else if everHadText st' && negb (spinning bs)
          && (STABLE_MS cfg <=? now_stable tk - aggChangeAt st')%Z
  then (st', Some (ExitStable, lastText st'))
  else (st', None).

Record FinalRun := {
  outcome : Res str;
  exit : Exit;
  pollsRun : nat;
  endAgg : Agg
}.

Definition no_text_captured : str := lit "no_text_captured".

Fixpoint finalLoop (cfg : Config) (baselineCount : nat) (t0 : Z)
         (n : nat) (st : Agg) (ticks : list Tick) : option FinalRun :=
  match ticks with
  | [] => None
  | tk :: rest =>
      if (now_loop tk - t0 <? MAX_ANSWER_MS cfg)%Z then
        match finalBody cfg baselineCount st tk with
        | (st', Some (x, txt)) =>
            Some {| outcome := Ok txt; exit := x; pollsRun := S n; endAgg := st' |}
        | (st', None) => finalLoop cfg baselineCount t0 (S n) st' rest
        end
      else
        Some {| outcome := if negb (everHadText st)
                           then Throw no_text_captured
                           else Ok (lastText st);
                exit := ExitTimeout; pollsRun := n; endAgg := st |}
  end.

(** [waitForFinalAnswer(baselineCount)] *)
Definition waitForFinalAnswer (cfg : Config) (baselineCount : nat)
           (tInit t0 : Z) (ticks : list Tick) : option FinalRun :=
  finalLoop cfg baselineCount t0 0
    {| lastText := []; aggChangeAt := tInit; everHadText := false |} ticks.

End Capture.


(* ------------------------------------------------------------------ *)
(** ** The page driver *)
(* ------------------------------------------------------------------ *)

Module Driver.
Import Js.

Definition Sel := str.

Inductive Key := ControlA | Delete | Backspace | Enter | KeyV | Control.

(** The calls the driver makes on the page. *)
Inductive Op :=
| EnsureBrowser
| WaitUntilIdle (maxMs : Z)
| PickActiveInput
| CountAnswerRoots
| BoxOf (sel : Sel)
| MouseClick
| Focus (sel : Sel)
| Press (k : Key)
| KeyDown (k : Key)
| KeyUp (k : Key)
| TypeText (t : str)
| ClearInput (sel : Sel)
| ExecInsertText (sel : Sel) (t : str)
| ClipboardWrite (t : str)
| InsertText (t : str)
| LocatorType (sel : Sel) (t : str)
| WaitForTimeout (ms : Z)
| VerifyInputMatches (sel : Sel) (expected : str) (ms : Z)
| IsSendButtonReady (ms : Z)
| HasInputText (sel : Sel)
| FindSendSelector
| ClickSend
| WaitStarted (count : nat) (ms : Z).

(** The page as the driver meets it: what a call answers (or that it
    rejects) after the calls made so far, most recent first. *)
Record Surface := {
  reply : list Op -> Op -> Res bool;
  picked : list Op -> option Sel;
  counted : list Op -> nat
}.

Definition M (A : Type) : Type := Surface -> list Op -> Res A * list Op.

Definition ret {A} (a : A) : M A := fun _ h => (Ok a, h).

Definition throw {A} (msg : str) : M A := fun _ h => (Throw msg, h).

Definition bind {A B} (m : M A) (k : A -> M B) : M B :=
  fun S h =>
    match m S h with
    | (Ok a, h') => k a S h'
    | (Throw e, h') => (Throw e, h')
    end.

(** [try { m } catch { k }] *)
Definition catch {A} (m : M A) (k : str -> M A) : M A :=
  fun S h =>
    match m S h with
    | (Ok a, h') => (Ok a, h')
    | (Throw e, h') => k e S h'
    end.

Declare Scope driver_scope.
Delimit Scope driver_scope with driver.
Notation "x <- m ;; k" := (bind m (fun x => k))
  (at level 61, m at next level, right associativity) : driver_scope.
Notation "m ;;; k" := (bind m (fun _ => k))
  (at level 61, right associativity) : driver_scope.
Open Scope driver_scope.

Definition call (op : Op) : M bool :=
  fun S h => (reply S h op, op :: h).

(** [p.catch(() => {})] and [try { p } catch {}] *)
Definition quiet {A} (m : M A) : M unit :=
  catch (m ;;; ret tt) (fun _ => ret tt).

(** [p.then(...).catch(() => false)] *)
Definition orFalse (m : M bool) : M bool :=
  catch m (fun _ => ret false).

Definition when (b : bool) (m : M unit) : M unit :=
  if b then m else ret tt.

Definition paste_failed : str := lit "paste_failed".
Definition submit_not_started : str := lit "submit_not_started".
Definition send_button_not_found : str := lit "send_button_not_found".
(** 未找到输入框 *)
Definition input_not_found : str := [26410; 25214; 21040; 36755; 20837; 26694]%N.

(** [ensureBrowser()], as one call that returns or rejects. *)
Definition ensureBrowser : M unit :=
  call EnsureBrowser ;;; ret tt.

Definition pickActiveInput : M (option Sel) :=
  fun S h => (Ok (picked S h), PickActiveInput :: h).

Definition countAnswerRoots : M nat :=
  fun S h => (Ok (counted S h), CountAnswerRoots :: h).

Definition hasInputText (sel : Sel) : M bool := orFalse (call (HasInputText sel)).

Definition isSendButtonReady (timeoutMs : Z) : M bool :=
  orFalse (call (IsSendButtonReady timeoutMs)).

Definition verifyInputMatches (sel : Sel) (expected : str) (timeoutMs : Z) : M bool :=
  orFalse (call (VerifyInputMatches sel expected timeoutMs)).

Definition focusIntoEditable (sel : Sel) : M unit :=
  box <- orFalse (call (BoxOf sel)) ;;
  when box (call MouseClick ;;; ret tt) ;;;
  quiet (call (Focus sel)).

Definition clickSendButton : M bool :=
  found <- call FindSendSelector ;;
  if negb found then throw send_button_not_found
  else
    isSendButtonReady 3000 ;;;
    call ClickSend ;;;
    ret true.

(** [String(text).replace(/\r/g, '').replace(/\u00A0/g, ' ')] *)
Definition normalizeExpected (text : str) : str :=
  map (fun c => if N.eqb c 160 then 32%N else c)
      (filter (fun c => negb (N.eqb c 13)) text).

Section SetInput.
Variable cfg : Config.
Variable sel : Sel.
Variable expected : str.

Definition focusAndClear : M unit :=
  box <- orFalse (call (BoxOf sel)) ;;
  when box (call MouseClick ;;; ret tt) ;;;
  quiet (call (Focus sel)) ;;;
  quiet (call (Press ControlA)) ;;;
  quiet (call (Press Delete)) ;;;
  quiet (call (Press Backspace)) ;;;
  quiet (call (ClearInput sel)).

Definition okAfter (verifyMs sendMs : Z) : M bool :=
  call (WaitForTimeout (AFTER_INPUT_SETTLE_MS cfg)) ;;;
  quiet (call (TypeText (lit " ")) ;;; call (Press Backspace)) ;;;
  v <- verifyInputMatches sel expected verifyMs ;;
  if v then ret true
  else
    r <- isSendButtonReady sendMs ;;
    if r then ret true
    else
      t <- hasInputText sel ;;
      if t then ret true else ret false.

(** The three strategies; each answers whether it made [setInputFast]
    return [true]. *)
Definition strategyA : M bool :=
  catch (ok <- call (ExecInsertText sel expected) ;;
         if ok then okAfter 1600 1800 else ret false)
        (fun _ => ret false).

Definition strategyB : M bool :=
  catch (call (ClipboardWrite expected) ;;;
         quiet (call (KeyDown Control)) ;;;
         quiet (call (Press KeyV)) ;;;
         quiet (call (KeyUp Control)) ;;;
         okAfter 1600 1800)
        (fun _ => ret false).

Definition strategyC : M bool :=
  catch (call (InsertText expected) ;;; okAfter 1600 1800)
        (fun _ =>
           catch (call (LocatorType sel expected) ;;; okAfter 1600 1800)
                 (fun _ => ret false)).

Definition setInputFastWith : M bool :=
  focusAndClear ;;;
  a <- strategyA ;;
  if a then ret true
  else
    focusAndClear ;;;
    b <- strategyB ;;
    if b then ret true
    else
      focusAndClear ;;;
      c <- strategyC ;;
      if c then ret true
      else isSendButtonReady 2000.

End SetInput.

Definition setInputFast (cfg : Config) (sel : Sel) (text : str) : M bool :=
  setInputFastWith cfg sel (normalizeExpected text).

Definition commitFirst (cfg : Config) (sel : Sel) : M unit :=
  if FORCE_ENTER_ONLY cfg then
    focusIntoEditable sel ;;;
    quiet (call (Press Enter))
  else
    isSendButtonReady 5000 ;;;
    quiet (call (Press Enter)) ;;;
    quiet clickSendButton.

Definition commitAgain (cfg : Config) (sel : Sel) : M unit :=
  if FORCE_ENTER_ONLY cfg then
    focusIntoEditable sel ;;;
    quiet (call (Press Enter))
  else quiet clickSendButton.

Definition waitStarted (count : nat) (ms : Z) : M bool :=
  orFalse (call (WaitStarted count ms)).

(** [submitPrompt(prompt)]: the baseline on success. *)
Definition submitPrompt (cfg : Config) (prompt : str) : M nat :=
  call (WaitUntilIdle 15000) ;;;
  sel <- pickActiveInput ;;
  match sel with
  | None => throw input_not_found
  | Some sel =>
      beforeCount <- countAnswerRoots ;;
      ok <- setInputFast cfg sel prompt ;;
      if negb ok then throw paste_failed
      else
        call (WaitForTimeout (AFTER_INPUT_SETTLE_MS cfg)) ;;;
        commitFirst cfg sel ;;;
        started <- waitStarted beforeCount 4000 ;;
        if started then ret beforeCount
        else
          commitAgain cfg sel ;;;
          started2 <- waitStarted beforeCount 2000 ;;
          if started2 then ret beforeCount
          else throw submit_not_started
  end.

(** The calls that commit the prompt: pressing Enter and clicking send. *)
Definition isCommit (op : Op) : bool :=
  match op with
  | Press Enter => true
  | ClickSend => true
  | _ => false
  end.

(** The checks that confirm an injection. *)
Definition isPostCondition (op : Op) : bool :=
  match op with
  | VerifyInputMatches _ _ _ => true
  | IsSendButtonReady _ => true
  | HasInputText _ => true
  | _ => false
  end.

(** No commit among the calls made. *)
Definition uncommitted (h : list Op) : Prop := existsb isCommit h = false.

(** [e] is what some call on the page rejected with. *)
Definition fromPage (S : Surface) (e : str) : Prop :=
  exists h op, reply S h op = Throw e.

(** A triple for driver code that has not committed: from a history
    without a commit, [m] ends in a history without a commit, with a value
    in [Q] or an exception in [E]. *)
Definition quietly {A} (S : Surface) (m : M A)
           (Q : A -> Prop) (E : str -> Prop) : Prop :=
  forall h,
    uncommitted h ->
    match m S h with
    | (Ok a, h') => uncommitted h' /\ Q a
    | (Throw e, h') => uncommitted h' /\ E e
    end.

(** A page that confirms no injection: no post-condition check answers
    [true]. *)
Definition unverified (S : Surface) : Prop :=
  forall h op, isPostCondition op = true -> reply S h op <> Ok true.

(** The calls [submitPrompt] awaits outside every [try] and [.catch]
    before it commits: the read of [waitUntilIdle] and the mouse click of
    [focusAndClear].  What one of them rejects with leaves
    [submitPrompt]; every other rejection before the commit is caught. *)
Definition isUnguarded (op : Op) : bool :=
  match op with
  | WaitUntilIdle _ => true
  | MouseClick => true
  | _ => false
  end.

(** [e] is what an unguarded call rejected with. *)
Definition rejected (S : Surface) (e : str) : Prop :=
  exists h op, isUnguarded op = true /\ reply S h op = Throw e.

(** What [submitPrompt] can end with on such a page: the injection
    failure, no input box, or what an unguarded call rejected with. *)
Definition injectionFailure (S : Surface) (e : str) : Prop :=
  e = paste_failed
  \/ (e = input_not_found /\ exists h, picked S h = None)
  \/ rejected S e.

(** A page on which every call answers [answer op], the input box is
    found and [count] replies are shown. *)
Definition constantPage (answer : Op -> bool) (count : nat) : Surface :=
  {| reply := fun _ op => Ok (answer op);
     picked := fun _ => Some (lit "[data-kilo-target=1]");
     counted := fun _ => count |}.

(** A page on which the input box is found and every call answers
    [true], except that each check of a post-condition runs into its
    timeout: [waitForFunction] and [$eval] reject. *)
Definition timeoutPage : Surface :=
  {| reply := fun _ op =>
       if isPostCondition op then Throw (lit "Timeout exceeded") else Ok true;
     picked := fun _ => Some (lit "[data-kilo-target=1]");
     counted := fun _ => 0 |}.

End Driver.

(* ------------------------------------------------------------------ *)
(** ** JSON values *)
(* ------------------------------------------------------------------ *)

Module Json.
Import Js.

(** What [JSON.parse] produces.  An object keeps its keys in insertion
    order, each key once. *)
Inductive value :=
| JNull
| JBool (b : bool)
| JNum (f : float)
| JStr (s : str)
| JArr (items : list value)
| JObj (fields : list (str * value)).

Fixpoint assoc (k : str) (fs : list (str * value)) : option value :=
  match fs with
  | [] => None
  | (k', v) :: t => if eqb k' k then Some v else assoc k t
  end.

(** [v?.k]: [None] is [undefined]. *)
Definition prop (k : string) (v : value) : option value :=
  match v with
  | JObj fs => assoc (lit k) fs
  | _ => None
  end.

(** ['k' in obj] *)
Definition hasKey (k : string) (fs : list (str * value)) : bool :=
  match assoc (lit k) fs with Some _ => true | None => false end.

(** [delete obj.k] *)
Definition delete (k : string) (fs : list (str * value)) : list (str * value) :=
  filter (fun kv => negb (eqb (fst kv) (lit k))) fs.

(** [obj.k = v] *)
Definition set (k : string) (v : value) (fs : list (str * value))
  : list (str * value) :=
  if hasKey k fs
  then map (fun kv => if eqb (fst kv) (lit k) then (fst kv, v) else kv) fs
  else fs ++ [(lit k, v)].

(** [Boolean(v)] *)
Definition truthyV (v : value) : bool :=
  match v with
  | JNull => false
  | JBool b => b
  | JNum f => negb (PrimFloat.eqb f 0%float) && negb (PrimFloat.is_nan f)
  | JStr s => truthy s
  | JArr _ => true
  | JObj _ => true
  end.

(** [parts.join(sep)] on strings. *)
Fixpoint join (sep : str) (parts : list str) : str :=
  match parts with
  | [] => []
  | [x] => x
  | x :: t => x ++ sep ++ join sep t
  end.

(** What the host supplies and the program only passes on:
    [Buffer.byteLength(JSON.stringify(v))]; [String(v)] of a value that is
    not a string; Canonicalize of a regular expression with the flag [i]
    that is built at run time (the engine's case table); the message of
    the [TypeError] the engine throws for [userContent.trim()] on a value
    without that method, and of the [SyntaxError] it throws for a pattern
    it refuses. *)
Record Builtins := {
  stringifyBytes : value -> nat;
  toStr : value -> str;
  canonicalize : N -> N;
  notAFunction : str;
  invalidRegExp : str -> str
}.

End Json.

(* ------------------------------------------------------------------ *)
(** ** The request sanitizer ([tools/kilo_sanitizer_cli.mjs]) *)
(* ------------------------------------------------------------------ *)

Module Sanitizer.
Import Js Json.

(** [{ ...DEFAULTS, ...opts }] *)
Record Options := {
  mode : str;
  keep : list str;
  stripEnv : bool;
  stripStreamOptions : bool;
  stripUnknownTopFields : bool;
  stripModel : bool;
  blockModels : list str;
  lang : str
}.

(** A regular expression without anchors: a match at some position. *)
Fixpoint search (m : str -> bool) (s : str) : bool :=
  m s ||
  match s with
  | [] => false
  | _ :: t => search m t
  end.

Definition matches (p : string) (s : str) : bool :=
  match matchLit (lit p) s with Some _ => true | None => false end.

(** [/You are Kilo Code/i] at a position *)
Definition reYouAreKiloCode (s : str) : bool := matches "You are Kilo Code" s.

(** [/Current\s+Mode\s*<slug>.*?<\/slug>/is] at a position.  After the run
    of white space the next pattern character is not white space, so only
    the whole run can be taken. *)
Definition reCurrentModeSlug (s : str) : bool :=
  match matchLit (lit "Current") s with
  | Some (c :: r) =>
      if isSpace c then
        match matchLit (lit "Mode") (trimStart r) with
        | Some r2 =>
            match matchLit (lit "<slug>") (trimStart r2) with
            | Some r3 => search (matches "</slug>") r3
            | None => false
            end
        | None => false
        end
      else false
  | _ => false
  end.

(** [/Kilo\s*Code/i] at a position *)
Definition reKiloCode (s : str) : bool :=
  match matchLit (lit "Kilo") s with
  | Some r => matches "Code" (trimStart r)
  | None => false
  end.

Definition messagesOf (payload : value) : list value :=
  match prop "messages" payload with
  | Some (JArr msgs) => msgs
  | _ => []
  end.

Definition contentString (m : value) : str :=
  match prop "content" m with
  | Some (JStr s) => s
  | _ => []
  end.

Definition isKiloRequest (payload : value) : bool :=
  let joined := join [10%N] (map contentString (messagesOf payload)) in
  if search reYouAreKiloCode joined then true
  else if search reCurrentModeSlug joined then true
  else if search reKiloCode joined then true
  else false.

(** *** The rewriting rules *)

Module Rules.

(** The mode slugs of [MODE_PRESETS]. *)
Inductive Mode := Ask | Code | Debug | Architect | Orchestrator.

Definition modeName (m : Mode) : string :=
  match m with
  | Ask => "ask"
  | Code => "code"
  | Debug => "debug"
  | Architect => "architect"
  | Orchestrator => "orchestrator"
  end.

Definition MODE_PRESETS (m : Mode) : list str :=
  map lit
    match m with
    | Ask =>
        ["read_file"; "search_files"; "list_files";
         "list_code_definition_names"; "browser_action"; "use_mcp_tool";
         "access_mcp_resource"; "ask_followup_question";
         "attempt_completion"]%string
    | Code | Debug =>
        ["read_file"; "apply_diff"; "write_to_file"; "insert_content";
         "search_and_replace"; "search_files"; "list_files";
         "list_code_definition_names"; "browser_action"; "use_mcp_tool";
         "access_mcp_resource"; "ask_followup_question";
         "attempt_completion"]%string
    | Architect =>
        ["read_file"; "search_files"; "list_files";
         "list_code_definition_names"; "ask_followup_question";
         "attempt_completion"]%string
    | Orchestrator =>
        ["new_task"; "switch_mode"; "ask_followup_question";
         "update_todo_list"; "attempt_completion"]%string
    end.

(** The first position where [f] finds something. *)
Fixpoint searchSome {A} (f : str -> option A) (s : str) : option A :=
  match f s with
  | Some a => Some a
  | None =>
      match s with
      | [] => None
      | _ :: t => searchSome f t
      end
  end.

(** [/<slug>(ask|code|debug|architect|orchestrator)<\/slug>/i] at a
    position, with the group in lower case. *)
Definition slugAt (s : str) : option Mode :=
  match matchLit (lit "<slug>") s with
  | Some r =>
      let alt m :=
        match matchLit (lit (modeName m)) r with
        | Some r2 => if matches "</slug>" r2 then Some m else None
        | None => None
        end in
      Noise.orElse (alt Ask)
        (Noise.orElse (alt Code)
           (Noise.orElse (alt Debug)
              (Noise.orElse (alt Architect) (alt Orchestrator))))
  | None => None
  end.

(** [detectModeSlug(payload)]: the slug of the first message that has
    one. *)
Fixpoint firstSlug (msgs : list value) : option Mode :=
  match msgs with
  | [] => None
  | m :: rest =>
      match searchSome slugAt (contentString m) with
      | Some mode => Some mode
      | None => firstSlug rest
      end
  end.

Definition detectModeSlug (payload : value) : option Mode :=
  firstSlug (messagesOf payload).

(** The rest after the first match of the literal [tag], any case. *)
Fixpoint findAfter (tag : str) (s : str) : option str :=
  match matchLit tag s with
  | Some r => Some r
  | None =>
      match s with
      | [] => None
      | _ :: t => findAfter tag t
      end
  end.

(** [/<environment_details>[\s\S]*?<\/environment_details>/gi] at a
    position. *)
Definition envBlockAt (_ : option N) (s : str) : option str :=
  match matchLit (lit "<environment_details>") s with
  | Some r => findAfter (lit "</environment_details>") r
  | None => None
  end.

(** [/^\s*Current\s+Mode[\s\S]*?<\/slug>\s*/i]: what is left of the
    subject after the match at its start. *)
Definition modeHeadOff (s : str) : option str :=
  match matchLit (lit "Current") (trimStart s) with
  | Some (c :: r) =>
      if isSpace c then
        match matchLit (lit "Mode") (trimStart r) with
        | Some r2 =>
            match findAfter (lit "</slug>") r2 with
            | Some r3 => Some (trimStart r3)
            | None => None
            end
        | None => None
        end
      else None
  | _ => None
  end.

(** [stripNoiseFromUserContent(text, { stripEnv })] on a string. *)
Definition stripNoiseFromUserContent (text : str) (stripEnv : bool) : str :=
  let out :=
    if stripEnv then trim (Noise.removeAll envBlockAt 0 None text) else text in
  let out :=
    trim (match modeHeadOff out with Some rest => rest | None => out end) in
  Dom.orStr out text.

(** The same on any value: what is not a string is returned as it is. *)
Definition stripNoiseValue (v : value) (stripEnv : bool) : value :=
  match v with
  | JStr s => JStr (stripNoiseFromUserContent s stripEnv)
  | _ => v
  end.

(** [zh.header]: 根据<task>中的任务描述选择使用XML标签将完成任务的完整代码包裹，并且确保代码都保持正确的缩进。 and a line feed *)
Definition zh_header : str :=
  [26681; 25454; 60; 116; 97; 115; 107; 62; 20013; 30340; 20219; 21153;
   25551; 36848; 36873; 25321; 20351; 29992; 88; 77; 76; 26631; 31614;
   23558; 23436; 25104; 20219; 21153; 30340; 23436; 25972; 20195; 30721;
   21253; 35065; 65292; 24182; 19988; 30830; 20445; 20195; 30721; 37117;
   20445; 25345; 27491; 30830; 30340; 32553; 36827; 12290; 10]%N.

(** [zh.allowPrefix]: 允许使用的工具（白名单）： then a line feed, a dash and a space *)
Definition zh_allowPrefix : str :=
  [20801; 35768; 20351; 29992; 30340; 24037; 20855; 65288; 30333; 21517;
   21333; 65289; 65306; 10; 45; 32]%N.

(** [zh.noTools]: 本轮会话不允许调用任何工具。 *)
Definition zh_noTools : str :=
  [26412; 36718; 20250; 35805; 19981; 20801; 35768; 35843; 29992; 20219;
   20309; 24037; 20855; 12290]%N.

(** [zh.tail]: 回答我的问题后等待我返回执行结果再继续下一步。 *)
Definition zh_tail : str :=
  [22238; 31572; 25105; 30340; 38382; 39064; 21518; 31561; 24453; 25105;
   36820; 22238; 25191; 34892; 32467; 26524; 20877; 32487; 32493; 19979;
   19968; 27493; 12290]%N.

(** [en.header]: six lines, from [You are a software engineering assistant.] to [</tool_name>] *)
Definition en_header : str :=
  [89; 111; 117; 32; 97; 114; 101; 32; 97; 32; 115; 111; 102; 116; 119; 97;
   114; 101; 32; 101; 110; 103; 105; 110; 101; 101; 114; 105; 110; 103; 32;
   97; 115; 115; 105; 115; 116; 97; 110; 116; 46; 32; 65; 108; 119; 97; 121;
   115; 32; 114; 101; 115; 112; 111; 110; 100; 32; 105; 110; 32; 69; 110;
   103; 108; 105; 115; 104; 46; 10; 85; 115; 101; 32; 88; 77; 76; 45; 108;
   105; 107; 101; 32; 116; 111; 111; 108; 32; 116; 97; 103; 115; 32; 119;
   104; 101; 110; 32; 110; 101; 101; 100; 101; 100; 32; 40; 97; 116; 32;
   109; 111; 115; 116; 32; 111; 110; 101; 32; 116; 111; 111; 108; 32; 99;
   97; 108; 108; 32; 112; 101; 114; 32; 109; 101; 115; 115; 97; 103; 101;
   41; 46; 10; 70; 111; 114; 109; 97; 116; 58; 10; 60; 116; 111; 111; 108;
   95; 110; 97; 109; 101; 62; 10; 32; 60; 20195; 30721; 46; 46; 46; 62; 10;
   60; 47; 116; 111; 111; 108; 95; 110; 97; 109; 101; 62]%N.

(** [en.osBlock]: four lines, from [Windows & Encoding:] to [avoid Linux rm.] *)
Definition en_osBlock : str :=
  [87; 105; 110; 100; 111; 119; 115; 32; 38; 32; 69; 110; 99; 111; 100; 105;
   110; 103; 58; 10; 45; 32; 85; 115; 101; 32; 80; 111; 119; 101; 114; 83;
   104; 101; 108; 108; 32; 97; 110; 100; 32; 102; 111; 114; 99; 101; 32; 85;
   84; 70; 45; 56; 32; 102; 111; 114; 32; 60; 101; 120; 101; 99; 117; 116;
   101; 95; 99; 111; 109; 109; 97; 110; 100; 62; 32; 111; 110; 32; 87; 105;
   110; 100; 111; 119; 115; 58; 10; 32; 32; 112; 111; 119; 101; 114; 115;
   104; 101; 108; 108; 32; 45; 78; 111; 80; 114; 111; 102; 105; 108; 101;
   32; 45; 69; 120; 101; 99; 117; 116; 105; 111; 110; 80; 111; 108; 105; 99;
   121; 32; 66; 121; 112; 97; 115; 115; 32; 45; 67; 111; 109; 109; 97; 110;
   100; 32; 34; 36; 79; 117; 116; 112; 117; 116; 69; 110; 99; 111; 100; 105;
   110; 103; 61; 91; 67; 111; 110; 115; 111; 108; 101; 93; 58; 58; 79; 117;
   116; 112; 117; 116; 69; 110; 99; 111; 100; 105; 110; 103; 61; 91; 83;
   121; 115; 116; 101; 109; 46; 84; 101; 120; 116; 46; 85; 84; 70; 56; 69;
   110; 99; 111; 100; 105; 110; 103; 93; 58; 58; 110; 101; 119; 40; 41; 59;
   32; 60; 89; 79; 85; 82; 95; 67; 77; 68; 62; 34; 10; 45; 32; 80; 114; 101;
   102; 101; 114; 32; 82; 101; 109; 111; 118; 101; 45; 73; 116; 101; 109;
   32; 102; 111; 114; 32; 100; 101; 108; 101; 116; 105; 111; 110; 59; 32;
   97; 118; 111; 105; 100; 32; 76; 105; 110; 117; 120; 32; 114; 109; 46]%N.

(** 当前模式： *)
Definition modeLabel : str :=
  [24403; 21069; 27169; 24335; 65306]%N.

(** An entry of [PROMPT_TEXTS]; a field is [None] where the entry has no
    such property. *)
Record Texts := {
  header : option str;
  allowPrefix : option str;
  noTools : option str;
  osBlock : option str;
  tail : option str
}.

Definition textsZh : Texts :=
  {| header := Some zh_header; allowPrefix := Some zh_allowPrefix;
     noTools := Some zh_noTools; osBlock := Some [];
     tail := Some zh_tail |}.

Definition textsEn : Texts :=
  {| header := Some en_header;
     allowPrefix := Some (lit "Allowed tools:" ++ [10; 45; 32]%N);
     noTools := Some (lit "No tool calls are allowed in this session.");
     osBlock := Some en_osBlock;
     tail := Some (lit "Note: Call tools only when necessary; after each call, wait for the user to return the result before proceeding.") |}.

(** The names every object inherits: [PROMPT_TEXTS[lang]] is then a
    function or the prototype, which has none of the five fields. *)
Definition inheritedNames : list str :=
  map lit
    ["constructor"; "__defineGetter__"; "__defineSetter__"; "hasOwnProperty";
     "__lookupGetter__"; "__lookupSetter__"; "isPrototypeOf";
     "propertyIsEnumerable"; "toString"; "valueOf"; "__proto__";
     "toLocaleString"]%string.

(** [PROMPT_TEXTS[lang] || PROMPT_TEXTS.zh] *)
Definition textsOf (lang : str) : Texts :=
  if eqb lang (lit "zh") then textsZh
  else if eqb lang (lit "en") then textsEn
  else if existsb (eqb lang) inheritedNames then
    {| header := None; allowPrefix := None; noTools := None;
       osBlock := None; tail := None |}
  else textsZh.

(** A value inside a template or to the left of [+]: [undefined] reads
    as its name. *)
Definition shown (o : option str) : str :=
  match o with Some s => s | None => lit "undefined" end.

(** An element of a joined array: [undefined] gives nothing. *)
Definition joined (o : option str) : str :=
  match o with Some s => s | None => [] end.

(** [<tl>...</tl>] *)
Definition toolTag (tl : str) : str :=
  lit "<" ++ tl ++ lit ">...</" ++ tl ++ lit ">".

Definition buildMinimalSystemPrompt (lang : str) (keepTools : list str)
           (mode : Mode) : str :=
  let t := textsOf lang in
  let allow :=
    match keepTools with
    | [] => noTools t
    | _ => Some (shown (allowPrefix t)
                 ++ join [10; 45; 32]%N (map toolTag keepTools))
    end in
  join [10; 10]%N
    [ shown (header t) ++ [10; 10]%N ++ modeLabel ++ lit (modeName mode);
      joined allow; joined (osBlock t); joined (tail t) ].

(** [Array.from(new Set(l))] on strings. *)
Fixpoint distinct (seen : list str) (l : list str) : list str :=
  match l with
  | [] => []
  | x :: t =>
      if existsb (eqb x) seen then distinct seen t
      else x :: distinct (x :: seen) t
  end.

Definition keepToolsOf (keep : list str) (mode : Mode) : list str :=
  distinct [] (keep ++ MODE_PRESETS mode).

(** What [rebuildMessages] ends with: the new [messages], or the
    [TypeError] of a call on a value that has no such method. *)
Inductive Rebuilt :=
| Messages (l : list value)
| TypeError.

(** [typeof v === 'string'] *)
Definition isString (v : value) : bool :=
  match v with JStr _ => true | _ => false end.

(** [m?.role === 'user'] *)
Definition isUser (m : value) : bool :=
  match prop "role" m with
  | Some (JStr r) => eqb r (lit "user")
  | _ => false
  end.

(** [lastUser?.content ?? ''] for the last of [users]. *)
Definition lastContent (users : list value) : value :=
  match rev users with
  | lastUser :: _ =>
      match prop "content" lastUser with
      | Some JNull | None => JStr []
      | Some c => c
      end
  | [] => JStr []
  end.

Definition message (role : string) (content : str) : value :=
  JObj [ (lit "role", JStr (lit role)); (lit "content", JStr content) ].

(** [rebuildMessages(original, { lang, keep, modeSlug, stripEnv })] *)
Definition rebuildMessages (original : value) (lang : str) (keep : list str)
           (mode : Mode) (stripEnv : bool) : Rebuilt :=
  let keepTools := keepToolsOf keep mode in
  let system :=
    message "system" (buildMinimalSystemPrompt lang keepTools mode) in
  (** [(original?.messages || []).filter(...)] *)
  let messages :=
    match prop "messages" original with
    | Some (JArr l) => Some l
    | Some v => if truthyV v then None else Some []
    | None => Some []
    end in
  match messages with
  | None => TypeError
  | Some l =>
      let users := filter isUser l in
      (** [userContent && userContent.trim()] *)
      match stripNoiseValue (lastContent users) stripEnv with
      | JStr userContent =>
          if truthy userContent && truthy (trim userContent)
          then Messages [ system; message "user" (trim userContent) ]
          else Messages [system]
      | other => if truthyV other then TypeError else Messages [system]
      end
  end.

End Rules.

Import Rules.

(** *** [globLikeToRegex] and [shouldBlockModel] *)

(** The characters [globLikeToRegex] puts a backslash before: the full
    stop, [+], [^], [$], the braces, the parentheses, [|], the square
    brackets and the backslash. *)
Definition isEscaped (c : N) : bool :=
  existsb (N.eqb c) [46; 43; 94; 36; 123; 125; 40; 41; 124; 91; 93; 92]%N.

(** The source of the pattern: [^], the glob with its special characters
    escaped and every [*] turned into [.*], and [$]. *)
Definition globSource (glob : str) : str :=
  [94%N]
  ++ flat_map (fun c => if isEscaped c then [92%N; c]
                        else if N.eqb c 42 then [46; 42]%N
                        else [c]) glob
  ++ [36%N].

(** A term of such a pattern: a character, a character with the
    quantifier [?], or [.*]. *)
Inductive Term :=
| One (c : N)
| Maybe (c : N)
| AnyRun.

(** What stands before the position in the pattern: nothing that can be
    repeated, a character, a quantifier ([?] or [*]), or a quantifier
    with the [?] that makes it lazy. *)
Inductive Before := Nothing | Character | Quantifier | LazyMark.

(** The pattern the engine reads from the source of [glob].  The one
    character of a glob that stays a quantifier is [?]: behind a
    character it makes it optional, behind a quantifier it makes that
    lazy, and anywhere else there is nothing to repeat and [new RegExp]
    throws.  [acc] holds the terms read so far, the last one first. *)
Fixpoint globTerms (b : Before) (acc : list Term) (glob : str)
  : option (list Term) :=
  match glob with
  | [] => Some (rev acc)
  | c :: rest =>
      if N.eqb c 63 then
        match b, acc with
        | Character, One x :: acc' => globTerms Quantifier (Maybe x :: acc') rest
        | Quantifier, _ => globTerms LazyMark acc rest
        | _, _ => None
        end
      else if N.eqb c 42 then globTerms Quantifier (AnyRun :: acc) rest
      else globTerms Character (One c :: acc) rest
  end.

(** [globLikeToRegex(glob)]; [None] is the [SyntaxError]. *)
Definition globLikeToRegex (glob : str) : option (list Term) :=
  globTerms Nothing [] glob.

Section Glob.
Variable B : Builtins.

(** Two characters under the flag [i]. *)
Definition sameChar (p c : N) : bool :=
  N.eqb (canonicalize B p) (canonicalize B c).

(** [rx.test(s)] for a pattern between [^] and [$]: the terms take all of
    [s].  Whether a quantifier is lazy makes no difference to that.  The
    full stop takes any character but a line terminator. *)
Fixpoint matchTerms (ts : list Term) (s : str) {struct ts} : bool :=
  match ts with
  | [] => negb (truthy s)
  | One p :: r =>
      match s with
      | c :: t => sameChar p c && matchTerms r t
      | [] => false
      end
  | Maybe p :: r =>
      matchTerms r s
      || match s with
         | c :: t => sameChar p c && matchTerms r t
         | [] => false
         end
  | AnyRun :: r =>
      (fix run (s : str) : bool :=
         matchTerms r s
         || match s with
            | c :: t => negb (isLineTerminator c) && run t
            | [] => false
            end) s
  end.

(** [String(v)] *)
Definition stringOf (v : value) : str :=
  match v with
  | JStr s => s
  | _ => toStr B v
  end.

(** The loop of [shouldBlockModel] over the globs. *)
Fixpoint blockedBy (subject : str) (list : list str) : Res bool :=
  match list with
  | [] => Ok false
  | s :: rest =>
      match globLikeToRegex s with
      | None => Throw (invalidRegExp B (globSource s))
      | Some rx =>
          if matchTerms rx subject then Ok true else blockedBy subject rest
      end
  end.

(** [shouldBlockModel(value, list)]; [None] is [undefined]. *)
Definition shouldBlockModel (value : option value) (list : list str) : Res bool :=
  match value with
  | Some v => if truthyV v then blockedBy (stringOf v) list else Ok false
  | None => Ok false
  end.

End Glob.

(** *** [sanitizeKiloRequest] *)

Record Sanitized := {
  json : value;
  changed : bool;
  reason : str;
  bytesBefore : nat;
  bytesAfter : nat
}.

(** [{ ...payload }]; past [isKiloRequest] the payload is an object. *)
Definition spread (payload : value) : list (str * value) :=
  match payload with
  | JObj fs => fs
  | _ => []
  end.

Definition allowedTop : list str :=
  map lit ["model"; "messages"; "temperature"; "top_p"; "stream";
           "stream_options"; "max_tokens"; "stop"]%string.

Definition pruneTopFields (obj : list (str * value)) : list (str * value) :=
  filter (fun kv => existsb (eqb (fst kv)) allowedTop) obj.

(** The variables [next], [changed] and [reason] of [sanitizeKiloRequest]. *)
Definition Draft : Type := list (str * value) * bool * str.

(** [next.messages = rebuildMessages(payload, { lang, keep, modeSlug,
    stripEnv })] in the modes [tools-minimal] and [tools-off]; the
    [TypeError] of [rebuildMessages] leaves the function.  This stage runs
    on a Kilo request only, whose [messages] is an array, so the
    [TypeError] is the one of [userContent.trim()]. *)
Definition rebuildStage (B : Builtins) (payload : value) (options : Options)
  : Res Draft :=
  let modeSlug :=
    match detectModeSlug payload with
    | Some m => m
    | None => Code
    end in
  let next := spread payload in
  let rebuilt (keep : list str) (name : string) : Res Draft :=
    match rebuildMessages payload (lang options) keep modeSlug
            (stripEnv options) with
    | Messages l => Ok (set "messages" (JArr l) next, true, lit name)
    | TypeError => Throw (notAFunction B)
    end in
  if eqb (mode options) (lit "tools-minimal")
  then rebuilt (keep options) "tools-minimal"%string
  else if eqb (mode options) (lit "tools-off")
  then rebuilt [] "tools-off"%string
  else Ok (next, false, lit "passthrough").

Definition streamOptionsStage (options : Options) (d : Draft) : Draft :=
  let '(next, chg, rsn) := d in
  if stripStreamOptions options && hasKey "stream_options" next
  then (delete "stream_options" next, true, rsn ++ lit " +strip-stream-options")
  else d.

(** [options.stripModel || shouldBlockModel(modelVal, options.blockModels)] *)
Definition modelTest (B : Builtins) (options : Options) (d : Draft) : Res bool :=
  if stripModel options then Ok true
  else shouldBlockModel B (assoc (lit "model") (fst (fst d)))
         (blockModels options).

Definition modelStage (block : bool) (d : Draft) : Draft :=
  let '(next, chg, rsn) := d in
  if block && hasKey "model" next
  then (delete "model" next, true, rsn ++ lit " +strip-model")
  else d.

Definition pruneStage (options : Options) (d : Draft) : Draft :=
  let '(next, chg, rsn) := d in
  if stripUnknownTopFields options
  then (pruneTopFields next, true, rsn ++ lit " +prune-top-fields")
  else d.

Definition sanitizeKiloRequest (B : Builtins) (payload : value)
           (options : Options) : Res Sanitized :=
  let before := stringifyBytes B payload in
  if negb (isKiloRequest payload) then
    Ok {| json := payload; changed := false; reason := lit "passthrough";
          bytesBefore := before; bytesAfter := before |}
  else
    match rebuildStage B payload options with
    | Throw e => Throw e
    | Ok d1 =>
        let d2 := streamOptionsStage options d1 in
        match modelTest B options d2 with
        | Throw e => Throw e
        | Ok block =>
            let '(next, chg, rsn) := pruneStage options (modelStage block d2) in
            Ok {| json := JObj next; changed := chg; reason := trim rsn;
                  bytesBefore := before;
                  bytesAfter := stringifyBytes B (JObj next) |}
        end
    end.

End Sanitizer.

(* ------------------------------------------------------------------ *)
(** ** The HTTP boundary: [/v1/chat/completions] *)
(* ------------------------------------------------------------------ *)

Module Http.
Import Js Json Dom Capture Driver.

(** *** Helpers on the request body *)

Section Body.
Variable B : Builtins.

(** The value a part of [m.content] maps to, before [.filter(Boolean)]. *)
Definition partText (p : value) : value :=
  match p with
  | JStr _ => p
  | _ =>
      match prop "type" p with
      | Some (JStr t) =>
          if eqb t (lit "text") then
            match prop "text" p with
            | Some x => if truthyV x then x else JStr []
            | None => JStr []
            end
          else JStr []
      | _ => JStr []
      end
  end.

(** The string [join] makes of an element. *)
Definition asString (v : value) : str :=
  match v with
  | JStr s => s
  | _ => toStr B v
  end.

Definition extractTextFromMessage (m : value) : str :=
  if negb (truthyV m) then []
  else
    match prop "content" m with
    | Some (JStr s) => s
    | Some (JArr parts) =>
        join [10%N] (map asString (filter truthyV (map partText parts)))
    | _ => []
    end.

(** The separator of [toPrompt]: two line feeds, three dashes, two line
    feeds. *)
Definition separator : str := [10; 10; 45; 45; 45; 10; 10]%N.

Definition toPrompt (body : value) : str :=
  let msgs :=
    match prop "messages" body with
    | Some (JArr l) => l
    | _ => []
    end in
  trim (join separator (filter truthy (map extractTextFromMessage msgs))).

End Body.

Definition wantStream (body : value) : bool :=
  match prop "stream" body with
  | Some (JBool b) => b
  | _ => true
  end.

(** *** Responses *)

(** One [res.write] of the event stream.  The [id] and [created] fields of
    a frame come from the clock and are left out. *)
Inductive Frame :=
| SseChunk (delta : str)
| SseStop
| SseDone.

Inductive Response :=
| RespJson (status : nat) (body : value)
| RespSse (frames : list Frame).

(** [{ error: { message } }] *)
Definition errorBody (message : string) : value :=
  JObj [(lit "error", JObj [(lit "message", JStr (lit message))])].

Definition busyResponse : Response :=
  RespJson 429 (errorBody "busy: single-flight in progress").

(** The body of a non-streaming completion (without [id] and [created]). *)
Definition completionBody (content : str) : value :=
  JObj [ (lit "object", JStr (lit "chat.completion"));
         (lit "model", JStr (lit "gemini-webui"));
         (lit "choices",
           JArr [ JObj [ (lit "index", JNum 0%float);
                         (lit "message",
                           JObj [ (lit "role", JStr (lit "assistant"));
                                  (lit "content", JStr content) ]);
                         (lit "finish_reason", JStr (lit "stop")) ] ]);
         (lit "usage",
           JObj [ (lit "prompt_tokens", JNum 0%float);
                  (lit "completion_tokens", JNum 0%float);
                  (lit "total_tokens", JNum 0%float) ]) ].

(** [String(e?.message || e)] for a thrown [Error]. *)
Definition errorText (msg : str) : str :=
  if truthy msg then msg else lit "Error".

(** The reason the [catch] of the handler reports. *)
Definition errorReason (msg : str) : string :=
  if includes msg (lit "submit_not_started") then "submit_not_started"
  else if includes msg (lit "no_text_captured") then "no_text_captured"
  else "proxy_error".

Definition errorResponse (thrown : str) : Response :=
  RespJson 502 (errorBody (errorReason (errorText thrown))).

(** *** The sanitizer adapter *)

Definition maybeSanitizeKiloBody (cfg : Config) (B : Builtins)
           (opts : Sanitizer.Options) (inBody : value)
  : Res (value * bool * option str) :=
  if negb (SAN_ON cfg) then Ok (inBody, false, None)
  else
    match Sanitizer.sanitizeKiloRequest B inBody opts with
    | Ok s => Ok (Sanitizer.json s, Sanitizer.changed s, Some (Sanitizer.reason s))
    | Throw e => Throw e
    end.

(** *** The handler, once admitted *)

(** What a request meets outside the process: the page the driver talks
    to and the clock and snapshots of its capture. *)
Record World := {
  surface : Surface;
  tInit : Z;
  t0 : Z;
  ticks : list Tick;
  finalSnap : option Page
}.

(** A response with the two headers of the sanitizer as they stand when it
    is sent: [X-KiloSanitize] and [X-KiloSanitize-Reason] are set only past
    the gate and once the sanitizer has returned. *)
Record Served := {
  kiloSanitize : option bool;
  kiloSanitizeReason : option str;
  response : Response
}.

(** A response sent before either header is set. *)
Definition bare (r : Response) : Served :=
  {| kiloSanitize := None; kiloSanitizeReason := None; response := r |}.

(** [String(report?.reason || '')] *)
Definition reasonText (report : option str) : str :=
  match report with
  | Some r => r
  | None => []
  end.

(** A response sent after the headers have been set from [changed] and
    [report]. *)
Definition marked (changed : bool) (report : option str) (r : Response)
  : Served :=
  {| kiloSanitize := Some changed;
     kiloSanitizeReason := if changed then Some (reasonText report) else None;
     response := r |}.

(** The handler from [ensureBrowser()] on, for a prompt that is not
    empty; [None] when the ticks of the world run out before the capture
    ends. *)
Definition respond (cfg : Config) (changed : bool) (report : option str)
           (stream : bool) (prompt : str) (w : World) : option Served :=
  let answer r := Some (marked changed report r) in
  match (ensureBrowser ;;; submitPrompt cfg prompt) (surface w) [] with
  | (Throw e, _) => answer (errorResponse e)
  | (Ok baseline, _) =>
      if stream then
        match readAnswerInChunks cfg baseline (tInit w) (t0 w) (ticks w)
                (finalSnap w) with
        | Some run =>
            answer (RespSse (map SseChunk (deltas run) ++ [SseStop; SseDone]))
        | None => None
        end
      else
        match waitForFinalAnswer cfg baseline (tInit w) (t0 w) (ticks w) with
        | Some run =>
            match outcome run with
            | Ok full => answer (RespJson 200 (completionBody full))
            | Throw e => answer (errorResponse e)
            end
        | None => None
        end
  end.

(** The [try] block of the handler with its [catch]. *)
Definition serve (cfg : Config) (B : Builtins) (opts : Sanitizer.Options)
           (body : value) (w : World) : option Served :=
  match maybeSanitizeKiloBody cfg B opts body with
  | Throw e => Some (bare (errorResponse e))
  | Ok (sanitizedBody, changed, report) =>
      let stream := wantStream sanitizedBody in
      let prompt := toPrompt B sanitizedBody in
      if negb (truthy prompt)
      then Some (marked changed report (RespJson 400 (errorBody "empty prompt")))
      else respond cfg changed report stream prompt w
  end.

(** *** The single-flight gate *)

(** The module variable [busy] with the timers and the one-shot listeners
    that write it; requests are named by a number. *)
Record Gate := {
  busy : bool;
  watchdogs : list nat;
  onClose : list nat;
  onFinish : list nat
}.

Inductive Event :=
| Arrive (id : nat)
| Finish (id : nat)
| Close (id : nat)
| WatchdogFires (id : nat).

Inductive Admission :=
| Accepted
| Rejected (r : Response).

Definition without (id : nat) (l : list nat) : list nat :=
  filter (fun x => negb (Nat.eqb x id)) l.

Definition registered (id : nat) (l : list nat) : bool :=
  existsb (Nat.eqb id) l.

(** What the process does on an event.  [Arrive] is the head of the
    handler, up to the [try]; the other events run the callbacks
    registered there. *)
Definition step (g : Gate) (e : Event) : Gate * option Admission :=
  match e with
  | Arrive id =>
      if busy g then (g, Some (Rejected busyResponse))
      else
        ({| busy := true;
            watchdogs := id :: watchdogs g;
            onClose := id :: onClose g;
            onFinish := id :: onFinish g |}, Some Accepted)
  | Close id =>
      if registered id (onClose g) then
        ({| busy := false;
            watchdogs := without id (watchdogs g);
            onClose := without id (onClose g);
            onFinish := onFinish g |}, None)
      else (g, None)
  | Finish id =>
      if registered id (onFinish g) then
        ({| busy := false;
            watchdogs := without id (watchdogs g);
            onClose := onClose g;
            onFinish := without id (onFinish g) |}, None)
      else (g, None)
  | WatchdogFires id =>
      if registered id (watchdogs g) then
        ({| busy := false;
            watchdogs := without id (watchdogs g);
            onClose := onClose g;
            onFinish := onFinish g |}, None)
      else (g, None)
  end.

Definition idle : Gate :=
  {| busy := false; watchdogs := []; onClose := []; onFinish := [] |}.

(** The events that release the gate held by request [id]. *)
Definition releases (id : nat) (e : Event) : bool :=
  match e with
  | Finish x | Close x | WatchdogFires x => Nat.eqb x id
  | Arrive _ => false
  end.

Definition holds (id : nat) (g : Gate) : bool :=
  registered id (watchdogs g) && registered id (onClose g)
  && registered id (onFinish g).

(** The whole handler for request [id]: the gate, then the [try] block. *)
Definition chatCompletions (cfg : Config) (B : Builtins)
           (opts : Sanitizer.Options)
           (g : Gate) (id : nat) (body : value) (w : World)
  : Gate * option Served :=
  match step g (Arrive id) with
  | (g', Some (Rejected r)) => (g', Some (bare r))
  | (g', _) => (g', serve cfg B opts body w)
  end.

Fixpoint runEvents (g : Gate) (es : list Event) : Gate * list (option Admission) :=
  match es with
  | [] => (g, [])
  | e :: t =>
      let '(g', a) := step g e in
      let '(g'', l) := runEvents g' t in
      (g'', a :: l)
  end.

End Http.

(* ------------------------------------------------------------------ *)
(** ** A scripted page, for running the loops on concrete inputs *)
(* ------------------------------------------------------------------ *)

Module Script.
Import Js Dom Capture.

(** A visible bubble without a markdown child, showing [txt]. *)
Definition bubble (id : nat) (txt : string) (spin : bool) : Bubble :=
  {| node := id; visible := true; txtNode := None;
     innerText := lit txt; textContent := lit txt;
     spinners := [if spin then Some true else None] |}.

(** The page with the given bubbles under the first root selector. *)
Definition page (l : list Bubble) : Page := [l; []; []; []].

(** An iteration whose three reads of the clock all give [t]. *)
Definition tick (t : Z) (l : list Bubble) : Tick :=
  {| now_loop := t; snap := Some (page l); now_change := t; now_stable := t |}.

(** Host functions for running the handler on a concrete request: sizes
    are not measured, only the ASCII letters fold, and the engine's
    errors carry sample messages. *)
Definition host0 : Json.Builtins :=
  {| Json.stringifyBytes := fun _ => 0;
     Json.toStr := fun _ => [];
     Json.canonicalize := canon;
     Json.notAFunction := lit "userContent.trim is not a function";
     Json.invalidRegExp := fun source =>
       lit "Invalid regular expression: /" ++ source
       ++ lit "/i: Nothing to repeat" |}.

(** The options [buildSanitizeOptionsFromCFG] gives by default. *)
Definition opts0 : Sanitizer.Options :=
  {| Sanitizer.mode := lit "tools-minimal";
     Sanitizer.keep := [];
     Sanitizer.stripEnv := true;
     Sanitizer.stripStreamOptions := true;
     Sanitizer.stripUnknownTopFields := false;
     Sanitizer.stripModel := true;
     Sanitizer.blockModels := [lit "gemini-2.5-flash"; lit "gemini-webui"];
     Sanitizer.lang := lit "zh" |}.

(** [{ messages: [{ role: 'user', content }] }] with more fields. *)
Definition chat (content : string) (more : list (str * Json.value)) : Json.value :=
  Json.JObj ((lit "messages",
              Json.JArr [Json.JObj [(lit "role", Json.JStr (lit "user"));
                                    (lit "content", Json.JStr (lit content))]])
             :: more).

Definition cfg0 : Config :=
  {| MAX_ANSWER_MS := 60000; STABLE_MS := 1200; AFTER_INPUT_SETTLE_MS := 800;
     FORCE_ENTER_ONLY := false; SAN_ON := true |}.

End Script.

(* ------------------------------------------------------------------ *)
(** ** Vocabulary of the properties *)
(* ------------------------------------------------------------------ *)

Module Props.
Import Js Noise Dom Capture.

(** The bubbles past the first [base] ones of a snapshot. *)
Definition beyondBaseline (base : nat) (snap : option Page) : list Bubble :=
  match snap with
  | Some pg => skipn base (visibleBubbles pg)
  | None => []
  end.

(** Two iterations that read the same clock and differ at most in the
    first [base] bubbles. *)
Definition sameBeyond (base : nat) (a b : Tick) : Prop :=
  now_loop a = now_loop b /\ now_change a = now_change b
  /\ now_stable a = now_stable b
  /\ beyondBaseline base (snap a) = beyondBaseline base (snap b).

(** The filtered text the aggregate capture sees in an iteration. *)
Definition cleanOf (base : nat) (tk : Tick) : str :=
  cleanFinal (orStr (text (getBubbleState base (snap tk))) []).

(** Some iteration of [l] saw a non-empty filtered text. *)
Definition sawText (base : nat) (l : list Tick) : bool :=
  existsb (fun tk => truthy (cleanOf base tk)) l.

(** The filtered text of an iteration of the streaming capture, when it
    passes the tests before the comparison with [last]. *)
Definition accepted (base : nat) (tk : Tick) : option str :=
  let raw := grabAnswerText base (snap tk) in
  let cur := cleanChunk raw in
  if truthy raw && truthy cur && negb (isPlaceholderText cur)
  then Some cur else None.

(** Every accepted text starts with the one accepted before it. *)
Fixpoint growing (base : nat) (prev : str) (l : list Tick) : Prop :=
  match l with
  | [] => True
  | tk :: rest =>
      match accepted base tk with
      | Some cur => startsWith prev cur = true /\ growing base cur rest
      | None => growing base prev rest
      end
  end.

(** The deltas the streaming loop has yielded by the time the ticks run
    out or the loop ends, whichever comes first. *)
Fixpoint yielded (cfg : Config) (base : nat) (t0 : Z) (st : Cap)
         (l : list Tick) : list str :=
  match l with
  | [] => []
  | tk :: rest =>
      if (now_loop tk - t0 <? MAX_ANSWER_MS cfg)%Z then
        match chunkBody cfg base st tk with
        | (d, _, Break) => emit d []
        | (d, st', Continue) => emit d (yielded cfg base t0 st' rest)
        end
      else []
  end.

(** A period, an ellipsis or white space. *)
Definition dotOrSpace (c : N) : bool :=
  (N.eqb c 46 || N.eqb c 8230 || isSpace c)%N.

(** In the aggregate capture [everHadText] says that [lastText] is not
    empty. *)
Definition aggInv (st : Agg) : Prop := everHadText st = truthy (lastText st).

(** All iterations of [l] pass the loop test. *)
Definition inTime (cfg : Config) (t0 : Z) (l : list Tick) : Prop :=
  Forall (fun tk => (now_loop tk - t0 < MAX_ANSWER_MS cfg)%Z) l.

(** *** The captures told from what the polls read *)

(** The streaming capture holds the emitted text and the clock of the last
    delta.  A poll emits exactly when the text it accepts is longer than
    the emitted text, and that text is then the emitted one. *)
Definition capOf (p : str * Z) : Cap :=
  {| last := fst p; lastChangeAt := snd p |}.

Definition emitsAfter (base : nat) (emitted : str) (tk : Tick) : bool :=
  match accepted base tk with
  | Some cur => length emitted <? length cur
  | None => false
  end.

Definition emitStep (base : nat) (p : str * Z) (tk : Tick) : str * Z :=
  match accepted base tk with
  | Some cur =>
      if length (fst p) <? length cur then (cur, now_change tk) else p
  | None => p
  end.

(** The emitted text and the clock of the last delta after the polls
    [l]. *)
Definition emittedBy (base : nat) (tInit : Z) (l : list Tick) : str * Z :=
  fold_left (emitStep base) l ([], tInit).

(** The poll [tk], after which the capture holds [p], ends the streaming
    loop: it read a text, a text has been emitted and the last delta is
    [STABLE_MS] old. *)
Definition streamStops (cfg : Config) (base : nat) (p : str * Z) (tk : Tick)
  : bool :=
  truthy (grabAnswerText base (snap tk)) && truthy (fst p)
  && (STABLE_MS cfg <=? now_stable tk - snd p)%Z.

(** No poll of [l], made from [p] on, ends the streaming loop. *)
Fixpoint streamGoesOnFrom (cfg : Config) (base : nat) (p : str * Z)
         (l : list Tick) : bool :=
  match l with
  | [] => true
  | tk :: rest =>
      negb (streamStops cfg base (emitStep base p tk) tk)
      && streamGoesOnFrom cfg base (emitStep base p tk) rest
  end.

Definition streamGoesOn (cfg : Config) (base : nat) (tInit : Z)
           (l : list Tick) : bool :=
  streamGoesOnFrom cfg base ([], tInit) l.

(** [tj], which accepts [cur], is the last poll of [pre ++ tj :: mid]
    that emits a delta. *)
Definition lastDelta (base : nat) (tInit : Z) (pre : list Tick) (tj : Tick)
           (mid : list Tick) (cur : str) : Prop :=
  accepted base tj = Some cur
  /\ length (fst (emittedBy base tInit pre)) < length cur
  /\ forallb (fun t => negb (emitsAfter base cur t)) mid = true.

(** The aggregate capture holds the recorded text and the clock of the
    last change.  A poll records its filtered text when that is not
    empty and differs from the recorded one. *)
Definition aggOf (p : str * Z) : Agg :=
  {| lastText := fst p; aggChangeAt := snd p; everHadText := truthy (fst p) |}.

Definition changesAfter (base : nat) (recorded : str) (tk : Tick) : bool :=
  truthy (cleanOf base tk) && negb (eqb (cleanOf base tk) recorded).

Definition recordStep (base : nat) (p : str * Z) (tk : Tick) : str * Z :=
  if changesAfter base (fst p) tk then (cleanOf base tk, now_change tk) else p.

Definition recordedBy (base : nat) (tInit : Z) (l : list Tick) : str * Z :=
  fold_left (recordStep base) l ([], tInit).

(** Whether the poll [tk], made when the capture holds [p], returns from
    the aggregate loop, and by which of its two returns: the short reply
    just recorded, or a recorded text whose last change is [STABLE_MS]
    old; either needs the spinner off. *)
Definition aggStops (cfg : Config) (base : nat) (p : str * Z) (tk : Tick)
  : option Exit :=
  let idle := negb (spinning (getBubbleState base (snap tk))) in
  let p' := recordStep base p tk in
  if changesAfter base (fst p) tk && (length (cleanOf base tk) <=? 5) && idle
  then Some ExitShort
  else if truthy (fst p') && idle && (STABLE_MS cfg <=? now_stable tk - snd p')%Z
  then Some ExitStable
  else None.

(** No poll of [l], made from [p] on, returns from the aggregate loop. *)
Fixpoint aggGoesOnFrom (cfg : Config) (base : nat) (p : str * Z)
         (l : list Tick) : bool :=
  match l with
  | [] => true
  | tk :: rest =>
      match aggStops cfg base p tk with
      | Some _ => false
      | None => aggGoesOnFrom cfg base (recordStep base p tk) rest
      end
  end.

Definition aggGoesOn (cfg : Config) (base : nat) (tInit : Z)
           (l : list Tick) : bool :=
  aggGoesOnFrom cfg base ([], tInit) l.

(** [tj], which shows [cur], is the last poll of [pre ++ tj :: mid] that
    records a change. *)
Definition lastChange (base : nat) (tInit : Z) (pre : list Tick) (tj : Tick)
           (mid : list Tick) (cur : str) : Prop :=
  cleanOf base tj = cur
  /\ changesAfter base (fst (recordedBy base tInit pre)) tj = true
  /\ forallb (fun t => negb (changesAfter base cur t)) mid = true.

(** *** Noise *)

(** [s] holds [p]: some text, [p], some text. *)
Definition contains (s p : str) : Prop := exists a b, s = a ++ p ++ b.

(** What the capture takes for noise: nothing, a text of periods,
    ellipses and white space with at least one period or ellipsis, or a
    text that holds one of the placeholder phrases. *)
Definition noise (t : str) : Prop :=
  t = []
  \/ (forallb dotOrSpace t = true /\ forallb isSpace t = false)
  \/ exists p, In p placeholders /\ contains (trim t) p.

End Props.

(* ------------------------------------------------------------------ *)
(** ** What the driver does on the page *)
(* ------------------------------------------------------------------ *)

Module Conduct.
Import Js Driver.

(** [m] only adds calls to the history, and only calls in [allowed]. *)
Definition issuesOnly {A} (S : Surface) (allowed : Op -> bool) (m : M A) : Prop :=
  forall h, exists ext, snd (m S h) = ext ++ h /\ forallb allowed ext = true.

(** [m] adds at most [n] calls in [f]. *)
Definition spends {A} (S : Surface) (f : Op -> bool) (n : nat) (m : M A) : Prop :=
  forall h, exists ext, snd (m S h) = ext ++ h /\ length (filter f ext) <= n.

(** From a history in [P], a value [m] returns and the history it
    returns in are in [Q]. *)
Definition returns {A} (S : Surface) (P : list Op -> Prop) (m : M A)
           (Q : A -> list Op -> Prop) : Prop :=
  forall h, P h -> forall a h', m S h = (Ok a, h') -> Q a h'.

Definition isEnter (op : Op) : bool :=
  match op with Press Enter => true | _ => false end.

Definition isClick (op : Op) : bool :=
  match op with ClickSend => true | _ => false end.

(** Looking the send button up for a click, and clicking it. *)
Definition touchesSend (op : Op) : bool :=
  match op with
  | FindSendSelector => true
  | ClickSend => true
  | _ => false
  end.

(** The calls [setInputFast] makes for the input [sel] and the text
    [expected]. *)
Definition injectionCall (cfg : Config) (sel : Sel) (expected : str)
           (op : Op) : bool :=
  match op with
  | BoxOf s | Focus s | ClearInput s | HasInputText s => eqb s sel
  | MouseClick => true
  | Press ControlA | Press Delete | Press Backspace | Press KeyV => true
  | KeyDown Control | KeyUp Control => true
  | TypeText t => eqb t (lit " ")
  | ExecInsertText s t | LocatorType s t => eqb s sel && eqb t expected
  | ClipboardWrite t | InsertText t => eqb t expected
  | WaitForTimeout ms => Z.eqb ms (AFTER_INPUT_SETTLE_MS cfg)
  | VerifyInputMatches s e ms => eqb s sel && eqb e expected && Z.eqb ms 1600
  | IsSendButtonReady ms => Z.eqb ms 1800 || Z.eqb ms 2000
  | _ => false
  end.

(** Some post-condition check answered [true]. *)
Definition confirmed (S : Surface) : Prop :=
  exists h op, isPostCondition op = true /\ reply S h op = Ok true.

(** A start check made with the count [n] answered [true]. *)
Definition startSeen (S : Surface) (n : nat) : Prop :=
  exists h ms, reply S h (WaitStarted n ms) = Ok true.

End Conduct.

(* ------------------------------------------------------------------ *)
(** ** The diagnostic reads: [findAllBubbles] and [/peek] *)
(* ------------------------------------------------------------------ *)

Module Peek.
Import Js Dom.

(** A root with the attributes [findAllBubbles] names it by. *)
Record Root := {
  element : Bubble;
  idAttr : str;
  dataMessageId : option str
}.

Definition RootPage := list (list Root).

(** The page as [getBubbleState] sees it. *)
Definition pageOf (pg : RootPage) : Page := map (map element) pg.

Fixpoint uniqRoots (seen : list nat) (all : list Root) : list Root :=
  match all with
  | [] => []
  | r :: t =>
      if existsb (Nat.eqb (node (element r))) seen then uniqRoots seen t
      else r :: uniqRoots (node (element r) :: seen) t
  end.

Definition visibleRoots (pg : RootPage) : list Root :=
  filter (fun r => visible (element r)) (uniqRoots [] (concat pg)).

Fixpoint digits (u : Decimal.uint) : str :=
  match u with
  | Decimal.Nil => []
  | Decimal.D0 u => 48%N :: digits u
  | Decimal.D1 u => 49%N :: digits u
  | Decimal.D2 u => 50%N :: digits u
  | Decimal.D3 u => 51%N :: digits u
  | Decimal.D4 u => 52%N :: digits u
  | Decimal.D5 u => 53%N :: digits u
  | Decimal.D6 u => 54%N :: digits u
  | Decimal.D7 u => 55%N :: digits u
  | Decimal.D8 u => 56%N :: digits u
  | Decimal.D9 u => 57%N :: digits u
  end.

(** [String(i)] for an index. *)
Definition decimal (i : nat) : str := digits (Nat.to_uint i).

Record BubbleInfo := {
  index : nat;
  id : str;
  text_len : nat;
  preview : str
}.

(** [uniq.map((el, i) => ...)], from index [i] on. *)
Fixpoint describe (i : nat) (l : list Root) : list BubbleInfo :=
  match l with
  | [] => []
  | el :: rest =>
      let text := bubbleText (element el) in
      {| index := i;
         id := orStr (idAttr el)
                 (orStr (match dataMessageId el with Some s => s | None => [] end)
                    (lit "bubble-" ++ decimal i));
         text_len := length text;
         preview := firstn 80 text |} :: describe (S i) rest
  end.

(** The function [findAllBubbles] evaluates in the page. *)
Definition findAllBubbles (pg : RootPage) : list BubbleInfo :=
  describe 0 (visibleRoots pg).

Record PeekReply := {
  bubbles : nat;
  peekSpinning : bool;
  peekTextLen : nat;
  peekText : str
}.

(** The answer of [/peek] when nothing rejects before [getBubbleState]:
    [first] is the page when [findAllBubbles] reads it, [second] the page
    at the read of [getBubbleState] ([None] when that read rejects). *)
Definition peek (first : RootPage) (second : option RootPage) : PeekReply :=
  let base := length (findAllBubbles first) in
  let st := getBubbleState base (option_map pageOf second) in
  {| bubbles := base;
     peekSpinning := spinning st;
     peekTextLen := length (orStr (text st) []);
     peekText := orStr (firstn 300 (text st)) [] |}.

End Peek.

(* ------------------------------------------------------------------ *)
(** ** The route [/reset] at the gate *)
(* ------------------------------------------------------------------ *)

Module Routes.
Import Http.

(** [busy = false], the first statement of [/reset]: the timers and the
    listeners of a request in flight are not touched. *)
Definition reset (g : Gate) : Gate :=
  {| busy := false;
     watchdogs := watchdogs g;
     onClose := onClose g;
     onFinish := onFinish g |}.

(** What reaches the gate: the events of the completion handler and the
    calls of [/reset]. *)
Inductive Request :=
| Chat (e : Event)
| Reset.

Definition handle (g : Gate) (r : Request) : Gate :=
  match r with
  | Chat e => fst (step g e)
  | Reset => reset g
  end.

End Routes.

(* ================================================================== *)
(** * Properties *)
(* ================================================================== *)

(** ** Strings *)

Section StringFacts.
Import Js.

Lemma eqb_spec (a b : str) : eqb a b = true <-> a = b.
Proof.
  revert b; induction a as [|x a IH]; intros [|y b]; simpl; split;
    try congruence; try reflexivity.
  - intros H. apply andb_true_iff in H as [Hx Hab].
    apply N.eqb_eq in Hx. apply IH in Hab. congruence.
  - intros H. injection H as -> ->. rewrite N.eqb_refl. simpl.
    apply IH. reflexivity.
Qed.

Lemma eqb_refl (a : str) : eqb a a = true.
Proof. apply eqb_spec. reflexivity. Qed.

Lemma truthy_nonempty (s : str) : truthy s = true <-> s <> [].
Proof. destruct s; simpl; split; congruence. Qed.

Lemma truthy_length (s : str) : truthy s = true <-> 0 < length s.
Proof. destruct s; simpl; split; intros; try lia; congruence. Qed.

Lemma startsWith_split (p s : str) :
  startsWith p s = true -> s = p ++ skipn (length p) s.
Proof.
  revert s; induction p as [|x p IH]; intros s H; simpl in *.
  - reflexivity.
  - destruct s as [|y s]; [discriminate|].
    apply andb_true_iff in H as [Hx Hp]. apply N.eqb_eq in Hx. subst y.
    simpl. f_equal. apply IH, Hp.
Qed.

Lemma startsWith_refl (s : str) : startsWith s s = true.
Proof. induction s; simpl; [|rewrite N.eqb_refl]; auto. Qed.

Lemma slice_empty_length (n : nat) (s : str) :
  truthy (slice n s) = false <-> length s <= n.
Proof.
  unfold slice. split; intros H.
  - assert (L := length_skipn n s).
    destruct (skipn n s); [simpl in L; lia | discriminate].
  - rewrite skipn_all2 by exact H. reflexivity.
Qed.

Lemma forallb_trimStart (P : N -> bool) (s : str) :
  forallb P s = true -> forallb P (trimStart s) = true.
Proof.
  induction s as [|c s IH]; simpl; [reflexivity|].
  intros H. destruct (isSpace c); [|exact H].
  apply andb_true_iff in H as [_ H]. apply IH, H.
Qed.

Lemma forallb_rev (P : N -> bool) (s : str) :
  forallb P s = true -> forallb P (rev s) = true.
Proof.
  intros H. apply forallb_forall. intros x Hx.
  apply in_rev in Hx. rewrite forallb_forall in H. apply H, Hx.
Qed.

Lemma forallb_trim (P : N -> bool) (s : str) :
  forallb P s = true -> forallb P (trim s) = true.
Proof.
  intros H. unfold trim, trimEnd.
  apply forallb_rev, forallb_trimStart, forallb_rev, forallb_trimStart, H.
Qed.

Lemma trimStart_split (s : str) :
  exists pre, s = pre ++ trimStart s /\ forallb isSpace pre = true.
Proof.
  induction s as [|c s IH]; simpl.
  - exists []. auto.
  - destruct (isSpace c) eqn:E.
    + destruct IH as [pre [H1 H2]]. exists (c :: pre). simpl.
      rewrite E, H2. split; [f_equal; exact H1 | reflexivity].
    + exists []. auto.
Qed.

Lemma trimStart_head (s : str) (c : N) (t : str) :
  trimStart s = c :: t -> isSpace c = false.
Proof.
  induction s as [|x s IH]; simpl; [discriminate|].
  destruct (isSpace x) eqn:E; [exact IH|].
  intros H. injection H as -> _. exact E.
Qed.

Lemma trimStart_fixed (c : N) (t : str) :
  isSpace c = false -> trimStart (c :: t) = c :: t.
Proof. intros H. simpl. rewrite H. reflexivity. Qed.

Lemma trimStart_idem (s : str) : trimStart (trimStart s) = trimStart s.
Proof.
  destruct (trimStart s) as [|c t] eqn:E; [reflexivity|].
  apply trimStart_fixed, (trimStart_head s c t E).
Qed.

Lemma trimStart_blank (s : str) :
  forallb isSpace s = true <-> trimStart s = [].
Proof.
  induction s as [|c s IH]; simpl; [tauto|].
  destruct (isSpace c); simpl; [exact IH|].
  split; discriminate.
Qed.

Lemma trimEnd_split (s : str) :
  exists post, s = trimEnd s ++ post /\ forallb isSpace post = true.
Proof.
  unfold trimEnd. destruct (trimStart_split (rev s)) as [pre [H1 H2]].
  exists (rev pre). split.
  - rewrite <- rev_app_distr, <- H1, rev_involutive. reflexivity.
  - apply forallb_rev, H2.
Qed.

Lemma trimEnd_idem (s : str) : trimEnd (trimEnd s) = trimEnd s.
Proof. unfold trimEnd. rewrite rev_involutive, trimStart_idem. reflexivity. Qed.

(** [trim] leaves a trimmed text as it is. *)
Lemma trim_idem (s : str) : trim (trim s) = trim s.
Proof.
  unfold trim at 1 3.
  assert (H : trimStart (trimEnd (trimStart s)) = trimEnd (trimStart s)).
  { destruct (trimEnd_split (trimStart s)) as [post [H1 _]].
    destruct (trimEnd (trimStart s)) as [|c t] eqn:E; [reflexivity|].
    apply trimStart_fixed. simpl in H1.
    apply (trimStart_head s c (t ++ post)). exact H1. }
  unfold trim. rewrite H. apply trimEnd_idem.
Qed.

Lemma trim_blank (s : str) :
  forallb isSpace s = true <-> trim s = [].
Proof.
  split; intros H.
  - unfold trim. apply trimStart_blank in H. rewrite H. reflexivity.
  - unfold trim in H.
    destruct (trimStart_split s) as [pre [H1 H2]].
    destruct (trimEnd_split (trimStart s)) as [post [H3 H4]].
    rewrite H in H3. simpl in H3. rewrite H1, H3.
    rewrite forallb_app, H2, H4. reflexivity.
Qed.

Lemma truthy_trim_blank (s : str) :
  truthy (trim s) = false <-> forallb isSpace s = true.
Proof.
  rewrite trim_blank. destruct (trim s); simpl; split; congruence.
Qed.

Lemma forallb_removeAll (P : N -> bool) m (s : str) :
  forallb P s = true ->
  forall k prev, forallb P (Noise.removeAll m k prev s) = true.
Proof.
  induction s as [|c s IH]; intros H k prev; simpl; [reflexivity|].
  simpl in H. apply andb_true_iff in H as [Hc Hs].
  destruct k; [|apply IH, Hs].
  destruct (m prev (c :: s)); [apply IH, Hs|].
  simpl. rewrite Hc. apply IH, Hs.
Qed.

Lemma includes_unfold (s p : str) :
  includes s p
  = startsWith p s || match s with [] => false | _ :: t => includes t p end.
Proof. destruct s; reflexivity. Qed.

Lemma startsWith_app (p r : str) : startsWith p (p ++ r) = true.
Proof. induction p; simpl; [|rewrite N.eqb_refl]; auto. Qed.

Lemma startsWith_app_r (p s b : str) :
  startsWith p s = true -> startsWith p (s ++ b) = true.
Proof.
  revert s; induction p as [|x p IH]; intros [|y s] H; simpl in *;
    try reflexivity; try discriminate.
  apply andb_true_iff in H as [Hx Hp]. rewrite Hx. simpl. apply IH, Hp.
Qed.

Lemma includes_self (p r : str) : includes (p ++ r) p = true.
Proof. rewrite includes_unfold, startsWith_app. reflexivity. Qed.

Lemma includes_app_l (a s p : str) :
  includes s p = true -> includes (a ++ s) p = true.
Proof.
  intros H. induction a as [|c a IH]; [exact H|].
  simpl. rewrite IH. apply orb_true_r.
Qed.

Lemma includes_app_r (s b p : str) :
  includes s p = true -> includes (s ++ b) p = true.
Proof.
  induction s as [|c s IH]; intros H.
  - simpl in H. rewrite orb_false_r in H.
    destruct p; [|discriminate]. rewrite includes_unfold. reflexivity.
  - simpl in H. apply orb_true_iff in H as [H|H].
    + rewrite includes_unfold.
      rewrite (startsWith_app_r p (c :: s) b H). reflexivity.
    + simpl. rewrite (IH H). apply orb_true_r.
Qed.

(** Where [s.includes(p)] holds: [p] stands somewhere in [s]. *)
Lemma includes_iff (s p : str) :
  includes s p = true <-> exists a b, s = a ++ p ++ b.
Proof.
  split.
  - induction s as [|c s IH]; rewrite includes_unfold; intros H.
    + rewrite orb_false_r in H. destruct p; [|discriminate].
      exists [], []. reflexivity.
    + apply orb_true_iff in H as [H|H].
      * exists [], (skipn (length p) (c :: s)). apply startsWith_split, H.
      * destruct (IH H) as (a & b & ->). exists (c :: a), b. reflexivity.
  - intros (a & b & ->). apply includes_app_l, includes_self.
Qed.

(** A text is white space, its trimmed text, and white space. *)
Lemma trim_split (s : str) :
  exists pre post,
    s = pre ++ trim s ++ post
    /\ forallb isSpace pre = true /\ forallb isSpace post = true.
Proof.
  destruct (trimStart_split s) as (pre & H1 & H2).
  destruct (trimEnd_split (trimStart s)) as (post & H3 & H4).
  exists pre, post. unfold trim. rewrite <- H3. auto.
Qed.

End StringFacts.

(** ** Reading the bubbles *)

Section Baseline.
Import Js Dom Capture Props.

Lemma readBubbles_skipn (base : nat) (l : list Bubble) :
  readBubbles base l = readBubbles 0 (skipn base l).
Proof.
  unfold readBubbles.
  destruct (Nat.leb_spec (length l) base) as [Hle|Hlt].
  - rewrite skipn_all2 by exact Hle. reflexivity.
  - assert (Hlen : length (skipn base l) = length l - base)
      by apply length_skipn.
    destruct (Nat.leb_spec (length (skipn base l)) 0) as [H0|_]; [lia|].
    rewrite Hlen, nth_error_skipn.
    replace (base + (length l - base - 1)) with (length l - 1) by lia.
    reflexivity.
Qed.

Lemma getBubbleState_beyond (base : nat) (snap : option Page) :
  getBubbleState base snap = readBubbles 0 (beyondBaseline base snap).
Proof.
  destruct snap as [pg|]; simpl; [apply readBubbles_skipn | reflexivity].
Qed.

Lemma getBubbleState_same (base : nat) (a b : option Page) :
  beyondBaseline base a = beyondBaseline base b ->
  getBubbleState base a = getBubbleState base b.
Proof. intros H. rewrite !getBubbleState_beyond, H. reflexivity. Qed.

Lemma grabAnswerText_same (base : nat) (a b : option Page) :
  beyondBaseline base a = beyondBaseline base b ->
  grabAnswerText base a = grabAnswerText base b.
Proof.
  intros H. unfold grabAnswerText. rewrite (getBubbleState_same _ _ _ H).
  reflexivity.
Qed.

Lemma chunkBody_same cfg base st a b :
  sameBeyond base a b -> chunkBody cfg base st a = chunkBody cfg base st b.
Proof.
  intros (Hl & Hc & Hs & Hb). unfold chunkBody.
  rewrite (grabAnswerText_same _ _ _ Hb), Hc, Hs. reflexivity.
Qed.

Lemma finalBody_same cfg base st a b :
  sameBeyond base a b -> finalBody cfg base st a = finalBody cfg base st b.
Proof.
  intros (Hl & Hc & Hs & Hb). unfold finalBody.
  rewrite (getBubbleState_same _ _ _ Hb), Hc, Hs. reflexivity.
Qed.

Lemma chunkLoop_same cfg base t0 ticks ticks' :
  Forall2 (sameBeyond base) ticks ticks' ->
  forall n st,
    chunkLoop cfg base t0 n st ticks = chunkLoop cfg base t0 n st ticks'.
Proof.
  induction 1 as [|a b l l' Hab _ IH]; intros n st; simpl; [reflexivity|].
  rewrite (chunkBody_same cfg base st a b Hab).
  destruct Hab as (Hl & _). rewrite Hl.
  destruct (now_loop b - t0 <? MAX_ANSWER_MS cfg)%Z; [|reflexivity].
  destruct (chunkBody cfg base st b) as [[d st'] [|]]; [|reflexivity].
  rewrite IH. reflexivity.
Qed.

Lemma finalLoop_same cfg base t0 ticks ticks' :
  Forall2 (sameBeyond base) ticks ticks' ->
  forall n st,
    finalLoop cfg base t0 n st ticks = finalLoop cfg base t0 n st ticks'.
Proof.
  induction 1 as [|a b l l' Hab _ IH]; intros n st; simpl; [reflexivity|].
  rewrite (finalBody_same cfg base st a b Hab).
  destruct Hab as (Hl & _). rewrite Hl.
  destruct (now_loop b - t0 <? MAX_ANSWER_MS cfg)%Z; [|reflexivity].
  destruct (finalBody cfg base st b) as [st' [[x txt]|]]; [reflexivity|].
  apply IH.
Qed.

(** C1. Baseline invariant.  Counting the bubbles the page shows from one,
    a read with baseline [base] yields nothing while there are at most
    [base] of them; otherwise it reads the most recent one, whose position
    is strictly beyond [base]; and the first [base] bubbles have no part in
    what either capture produces: two runs whose snapshots differ only in
    them give the same deltas and the same final answer. *)
Theorem baseline_invariant (cfg : Config) (base : nat) :
  (forall pg, length (visibleBubbles pg) <= base ->
     getBubbleState base (Some pg) = noBubble
     /\ grabAnswerText base (Some pg) = [])
  /\ grabAnswerText base None = []
  /\ (forall pg, base < length (visibleBubbles pg) ->
        exists i last,
          nth_error (visibleBubbles pg) i = Some last
          /\ S i = length (visibleBubbles pg)
          /\ base < S i
          /\ getBubbleState base (Some pg)
             = {| hasBubble := true; text := bubbleText last;
                  spinning := bubbleSpinning last |})
  /\ (forall snap,
        getBubbleState base snap = readBubbles 0 (beyondBaseline base snap))
  /\ (forall tInit t0 ticks ticks' fin fin',
        Forall2 (sameBeyond base) ticks ticks' ->
        beyondBaseline base fin = beyondBaseline base fin' ->
        readAnswerInChunks cfg base tInit t0 ticks fin
        = readAnswerInChunks cfg base tInit t0 ticks' fin')
  /\ (forall tInit t0 ticks ticks',
        Forall2 (sameBeyond base) ticks ticks' ->
        waitForFinalAnswer cfg base tInit t0 ticks
        = waitForFinalAnswer cfg base tInit t0 ticks').
Proof.
  repeat split.
  - simpl. unfold readBubbles.
    destruct (Nat.leb_spec (length (visibleBubbles pg)) base); [reflexivity|lia].
  - unfold grabAnswerText. simpl. unfold readBubbles.
    destruct (Nat.leb_spec (length (visibleBubbles pg)) base); [reflexivity|lia].
  - intros pg Hlt. set (l := visibleBubbles pg) in *.
    destruct (nth_error l (length l - 1)) as [last|] eqn:Hn.
    + exists (length l - 1), last. repeat split; try lia; try assumption.
      simpl. fold l. unfold readBubbles. rewrite Hn.
      destruct (Nat.leb_spec (length l) base); [lia|reflexivity].
    + apply nth_error_None in Hn. lia.
  - apply getBubbleState_beyond.
  - intros tInit t0 ticks ticks' fin fin' Hticks Hfin.
    unfold readAnswerInChunks, chunkTail.
    rewrite (chunkLoop_same cfg base t0 _ _ Hticks).
    rewrite (grabAnswerText_same _ _ _ Hfin). reflexivity.
  - intros tInit t0 ticks ticks' Hticks. unfold waitForFinalAnswer.
    apply finalLoop_same, Hticks.
Qed.

End Baseline.

(** ** The streaming loop *)

Section Streaming.
Import Js Noise Dom Capture Props.

Variable cfg : Config.
Variable base : nat.

(** What one iteration may emit. *)
Lemma chunkBody_emit st tk d st' nx :
  chunkBody cfg base st tk = (d, st', nx) ->
  match d with
  | Some x =>
      accepted base tk = Some (last st')
      /\ eqb (last st') (last st) = false
      /\ length (last st) < length (last st')
      /\ x = slice (length (last st)) (last st')
      /\ truthy x = true
      /\ lastChangeAt st' = now_change tk
  | None => st' = st
  end.
Proof.
  unfold chunkBody, accepted.
  destruct (truthy (grabAnswerText base (snap tk))) eqn:Hraw; simpl.
  2:{ intros H; injection H as <- <- <-. reflexivity. }
  set (cur := cleanChunk (grabAnswerText base (snap tk))).
  destruct (truthy cur) eqn:Hcur; simpl.
  2:{ destruct (_ && _); intros H; injection H as <- <- <-; reflexivity. }
  destruct (isPlaceholderText cur) eqn:Hph; simpl.
  1:{ destruct (_ && _); intros H; injection H as <- <- <-; reflexivity. }
  destruct (eqb cur (last st)) eqn:Heq; simpl.
  1:{ destruct (_ && _); intros H; injection H as <- <- <-; reflexivity. }
  destruct (truthy (slice (length (last st)) cur)) eqn:Hd.
  - simpl. intros H.
    assert (Hlen : length (last st) < length cur).
    { destruct (Nat.lt_ge_cases (length (last st)) (length cur)) as [?|Hge];
        [assumption|].
      apply slice_empty_length in Hge. congruence. }
    destruct (_ && _); injection H as <- <- <-; simpl; auto 10.
  - simpl. destruct (_ && _); intros H; injection H as <- <- <-; reflexivity.
Qed.

(** A text that is not longer than the emitted one emits nothing. *)
Lemma chunkBody_silent st tk :
  length (cleanChunk (grabAnswerText base (snap tk))) <= length (last st) ->
  fst (fst (chunkBody cfg base st tk)) = None
  /\ snd (fst (chunkBody cfg base st tk)) = st.
Proof.
  intros Hle.
  destruct (chunkBody cfg base st tk) as [[d st'] nx] eqn:E.
  pose proof (chunkBody_emit _ _ _ _ _ E) as H.
  destruct d as [x|]; simpl; [|auto].
  destruct H as (Hacc & _ & Hlt & _).
  unfold accepted in Hacc.
  destruct (_ && _) in Hacc; [|discriminate].
  injection Hacc as Hacc. rewrite <- Hacc in Hlt. lia.
Qed.

(** The loop is left by [break] only on a non-empty text that has been
    stable for [STABLE_MS]. *)
Lemma chunkBody_break st tk d st' :
  chunkBody cfg base st tk = (d, st', Break) ->
  truthy (last st') = true
  /\ (STABLE_MS cfg <= now_stable tk - lastChangeAt st')%Z.
Proof.
  unfold chunkBody.
  destruct (truthy (grabAnswerText base (snap tk))); simpl; [|discriminate].
  match goal with
  | |- context [match ?X with pair _ _ => _ end] => destruct X as [out s]
  end.
  destruct (truthy (last s)) eqn:Ht; simpl; [|discriminate].
  destruct (Z.leb_spec (STABLE_MS cfg) (now_stable tk - lastChangeAt s))
    as [Hs|Hs]; [|discriminate].
  intros H; injection H as <- <-. auto.
Qed.

Variable t0 : Z.

Lemma chunkLoop_end ticks :
  forall n st ds e,
    chunkLoop cfg base t0 n st ticks = Some (ds, e) ->
    n <= polls e
    /\ match why e with
       | ExitStable =>
           exists tk,
             nth_error ticks (polls e - n - 1) = Some tk
             /\ n < polls e
             /\ (now_loop tk - t0 < MAX_ANSWER_MS cfg)%Z
             /\ truthy (last (endCap e)) = true
             /\ (STABLE_MS cfg <= now_stable tk - lastChangeAt (endCap e))%Z
       | ExitTimeout =>
           exists tk,
             nth_error ticks (polls e - n) = Some tk
             /\ (MAX_ANSWER_MS cfg <= now_loop tk - t0)%Z
       | ExitShort => False
       end.
Proof.
  induction ticks as [|tk rest IH]; intros n st ds e; simpl; [discriminate|].
  destruct (Z.ltb_spec (now_loop tk - t0) (MAX_ANSWER_MS cfg)) as [Hin|Hout].
  - destruct (chunkBody cfg base st tk) as [[d st'] [|]] eqn:Hb.
    + destruct (chunkLoop cfg base t0 (S n) st' rest) as [[ds' e']|] eqn:Hl;
        [|discriminate].
      intros H; injection H as <- <-.
      destruct (IH _ _ _ _ Hl) as [Hle Hw]. split; [lia|].
      destruct (why e').
      * destruct Hw as (tk' & Hn & Ht). exists tk'. split; [|exact Ht].
        replace (polls e' - n) with (S (polls e' - S n)) by lia. exact Hn.
      * destruct Hw as (tk' & Hn & Hlt & Hrest). exists tk'.
        split; [|split; [lia|exact Hrest]].
        replace (polls e' - n - 1) with (S (polls e' - S n - 1)) by lia.
        exact Hn.
      * exact Hw.
    + intros H; injection H as <- <-. cbn [why polls endCap].
      split; [lia|].
      apply chunkBody_break in Hb as [Ht Hs].
      exists tk. replace (S n - n - 1) with 0 by lia.
      repeat split; auto; lia.
  - intros H; injection H as <- <-. cbn [why polls endCap]. split; [lia|].
    exists tk. rewrite Nat.sub_diag. auto.
Qed.

(** The deltas add up to the length of the emitted text. *)
Lemma chunkLoop_length ticks :
  forall n st ds e,
    chunkLoop cfg base t0 n st ticks = Some (ds, e) ->
    length (last st) + length (concat ds) = length (last (endCap e)).
Proof.
  induction ticks as [|tk rest IH]; intros n st ds e; simpl; [discriminate|].
  destruct (now_loop tk - t0 <? MAX_ANSWER_MS cfg)%Z.
  2:{ intros H; injection H as <- <-. simpl. lia. }
  destruct (chunkBody cfg base st tk) as [[d st'] nx] eqn:Hb.
  pose proof (chunkBody_emit _ _ _ _ _ Hb) as Hd.
  assert (Hstep : length (last st) + length (concat (emit d []))
                  = length (last st')).
  { destruct d as [x|]; simpl.
    - destruct Hd as (_ & _ & Hlt & -> & _). unfold slice.
      rewrite app_nil_r, length_skipn. lia.
    - subst st'. lia. }
  destruct nx.
  - destruct (chunkLoop cfg base t0 (S n) st' rest) as [[ds' e']|] eqn:Hl;
      [|discriminate].
    intros H; injection H as <- <-. apply IH in Hl.
    destruct d as [x|]; cbn [emit concat] in *; rewrite ?length_app in *;
      cbn [length] in *; lia.
  - intros H; injection H as <- <-. simpl. exact Hstep.
Qed.

(** When every accepted text extends the one before, the deltas spell the
    emitted text. *)
Lemma chunkLoop_growing ticks :
  forall n st ds e,
    growing base (last st) ticks ->
    chunkLoop cfg base t0 n st ticks = Some (ds, e) ->
    last st ++ concat ds = last (endCap e).
Proof.
  induction ticks as [|tk rest IH]; intros n st ds e Hg; simpl;
    [discriminate|].
  destruct (now_loop tk - t0 <? MAX_ANSWER_MS cfg)%Z.
  2:{ intros H; injection H as <- <-. simpl. apply app_nil_r. }
  destruct (chunkBody cfg base st tk) as [[d st'] nx] eqn:Hb.
  pose proof (chunkBody_emit _ _ _ _ _ Hb) as Hd.
  simpl in Hg.
  assert (Hstep : last st ++ concat (emit d []) = last st'
                  /\ growing base (last st') rest).
  { destruct d as [x|]; simpl.
    - destruct Hd as (Hacc & _ & _ & -> & _). rewrite Hacc in Hg.
      destruct Hg as [Hp Hg]. split; [|exact Hg].
      rewrite app_nil_r. symmetry. apply startsWith_split, Hp.
    - subst st'. split; [apply app_nil_r|].
      destruct (accepted base tk) as [cur|] eqn:Hacc; [|exact Hg].
      destruct Hg as [Hp Hg].
      (* accepted but not emitted: the text is the emitted one *)
      assert (cur = last st) as ->; [|exact Hg].
      revert Hb. unfold chunkBody. unfold accepted in Hacc.
      destruct (truthy (grabAnswerText base (snap tk))); simpl in *;
        [|discriminate].
      destruct (truthy (cleanChunk _)) eqn:Hc; simpl in *; [|discriminate].
      destruct (isPlaceholderText _); simpl in *; [discriminate|].
      injection Hacc as Hacc. rewrite Hacc.
      destruct (eqb cur (last st)) eqn:Heq; simpl.
      { intros _. apply eqb_spec, Heq. }
      destruct (truthy (slice (length (last st)) cur)) eqn:Hs.
      { destruct (_ && _); discriminate. }
      intros _. apply slice_empty_length in Hs.
      apply startsWith_split in Hp. rewrite Hp.
      rewrite skipn_all2 by exact Hs. apply app_nil_r. }
  destruct Hstep as [Hstep Hg'].
  destruct nx.
  - destruct (chunkLoop cfg base t0 (S n) st' rest) as [[ds' e']|] eqn:Hl;
      [|discriminate].
    intros H; injection H as <- <-.
    apply (IH _ _ _ _ Hg') in Hl. rewrite <- Hl, <- Hstep.
    destruct d; simpl; rewrite ?app_nil_r, <- ?app_assoc; reflexivity.
  - intros H; injection H as <- <-. simpl. exact Hstep.
Qed.

(** Once the clock passes the deadline within the ticks, the loop ends. *)
Lemma chunkLoop_total ticks :
  Exists (fun tk => (MAX_ANSWER_MS cfg <= now_loop tk - t0)%Z) ticks ->
  forall n st, exists r, chunkLoop cfg base t0 n st ticks = Some r.
Proof.
  induction ticks as [|tk rest IH]; intros Hex n st.
  - inversion Hex.
  - simpl.
    destruct (Z.ltb_spec (now_loop tk - t0) (MAX_ANSWER_MS cfg)) as [Hin|Hout];
      [|eauto].
    destruct (chunkBody cfg base st tk) as [[d st'] [|]]; [|eauto].
    inversion Hex as [? ? Hhd|? ? Htl]; subst; [lia|].
    destruct (IH Htl (S n) st') as [[ds e] ->]. eauto.
Qed.

End Streaming.

(** ** The aggregate loop *)

Section Aggregate.
Import Js Noise Dom Capture Props.

Variable cfg : Config.
Variable base : nat.

Lemma finalBody_state st tk :
  aggInv st ->
  let st' := fst (finalBody cfg base st tk) in
  aggInv st'
  /\ everHadText st' = everHadText st || truthy (cleanOf base tk).
Proof.
  unfold aggInv, finalBody, cleanOf. intros Hinv.
  destruct (getBubbleState base (snap tk)) as [hb txt sp]. cbn [text spinning].
  generalize (cleanFinal (orStr txt [])). intros clean.
  destruct (truthy clean) eqn:Hc; simpl.
  - destruct (eqb clean (lastText st)) eqn:Heq; simpl.
    + apply eqb_spec in Heq.
      assert (Hev : everHadText st = true) by congruence.
      destruct (everHadText st && negb sp && _); simpl;
        rewrite orb_true_r; auto.
    + destruct ((length clean <=? 5) && negb sp); simpl.
      * rewrite Hc, orb_true_r. auto.
      * destruct (negb sp && _); simpl; rewrite Hc, orb_true_r; auto.
  - rewrite orb_false_r.
    destruct (everHadText st && negb sp && _); simpl; auto.
Qed.

(** A return from inside the loop. *)
Lemma finalBody_return st tk st' x txt :
  finalBody cfg base st tk = (st', Some (x, txt)) ->
  txt = lastText st'
  /\ spinning (getBubbleState base (snap tk)) = false
  /\ match x with
     | ExitShort =>
         lastText st' = cleanOf base tk
         /\ truthy (lastText st') = true
         /\ eqb (lastText st') (lastText st) = false
         /\ length (lastText st') <= 5
         /\ aggChangeAt st' = now_change tk
     | ExitStable =>
         everHadText st' = true
         /\ (STABLE_MS cfg <= now_stable tk - aggChangeAt st')%Z
     | ExitTimeout => False
     end.
Proof.
  unfold finalBody, cleanOf.
  set (bs := getBubbleState base (snap tk)).
  set (clean := cleanFinal (orStr (text bs) [])).
  set (changed := truthy clean && negb (eqb clean (lastText st))).
  set (s := if changed then _ else st).
  destruct (changed && (length (lastText s) <=? 5) && negb (spinning bs))
    eqn:Hshort.
  - intros H; injection H as <- <- <-.
    apply andb_true_iff in Hshort as [Hshort Hsp].
    apply andb_true_iff in Hshort as [Hch Hlen].
    apply negb_true_iff in Hsp. apply Nat.leb_le in Hlen.
    subst s. rewrite Hch in *. simpl in *.
    unfold changed in Hch. apply andb_true_iff in Hch as [Hc Hne].
    apply negb_true_iff in Hne. auto 10.
  - destruct (everHadText s && negb (spinning bs)
              && (STABLE_MS cfg <=? now_stable tk - aggChangeAt s)%Z)
      eqn:Hstable; [|discriminate].
    intros H; injection H as <- <- <-.
    apply andb_true_iff in Hstable as [Hstable Hst].
    apply andb_true_iff in Hstable as [Hev Hsp].
    apply negb_true_iff in Hsp. apply Z.leb_le in Hst. auto.
Qed.

(** The short-reply return. *)
Lemma finalBody_short st tk :
  truthy (cleanOf base tk) = true ->
  eqb (cleanOf base tk) (lastText st) = false ->
  length (cleanOf base tk) <= 5 ->
  spinning (getBubbleState base (snap tk)) = false ->
  finalBody cfg base st tk
  = ({| lastText := cleanOf base tk; aggChangeAt := now_change tk;
        everHadText := true |},
     Some (ExitShort, cleanOf base tk)).
Proof.
  unfold finalBody, cleanOf. intros Hc Hne Hlen Hsp.
  rewrite Hc, Hne, Hsp. simpl.
  apply Nat.leb_le in Hlen. rewrite Hlen. reflexivity.
Qed.

(** An iteration that sees no text before any was seen changes nothing. *)
Lemma finalBody_idle st tk :
  everHadText st = false ->
  truthy (cleanOf base tk) = false ->
  finalBody cfg base st tk = (st, None).
Proof.
  unfold finalBody, cleanOf. intros Hev Hc. rewrite Hc. simpl.
  rewrite Hev. reflexivity.
Qed.

Variable t0 : Z.

Lemma finalLoop_spec ticks :
  forall n st r,
    aggInv st ->
    finalLoop cfg base t0 n st ticks = Some r ->
    n <= pollsRun r
    /\ aggInv (endAgg r)
    /\ everHadText (endAgg r)
       = everHadText st || sawText base (firstn (pollsRun r - n) ticks)
    /\ match exit r with
       | ExitTimeout =>
           outcome r = (if negb (everHadText (endAgg r))
                        then Throw no_text_captured
                        else Ok (lastText (endAgg r)))
           /\ exists tk,
               nth_error ticks (pollsRun r - n) = Some tk
               /\ (MAX_ANSWER_MS cfg <= now_loop tk - t0)%Z
       | ExitStable =>
           outcome r = Ok (lastText (endAgg r))
           /\ exists tk,
               nth_error ticks (pollsRun r - n - 1) = Some tk
               /\ n < pollsRun r
               /\ (now_loop tk - t0 < MAX_ANSWER_MS cfg)%Z
               /\ everHadText (endAgg r) = true
               /\ spinning (getBubbleState base (snap tk)) = false
               /\ (STABLE_MS cfg <= now_stable tk - aggChangeAt (endAgg r))%Z
       | ExitShort =>
           outcome r = Ok (lastText (endAgg r))
           /\ exists tk,
               nth_error ticks (pollsRun r - n - 1) = Some tk
               /\ n < pollsRun r
               /\ (now_loop tk - t0 < MAX_ANSWER_MS cfg)%Z
               /\ lastText (endAgg r) = cleanOf base tk
               /\ everHadText (endAgg r) = true
               /\ length (lastText (endAgg r)) <= 5
               /\ spinning (getBubbleState base (snap tk)) = false
               /\ aggChangeAt (endAgg r) = now_change tk
       end.
Proof.
  induction ticks as [|tk rest IH]; intros n st r Hinv; simpl; [discriminate|].
  destruct (Z.ltb_spec (now_loop tk - t0) (MAX_ANSWER_MS cfg)) as [Hin|Hout].
  - pose proof (finalBody_state st tk Hinv) as [Hinv' Hev'].
    destruct (finalBody cfg base st tk) as [st' [[x txt]|]] eqn:Hb;
      cbn [fst] in *.
    + intros H; injection H as <-. cbn [pollsRun endAgg exit outcome].
      apply finalBody_return in Hb as (-> & Hsp & Hx).
      replace (S n - n) with 1 by lia. replace (S n - n - 1) with 0 by lia.
      split; [lia|]. split; [exact Hinv'|]. split.
      { rewrite Hev'. unfold sawText. simpl. rewrite orb_false_r.
        reflexivity. }
      destruct x.
      * contradiction.
      * destruct Hx as [Hev Hst]. split; [reflexivity|].
        exists tk. simpl. repeat split; auto; lia.
      * destruct Hx as (Hcl & Ht & Hne & Hlen & Hch). split; [reflexivity|].
        exists tk. simpl. repeat split; auto; try lia.
        unfold aggInv in Hinv'. congruence.
    + intros Hl. destruct (IH _ _ _ Hinv' Hl) as (Hle & Hi & He & Hw).
      split; [lia|]. split; [exact Hi|]. split.
      { rewrite He, Hev'.
        replace (pollsRun r - n) with (S (pollsRun r - S n)) by lia.
        unfold sawText. simpl. rewrite orb_assoc. reflexivity. }
      destruct (exit r).
      * destruct Hw as (Ho & tk' & Hn & Ht). split; [exact Ho|].
        exists tk'. split; [|exact Ht].
        replace (pollsRun r - n) with (S (pollsRun r - S n)) by lia. exact Hn.
      * destruct Hw as (Ho & tk' & Hn & Hlt & Hrest). split; [exact Ho|].
        exists tk'. split; [|split; [lia|exact Hrest]].
        replace (pollsRun r - n - 1) with (S (pollsRun r - S n - 1)) by lia.
        exact Hn.
      * destruct Hw as (Ho & tk' & Hn & Hlt & Hrest). split; [exact Ho|].
        exists tk'. split; [|split; [lia|exact Hrest]].
        replace (pollsRun r - n - 1) with (S (pollsRun r - S n - 1)) by lia.
        exact Hn.
  - intros H; injection H as <-. cbn [pollsRun endAgg exit outcome].
    rewrite Nat.sub_diag. split; [lia|]. split; [exact Hinv|]. split.
    { simpl. rewrite orb_false_r. reflexivity. }
    split; [reflexivity|]. exists tk. simpl. auto.
Qed.

Lemma finalLoop_total ticks :
  Exists (fun tk => (MAX_ANSWER_MS cfg <= now_loop tk - t0)%Z) ticks ->
  forall n st, exists r, finalLoop cfg base t0 n st ticks = Some r.
Proof.
  induction ticks as [|tk rest IH]; intros Hex n st.
  - inversion Hex.
  - simpl.
    destruct (Z.ltb_spec (now_loop tk - t0) (MAX_ANSWER_MS cfg)) as [Hin|Hout];
      [|eauto].
    destruct (finalBody cfg base st tk) as [st' [[x txt]|]]; [eauto|].
    inversion Hex as [? ? Hhd|? ? Htl]; subst; [lia|].
    apply IH, Htl.
Qed.

(** Iterations that see no text, before any was seen, are passed over. *)
Lemma finalLoop_skip pre :
  inTime cfg t0 pre ->
  sawText base pre = false ->
  forall n st rest,
    everHadText st = false ->
    finalLoop cfg base t0 n st (pre ++ rest)
    = finalLoop cfg base t0 (n + length pre) st rest.
Proof.
  induction pre as [|tk pre IH]; intros Hin Hsaw n st rest Hev; simpl.
  - rewrite Nat.add_0_r. reflexivity.
  - inversion Hin as [|? ? Htk Hpre]; subst.
    apply Z.ltb_lt in Htk. rewrite Htk.
    unfold sawText in Hsaw. simpl in Hsaw.
    apply orb_false_iff in Hsaw as [Hc Hsaw].
    rewrite (finalBody_idle st tk Hev Hc).
    rewrite (IH Hpre Hsaw (S n) st rest Hev).
    f_equal. lia.
Qed.

End Aggregate.

(** ** The loops told from what the polls read *)

Section StreamingTold.
Import Js Noise Dom Capture Props.

Variable cfg : Config.
Variable base : nat.

Lemma truthy_slice (n : nat) (s : str) :
  truthy (slice n s) = (n <? length s).
Proof.
  destruct (Nat.ltb_spec n (length s)) as [Hlt|Hge].
  - destruct (truthy (slice n s)) eqn:E; [reflexivity|].
    apply slice_empty_length in E. lia.
  - apply slice_empty_length. exact Hge.
Qed.

(** One iteration of the streaming loop, on the text and the clock it
    holds. *)
Lemma chunkBody_told (p : str * Z) (tk : Tick) :
  chunkBody cfg base (capOf p) tk
  = (if emitsAfter base (fst p) tk
     then Some (slice (length (fst p)) (fst (emitStep base p tk)))
     else None,
     capOf (emitStep base p tk),
     if streamStops cfg base (emitStep base p tk) tk then Break else Continue).
Proof.
  destruct p as [txt t].
  unfold chunkBody, emitsAfter, emitStep, accepted, streamStops, capOf.
  cbn [fst snd last lastChangeAt].
  destruct (truthy (grabAnswerText base (snap tk))) eqn:Hraw;
    cbn [negb andb]; [|reflexivity].
  set (cur := cleanChunk (grabAnswerText base (snap tk))).
  assert (Same : forall o : option str,
    (if truthy txt && (STABLE_MS cfg <=? now_stable tk - t)%Z
     then (o, {| last := txt; lastChangeAt := t |}, Break)
     else (o, {| last := txt; lastChangeAt := t |}, Continue))
    = (o, {| last := txt; lastChangeAt := t |},
       if truthy txt && (STABLE_MS cfg <=? now_stable tk - t)%Z
       then Break else Continue)).
  { intros o. destruct (truthy txt && _); reflexivity. }
  destruct (truthy cur) eqn:Hcur; cbn [andb fst snd last lastChangeAt];
    [|apply Same].
  destruct (isPlaceholderText cur) eqn:Hph;
    cbn [negb andb fst snd last lastChangeAt]; [apply Same|].
  destruct (eqb cur txt) eqn:Heq; cbn [negb fst snd last lastChangeAt].
  - apply eqb_spec in Heq. rewrite Heq, Nat.ltb_irrefl.
    cbn [fst snd]. apply Same.
  - rewrite truthy_slice.
    destruct (length txt <? length cur); cbn [fst snd last lastChangeAt];
      [|apply Same].
    destruct (truthy cur && _); reflexivity.
Qed.

Lemma fold_emit_tail (l : list Tick) (tk : Tick) (p : str * Z) :
  fold_left (emitStep base) (l ++ [tk]) p
  = emitStep base (fold_left (emitStep base) l p) tk.
Proof. rewrite fold_left_app. reflexivity. Qed.

(** A poll that does not emit leaves the capture as it is. *)
Lemma emitStep_silent (p : str * Z) (tk : Tick) :
  emitsAfter base (fst p) tk = false -> emitStep base p tk = p.
Proof.
  unfold emitsAfter, emitStep. destruct (accepted base tk); [|reflexivity].
  intros ->. reflexivity.
Qed.

Lemma emitStep_emits (p : str * Z) (tk : Tick) :
  emitsAfter base (fst p) tk = true ->
  exists cur, accepted base tk = Some cur
              /\ length (fst p) < length cur
              /\ emitStep base p tk = (cur, now_change tk).
Proof.
  unfold emitsAfter, emitStep. destruct (accepted base tk) as [cur|];
    [|discriminate].
  intros H. rewrite H. apply Nat.ltb_lt in H. eauto.
Qed.

(** Where the capture stands after some polls: as before them, or at the
    last poll that emitted. *)
Lemma emitted_last (l : list Tick) :
  forall p,
    (fold_left (emitStep base) l p = p
     /\ forallb (fun t => negb (emitsAfter base (fst p) t)) l = true)
    \/ exists pre tj mid cur,
         l = pre ++ tj :: mid
         /\ accepted base tj = Some cur
         /\ length (fst (fold_left (emitStep base) pre p)) < length cur
         /\ forallb (fun t => negb (emitsAfter base cur t)) mid = true
         /\ fold_left (emitStep base) l p = (cur, now_change tj).
Proof.
  induction l as [|tk l IH]; intros p.
  - left. split; reflexivity.
  - cbn [fold_left].
    destruct (emitsAfter base (fst p) tk) eqn:He.
    + destruct (emitStep_emits p tk He) as (cur & Hacc & Hlen & Hst).
      destruct (IH (emitStep base p tk)) as [[Hq Hs]|(pre & tj & mid & c & Hl & R)].
      * right. exists [], tk, l, cur. cbn [app fold_left].
        rewrite Hst in Hs, Hq |- *. cbn [fst] in Hs. rewrite Hq. auto.
      * right. exists (tk :: pre), tj, mid, c. cbn [app fold_left].
        split; [f_equal; exact Hl | exact R].
    + rewrite (emitStep_silent p tk He).
      destruct (IH p) as [[Hq Hs]|(pre & tj & mid & c & Hl & Hacc & Hlen & R)].
      * left. split; [exact Hq|]. cbn [forallb]. rewrite He, Hs. reflexivity.
      * right. exists (tk :: pre), tj, mid, c. cbn [app fold_left].
        rewrite (emitStep_silent p tk He).
        split; [f_equal; exact Hl | auto].
Qed.

Variable t0 : Z.

(** How a run of the streaming loop ended, from the polls alone. *)
Lemma chunkLoop_told (ticks : list Tick) :
  forall n p ds e,
    chunkLoop cfg base t0 n (capOf p) ticks = Some (ds, e) ->
    exists seen tk rest,
      ticks = seen ++ tk :: rest
      /\ inTime cfg t0 seen
      /\ streamGoesOnFrom cfg base p seen = true
      /\ match why e with
         | ExitStable =>
             (now_loop tk - t0 < MAX_ANSWER_MS cfg)%Z
             /\ polls e = n + S (length seen)
             /\ streamStops cfg base
                  (fold_left (emitStep base) (seen ++ [tk]) p) tk = true
             /\ endCap e = capOf (fold_left (emitStep base) (seen ++ [tk]) p)
         | ExitTimeout =>
             (MAX_ANSWER_MS cfg <= now_loop tk - t0)%Z
             /\ polls e = n + length seen
             /\ endCap e = capOf (fold_left (emitStep base) seen p)
         | ExitShort => False
         end.
Proof.
  induction ticks as [|tk rest IH]; intros n p ds e; cbn [chunkLoop];
    [discriminate|].
  destruct (Z.ltb_spec (now_loop tk - t0) (MAX_ANSWER_MS cfg)) as [Hin|Hout].
  - rewrite chunkBody_told.
    destruct (streamStops cfg base (emitStep base p tk) tk) eqn:Hs.
    + intros H; injection H as <- <-. cbn [why polls endCap].
      exists [], tk, rest. cbn [app fold_left length streamGoesOnFrom].
      split; [reflexivity|]. split; [constructor|]. split; [reflexivity|].
      split; [exact Hin|]. split; [lia|]. split; [exact Hs | reflexivity].
    + destruct (chunkLoop cfg base t0 (S n) (capOf (emitStep base p tk)) rest)
        as [[ds' e']|] eqn:Hl; [|discriminate].
      intros H; injection H as <- <-.
      destruct (IH _ _ _ _ Hl) as (seen & tk' & rest' & -> & Hti & Hgo & Hw).
      exists (tk :: seen), tk', rest'. cbn [app fold_left length streamGoesOnFrom].
      rewrite Hs, Hgo. cbn [negb andb].
      split; [reflexivity|]. split; [constructor; assumption|].
      split; [reflexivity|].
      destruct (why e').
      * destruct Hw as (H1 & H2 & H3). repeat split; auto. lia.
      * destruct Hw as (H1 & H2 & H3 & H4). repeat split; auto. lia.
      * exact Hw.
  - intros H; injection H as <- <-. cbn [why polls endCap].
    exists [], tk, rest. cbn [app fold_left length streamGoesOnFrom].
    split; [reflexivity|]. split; [constructor|]. split; [reflexivity|].
    split; [exact Hout|]. split; [lia | reflexivity].
Qed.

(** The run of the loop over polls that are in time and do not end it. *)
Lemma chunkLoop_forward (seen : list Tick) :
  forall n p tk rest,
    inTime cfg t0 seen ->
    streamGoesOnFrom cfg base p seen = true ->
    ((now_loop tk - t0 < MAX_ANSWER_MS cfg)%Z ->
     streamStops cfg base (fold_left (emitStep base) (seen ++ [tk]) p) tk = true ->
     exists ds,
       chunkLoop cfg base t0 n (capOf p) (seen ++ tk :: rest)
       = Some (ds, {| why := ExitStable; polls := n + S (length seen);
                      endCap := capOf (fold_left (emitStep base)
                                         (seen ++ [tk]) p) |}))
    /\ ((MAX_ANSWER_MS cfg <= now_loop tk - t0)%Z ->
        exists ds,
          chunkLoop cfg base t0 n (capOf p) (seen ++ tk :: rest)
          = Some (ds, {| why := ExitTimeout; polls := n + length seen;
                         endCap := capOf (fold_left (emitStep base) seen p) |})).
Proof.
  induction seen as [|t seen IH]; intros n p tk rest Hti Hgo.
  - cbn [app fold_left length chunkLoop]. split.
    + intros Hin Hs. apply Z.ltb_lt in Hin. rewrite Hin, chunkBody_told, Hs.
      rewrite Nat.add_1_r. eauto.
    + intros Hout. apply Z.ltb_ge in Hout. rewrite Hout, Nat.add_0_r. eauto.
  - inversion Hti as [|? ? Ht Hrest]; subst.
    cbn [streamGoesOnFrom] in Hgo. apply andb_true_iff in Hgo as [Hs Hgo].
    apply negb_true_iff in Hs. apply Z.ltb_lt in Ht.
    cbn [app fold_left length chunkLoop]. rewrite Ht, chunkBody_told, Hs.
    destruct (IH (S n) (emitStep base p t) tk rest Hrest Hgo) as [Hst Hto].
    split.
    + intros Hin Hstop. destruct (Hst Hin Hstop) as [ds ->].
      replace (S n + S (length seen)) with (n + S (S (length seen))) by lia.
      eauto.
    + intros Hout. destruct (Hto Hout) as [ds ->].
      replace (S n + length seen) with (n + S (length seen)) by lia.
      eauto.
Qed.

End StreamingTold.

Section AggregateTold.
Import Js Noise Dom Capture Props.

Variable cfg : Config.
Variable base : nat.

(** One iteration of the aggregate loop, on the text and the clock it
    holds. *)
Lemma finalBody_told (p : str * Z) (tk : Tick) :
  finalBody cfg base (aggOf p) tk
  = (aggOf (recordStep base p tk),
     match aggStops cfg base p tk with
     | Some x => Some (x, fst (recordStep base p tk))
     | None => None
     end).
Proof.
  destruct p as [txt t].
  unfold finalBody, aggStops, recordStep, changesAfter, cleanOf, aggOf.
  cbn [fst snd lastText aggChangeAt everHadText].
  generalize (cleanFinal (orStr (text (getBubbleState base (snap tk))) [])).
  intros clean.
  destruct (truthy clean) eqn:Hc; cbn [andb].
  - destruct (eqb clean txt) eqn:Heq; cbn [negb andb fst snd lastText
                                            aggChangeAt everHadText].
    + destruct (truthy txt && _ && _); reflexivity.
    + rewrite Hc.
      destruct ((length clean <=? 5)
                && negb (spinning (getBubbleState base (snap tk))));
        [reflexivity|].
      cbn [andb].
      destruct (negb (spinning (getBubbleState base (snap tk))) && _);
        reflexivity.
  - cbn [fst snd lastText aggChangeAt everHadText].
    destruct (truthy txt && _ && _); reflexivity.
Qed.

Lemma recordStep_text (p : str * Z) (tk : Tick) :
  fst (recordStep base p tk)
  = if truthy (cleanOf base tk) then cleanOf base tk else fst p.
Proof.
  unfold recordStep, changesAfter.
  destruct (truthy (cleanOf base tk)); cbn [andb]; [|reflexivity].
  destruct (eqb (cleanOf base tk) (fst p)) eqn:E; cbn [negb fst];
    [|reflexivity].
  apply eqb_spec in E. symmetry. exact E.
Qed.

Lemma recordStep_same (p : str * Z) (tk : Tick) :
  changesAfter base (fst p) tk = false -> recordStep base p tk = p.
Proof. unfold recordStep. intros ->. reflexivity. Qed.

(** Polls that see no text record nothing. *)
Lemma recorded_unseen (l : list Tick) :
  forall p, sawText base l = false -> fold_left (recordStep base) l p = p.
Proof.
  induction l as [|tk l IH]; intros p H; [reflexivity|].
  unfold sawText in H. cbn [existsb] in H.
  apply orb_false_iff in H as [Hc Hl]. cbn [fold_left].
  rewrite recordStep_same; [apply IH, Hl|].
  unfold changesAfter. rewrite Hc. reflexivity.
Qed.

(** The recorded text is the filtered text of the last poll that saw
    one. *)
Lemma recorded_last_seen (l : list Tick) :
  forall p,
    sawText base l = true ->
    exists a t b,
      l = a ++ t :: b
      /\ truthy (cleanOf base t) = true
      /\ sawText base b = false
      /\ fst (fold_left (recordStep base) l p) = cleanOf base t.
Proof.
  induction l as [|tk l IH]; intros p H; [discriminate|].
  cbn [fold_left].
  destruct (sawText base l) eqn:Hl.
  - destruct (IH (recordStep base p tk) eq_refl) as (a & t & b & -> & R).
    exists (tk :: a), t, b. split; [reflexivity | exact R].
  - unfold sawText in H. cbn [existsb] in H. fold (sawText base l) in H.
    rewrite Hl, orb_false_r in H.
    exists [], tk, l. split; [reflexivity|]. split; [exact H|].
    split; [exact Hl|].
    rewrite (recorded_unseen l _ Hl), recordStep_text, H. reflexivity.
Qed.

(** Where the capture stands after some polls: as before them, or at the
    last poll that recorded a change. *)
Lemma recorded_last (l : list Tick) :
  forall p,
    (fold_left (recordStep base) l p = p
     /\ forallb (fun t => negb (changesAfter base (fst p) t)) l = true)
    \/ exists pre tj mid,
         l = pre ++ tj :: mid
         /\ changesAfter base (fst (fold_left (recordStep base) pre p)) tj = true
         /\ forallb (fun t => negb (changesAfter base (cleanOf base tj) t)) mid
            = true
         /\ fold_left (recordStep base) l p = (cleanOf base tj, now_change tj).
Proof.
  induction l as [|tk l IH]; intros p.
  - left. split; reflexivity.
  - cbn [fold_left].
    destruct (changesAfter base (fst p) tk) eqn:He.
    + assert (Hst : recordStep base p tk = (cleanOf base tk, now_change tk)).
      { unfold recordStep. rewrite He. reflexivity. }
      destruct (IH (recordStep base p tk)) as [[Hq Hs]|(pre & tj & mid & Hl & R)].
      * right. exists [], tk, l. cbn [app fold_left].
        rewrite Hst in Hs, Hq |- *. cbn [fst] in Hs. rewrite Hq. auto.
      * right. exists (tk :: pre), tj, mid. cbn [app fold_left].
        split; [f_equal; exact Hl | exact R].
    + rewrite (recordStep_same p tk He).
      destruct (IH p) as [[Hq Hs]|(pre & tj & mid & Hl & Hch & R)].
      * left. split; [exact Hq|]. cbn [forallb]. rewrite He, Hs. reflexivity.
      * right. exists (tk :: pre), tj, mid. cbn [app fold_left].
        rewrite (recordStep_same p tk He).
        split; [f_equal; exact Hl | auto].
Qed.

(** What a poll that returns leaves recorded is not empty. *)
Lemma aggStops_text (p : str * Z) (tk : Tick) (x : Exit) :
  aggStops cfg base p tk = Some x ->
  truthy (fst (recordStep base p tk)) = true.
Proof.
  unfold aggStops.
  destruct (changesAfter base (fst p) tk) eqn:Hch; cbn [andb].
  - intros _. unfold recordStep. rewrite Hch. cbn [fst].
    unfold changesAfter in Hch. apply andb_true_iff in Hch as [Hc _]. exact Hc.
  - destruct (truthy (fst (recordStep base p tk))); [reflexivity|].
    discriminate.
Qed.

(** The first poll that returns. *)
Lemma aggGoesOnFrom_false (l : list Tick) :
  forall p,
    aggGoesOnFrom cfg base p l = false ->
    exists a t b x,
      l = a ++ t :: b
      /\ aggGoesOnFrom cfg base p a = true
      /\ aggStops cfg base (fold_left (recordStep base) a p) t = Some x.
Proof.
  induction l as [|tk l IH]; intros p H; [discriminate|].
  cbn [aggGoesOnFrom] in H.
  destruct (aggStops cfg base p tk) as [x|] eqn:Hs.
  - exists [], tk, l, x. auto.
  - destruct (IH _ H) as (a & t & b & x & -> & Hgo & Hst).
    exists (tk :: a), t, b, x. cbn [app aggGoesOnFrom fold_left].
    rewrite Hs. auto.
Qed.

(** Polls that see no text, made before any was recorded, do not
    return. *)
Lemma aggGoesOnFrom_unseen (l : list Tick) (t : Z) :
  sawText base l = false -> aggGoesOnFrom cfg base ([], t) l = true.
Proof.
  induction l as [|tk l IH]; intros H; [reflexivity|].
  unfold sawText in H. cbn [existsb] in H.
  apply orb_false_iff in H as [Hc Hl].
  assert (Hch : changesAfter base [] tk = false).
  { unfold changesAfter. rewrite Hc. reflexivity. }
  cbn [aggGoesOnFrom]. unfold aggStops. cbn [fst].
  rewrite Hch, (recordStep_same ([], t) tk Hch). cbn [andb fst truthy].
  apply IH, Hl.
Qed.

Variable t0 : Z.

(** The run of the loop over polls that are in time and do not return. *)
Lemma finalLoop_forward (seen : list Tick) :
  forall n p rest,
    inTime cfg t0 seen ->
    aggGoesOnFrom cfg base p seen = true ->
    finalLoop cfg base t0 n (aggOf p) (seen ++ rest)
    = finalLoop cfg base t0 (n + length seen)
        (aggOf (fold_left (recordStep base) seen p)) rest.
Proof.
  induction seen as [|t seen IH]; intros n p rest Hti Hgo.
  - cbn [app fold_left length]. rewrite Nat.add_0_r. reflexivity.
  - inversion Hti as [|? ? Ht Hrest]; subst.
    cbn [aggGoesOnFrom] in Hgo.
    destruct (aggStops cfg base p t) eqn:Hs; [discriminate|].
    apply Z.ltb_lt in Ht.
    cbn [app fold_left length finalLoop]. rewrite Ht, finalBody_told, Hs.
    rewrite (IH (S n) _ rest Hrest Hgo). f_equal. lia.
Qed.

(** The poll at which the loop ends, by the clock or by a return. *)
Lemma finalLoop_at (n : nat) (p : str * Z) (tk : Tick) (rest : list Tick) :
  finalLoop cfg base t0 n (aggOf p) (tk :: rest)
  = if (now_loop tk - t0 <? MAX_ANSWER_MS cfg)%Z then
      match aggStops cfg base p tk with
      | Some x =>
          Some {| outcome := Ok (fst (recordStep base p tk)); exit := x;
                  pollsRun := S n; endAgg := aggOf (recordStep base p tk) |}
      | None =>
          finalLoop cfg base t0 (S n) (aggOf (recordStep base p tk)) rest
      end
    else
      Some {| outcome := if truthy (fst p) then Ok (fst p)
                         else Throw no_text_captured;
              exit := ExitTimeout; pollsRun := n; endAgg := aggOf p |}.
Proof.
  cbn [finalLoop]. rewrite finalBody_told.
  destruct (now_loop tk - t0 <? MAX_ANSWER_MS cfg)%Z.
  - destruct (aggStops cfg base p tk); reflexivity.
  - unfold aggOf at 1 2. cbn [everHadText lastText].
    destruct (truthy (fst p)); reflexivity.
Qed.

(** How a run of the aggregate loop ended, from the polls alone. *)
Lemma finalLoop_told (ticks : list Tick) :
  forall n p r,
    finalLoop cfg base t0 n (aggOf p) ticks = Some r ->
    exists seen tk rest,
      ticks = seen ++ tk :: rest
      /\ inTime cfg t0 seen
      /\ aggGoesOnFrom cfg base p seen = true
      /\ (((MAX_ANSWER_MS cfg <= now_loop tk - t0)%Z
           /\ r = {| outcome :=
                       if truthy (fst (fold_left (recordStep base) seen p))
                       then Ok (fst (fold_left (recordStep base) seen p))
                       else Throw no_text_captured;
                     exit := ExitTimeout;
                     pollsRun := n + length seen;
                     endAgg := aggOf (fold_left (recordStep base) seen p) |})
          \/ ((now_loop tk - t0 < MAX_ANSWER_MS cfg)%Z
              /\ exists x,
                   aggStops cfg base (fold_left (recordStep base) seen p) tk
                   = Some x
                   /\ r = {| outcome :=
                               Ok (fst (fold_left (recordStep base)
                                          (seen ++ [tk]) p));
                             exit := x;
                             pollsRun := n + S (length seen);
                             endAgg :=
                               aggOf (fold_left (recordStep base)
                                        (seen ++ [tk]) p) |})).
Proof.
  induction ticks as [|tk rest IH]; intros n p r; [discriminate|].
  rewrite finalLoop_at.
  destruct (Z.ltb_spec (now_loop tk - t0) (MAX_ANSWER_MS cfg)) as [Hin|Hout].
  - destruct (aggStops cfg base p tk) as [x|] eqn:Hs.
    + intros H; injection H as <-.
      exists [], tk, rest. cbn [app fold_left length aggGoesOnFrom].
      split; [reflexivity|]. split; [constructor|]. split; [reflexivity|].
      right. split; [exact Hin|]. exists x. split; [exact Hs|].
      rewrite Nat.add_1_r. reflexivity.
    + intros Hl.
      destruct (IH _ _ _ Hl) as (seen & tk' & rest' & -> & Hti & Hgo & Hw).
      exists (tk :: seen), tk', rest'. cbn [app fold_left length aggGoesOnFrom].
      rewrite Hs. split; [reflexivity|]. split; [constructor; assumption|].
      split; [exact Hgo|].
      destruct Hw as [[Ho ->]|[Hi (x & Hx & ->)]].
      * left. split; [exact Ho|]. f_equal. lia.
      * right. split; [exact Hi|]. exists x. split; [exact Hx|].
        f_equal. lia.
  - intros H; injection H as <-.
    exists [], tk, rest. cbn [app fold_left length aggGoesOnFrom].
    split; [reflexivity|]. split; [constructor|]. split; [reflexivity|].
    left. split; [exact Hout|]. rewrite Nat.add_0_r. reflexivity.
Qed.

End AggregateTold.

(** ** The claims on the capture *)

Section CaptureClaims.
Import Js Noise Dom Capture Props Script.

(** C2, as the code has it.  Where a run of either capture ends is told
    by the polls alone: the polls before the last one are in time and
    none of them ends the loop.  The streaming capture leaves its loop
    before the deadline only at a poll that reads a text, when a text has
    been emitted and the clock of that poll is [STABLE_MS] or more past
    the clock of the last poll that emitted a delta; the spinner is not
    looked at.  The aggregate capture returns from inside its loop either
    with the spinner off and the clock [STABLE_MS] or more past the clock
    of the last poll that recorded a change, or on a text just recorded of
    at most 5 code units with the spinner off.  Otherwise both end at the
    first poll whose clock is past [MAX_ANSWER_MS]; and each of these
    conditions does end the run. *)
Theorem completion_rule (cfg : Config) (base : nat) (tInit t0 : Z)
        (ticks : list Tick) :
  (forall fin r,
     readAnswerInChunks cfg base tInit t0 ticks fin = Some r ->
     exists seen tk rest,
       ticks = seen ++ tk :: rest
       /\ inTime cfg t0 seen
       /\ streamGoesOn cfg base tInit seen = true
       /\ match why (loopEnd r) with
          | ExitStable =>
              polls (loopEnd r) = S (length seen)
              /\ (now_loop tk - t0 < MAX_ANSWER_MS cfg)%Z
              /\ truthy (grabAnswerText base (snap tk)) = true
              /\ exists pre tj mid cur,
                   seen ++ [tk] = pre ++ tj :: mid
                   /\ lastDelta base tInit pre tj mid cur
                   /\ truthy cur = true
                   /\ endCap (loopEnd r) = capOf (cur, now_change tj)
                   /\ (STABLE_MS cfg <= now_stable tk - now_change tj)%Z
                   /\ length cur <= length (concat (deltas r))
          | ExitTimeout =>
              polls (loopEnd r) = length seen
              /\ (MAX_ANSWER_MS cfg <= now_loop tk - t0)%Z
              /\ endCap (loopEnd r) = capOf (emittedBy base tInit seen)
          | ExitShort => False
          end)
  /\ (forall r,
        waitForFinalAnswer cfg base tInit t0 ticks = Some r ->
        exists seen tk rest,
          ticks = seen ++ tk :: rest
          /\ inTime cfg t0 seen
          /\ aggGoesOn cfg base tInit seen = true
          /\ match exit r with
             | ExitStable =>
                 pollsRun r = S (length seen)
                 /\ (now_loop tk - t0 < MAX_ANSWER_MS cfg)%Z
                 /\ spinning (getBubbleState base (snap tk)) = false
                 /\ exists pre tj mid cur,
                      seen ++ [tk] = pre ++ tj :: mid
                      /\ lastChange base tInit pre tj mid cur
                      /\ truthy cur = true
                      /\ outcome r = Ok cur
                      /\ endAgg r = aggOf (cur, now_change tj)
                      /\ (STABLE_MS cfg <= now_stable tk - now_change tj)%Z
             | ExitShort =>
                 pollsRun r = S (length seen)
                 /\ (now_loop tk - t0 < MAX_ANSWER_MS cfg)%Z
                 /\ spinning (getBubbleState base (snap tk)) = false
                 /\ changesAfter base (fst (recordedBy base tInit seen)) tk = true
                 /\ length (cleanOf base tk) <= 5
                 /\ outcome r = Ok (cleanOf base tk)
                 /\ endAgg r = aggOf (cleanOf base tk, now_change tk)
             | ExitTimeout =>
                 pollsRun r = length seen
                 /\ (MAX_ANSWER_MS cfg <= now_loop tk - t0)%Z
                 /\ endAgg r = aggOf (recordedBy base tInit seen)
             end)
  /\ (forall seen tk rest fin,
        ticks = seen ++ tk :: rest ->
        inTime cfg t0 seen ->
        streamGoesOn cfg base tInit seen = true ->
        ((now_loop tk - t0 < MAX_ANSWER_MS cfg)%Z ->
         streamStops cfg base (emittedBy base tInit (seen ++ [tk])) tk = true ->
         exists r,
           readAnswerInChunks cfg base tInit t0 ticks fin = Some r
           /\ why (loopEnd r) = ExitStable
           /\ polls (loopEnd r) = S (length seen))
        /\ ((MAX_ANSWER_MS cfg <= now_loop tk - t0)%Z ->
            exists r,
              readAnswerInChunks cfg base tInit t0 ticks fin = Some r
              /\ why (loopEnd r) = ExitTimeout
              /\ polls (loopEnd r) = length seen))
  /\ (forall seen tk rest,
        ticks = seen ++ tk :: rest ->
        inTime cfg t0 seen ->
        aggGoesOn cfg base tInit seen = true ->
        (forall x,
           (now_loop tk - t0 < MAX_ANSWER_MS cfg)%Z ->
           aggStops cfg base (recordedBy base tInit seen) tk = Some x ->
           waitForFinalAnswer cfg base tInit t0 ticks
           = Some {| outcome := Ok (fst (recordedBy base tInit (seen ++ [tk])));
                     exit := x;
                     pollsRun := S (length seen);
                     endAgg := aggOf (recordedBy base tInit (seen ++ [tk])) |})
        /\ ((MAX_ANSWER_MS cfg <= now_loop tk - t0)%Z ->
            waitForFinalAnswer cfg base tInit t0 ticks
            = Some {| outcome :=
                        if truthy (fst (recordedBy base tInit seen))
                        then Ok (fst (recordedBy base tInit seen))
                        else Throw no_text_captured;
                      exit := ExitTimeout;
                      pollsRun := length seen;
                      endAgg := aggOf (recordedBy base tInit seen) |})).
Proof.
  split; [|split; [|split]].
  - intros fin r. unfold readAnswerInChunks.
    change {| last := []; lastChangeAt := tInit |} with (capOf ([], tInit)).
    destruct (chunkLoop cfg base t0 0 (capOf ([], tInit)) ticks)
      as [[ds e]|] eqn:Hl; [|discriminate].
    intros H; injection H as <-. cbn [loopEnd deltas].
    destruct (chunkLoop_told cfg base t0 ticks _ _ _ _ Hl)
      as (seen & tk & rest & Hticks & Hti & Hgo & Hw).
    exists seen, tk, rest.
    split; [exact Hticks|]. split; [exact Hti|]. split; [exact Hgo|].
    destruct (why e).
    + destruct Hw as (Hout & Hp & He). auto.
    + destruct Hw as (Hin & Hp & Hs & He).
      split; [exact Hp|]. split; [exact Hin|].
      unfold streamStops in Hs.
      apply andb_true_iff in Hs as [Hs Hst].
      apply andb_true_iff in Hs as [Hraw Htxt].
      split; [exact Hraw|].
      destruct (emitted_last base (seen ++ [tk]) ([], tInit))
        as [[Hq _]|(pre & tj & mid & cur & Hsplit & Hacc & Hlen & Hmid & Hq)].
      { rewrite Hq in Htxt. discriminate. }
      rewrite Hq in Htxt, Hst, He. cbn [fst snd] in Htxt, Hst.
      exists pre, tj, mid, cur.
      split; [exact Hsplit|]. split; [repeat split; assumption|].
      split; [exact Htxt|]. split; [exact He|].
      split; [apply Z.leb_le, Hst|].
      pose proof (chunkLoop_length cfg base t0 ticks _ _ _ _ Hl) as Hsum.
      rewrite He in Hsum. cbn [capOf last fst length] in Hsum.
      rewrite concat_app, length_app. lia.
    + exact Hw.
  - intros r. unfold waitForFinalAnswer.
    change {| lastText := []; aggChangeAt := tInit; everHadText := false |}
      with (aggOf ([], tInit)).
    intros Hr.
    destruct (finalLoop_told cfg base t0 ticks _ _ _ Hr)
      as (seen & tk & rest & Hticks & Hti & Hgo & Hw).
    exists seen, tk, rest.
    split; [exact Hticks|]. split; [exact Hti|]. split; [exact Hgo|].
    destruct Hw as [[Hout ->]|[Hin (x & Hx & ->)]]; cbn [exit pollsRun endAgg outcome].
    + auto.
    + rewrite fold_left_app in *. cbn [fold_left].
      fold (recordedBy base tInit seen) in *.
      pose proof Hx as Hcase. unfold aggStops in Hcase.
      destruct (changesAfter base (fst (recordedBy base tInit seen)) tk
                && (length (cleanOf base tk) <=? 5)
                && negb (spinning (getBubbleState base (snap tk)))) eqn:Hshort.
      * injection Hcase as <-.
        apply andb_true_iff in Hshort as [Hshort Hsp].
        apply andb_true_iff in Hshort as [Hch Hlen].
        apply negb_true_iff in Hsp. apply Nat.leb_le in Hlen.
        unfold recordStep. rewrite Hch. cbn [fst]. auto 10.
      * destruct (truthy (fst (recordStep base (recordedBy base tInit seen) tk))
                  && negb (spinning (getBubbleState base (snap tk)))
                  && (STABLE_MS cfg <=? now_stable tk
                      - snd (recordStep base (recordedBy base tInit seen) tk))%Z)
          eqn:Hstable; [|discriminate].
        injection Hcase as <-.
        apply andb_true_iff in Hstable as [Hstable Hst].
        apply andb_true_iff in Hstable as [Htxt Hsp].
        apply negb_true_iff in Hsp.
        split; [reflexivity|]. split; [exact Hin|]. split; [exact Hsp|].
        assert (Hfold : recordStep base (recordedBy base tInit seen) tk
                        = fold_left (recordStep base) (seen ++ [tk]) ([], tInit)).
        { rewrite fold_left_app. reflexivity. }
        rewrite Hfold in *.
        destruct (recorded_last base (seen ++ [tk]) ([], tInit))
          as [[Hq _]|(pre & tj & mid & Hsplit & Hch & Hmid & Hq)].
        { rewrite Hq in Htxt. discriminate. }
        rewrite Hq in *. cbn [fst snd] in *.
        exists pre, tj, mid, (cleanOf base tj).
        split; [exact Hsplit|]. split; [repeat split; assumption|].
        split; [exact Htxt|]. split; [reflexivity|]. split; [reflexivity|].
        apply Z.leb_le, Hst.
  - intros seen tk rest fin -> Hti Hgo.
    destruct (chunkLoop_forward cfg base t0 seen 0 ([], tInit) tk rest Hti Hgo)
      as [Hst Hto].
    unfold readAnswerInChunks.
    change {| last := []; lastChangeAt := tInit |} with (capOf ([], tInit)).
    split.
    + intros Hin Hs. destruct (Hst Hin Hs) as [ds ->]. eexists.
      split; [reflexivity|]. split; reflexivity.
    + intros Hout. destruct (Hto Hout) as [ds ->]. eexists.
      split; [reflexivity|]. split; reflexivity.
  - intros seen tk rest -> Hti Hgo. unfold waitForFinalAnswer.
    change {| lastText := []; aggChangeAt := tInit; everHadText := false |}
      with (aggOf ([], tInit)).
    rewrite (finalLoop_forward cfg base t0 seen 0 ([], tInit) _ Hti Hgo).
    rewrite finalLoop_at. cbn [Nat.add].
    fold (recordedBy base tInit seen). split.
    + intros x Hin Hx. apply Z.ltb_lt in Hin. rewrite Hin, Hx.
      unfold recordedBy at 3 4. rewrite fold_left_app. reflexivity.
    + intros Hout. apply Z.ltb_ge in Hout. rewrite Hout. reflexivity.
Qed.

(** C2 as stated fails: a streaming capture ends by stability while the
    spinner shows at every poll, and an aggregate capture returns a short
    reply on the poll that first sees it, before any stability window. *)
Lemma completion_rule_counterexample :
  let spinningHello := [bubble 1 "Hello" true] in
  let ticks := [tick 0 spinningHello; tick 1200 spinningHello] in
  option_map (fun r => (deltas r, why (loopEnd r), polls (loopEnd r)))
    (readAnswerInChunks cfg0 0 0 0 ticks (Some (page spinningHello)))
  = Some ([lit "Hello"], ExitStable, 2)
  /\ forallb (fun tk => spinning (getBubbleState 0 (snap tk))) ticks = true
  /\ option_map (fun r => (outcome r, exit r, pollsRun r))
       (waitForFinalAnswer cfg0 0 0 0 [tick 0 [bubble 1 "OK" false]])
     = Some (Ok (lit "OK"), ExitShort, 1)
  /\ (0 - 0 <? STABLE_MS cfg0)%Z = true.
Proof. vm_compute. repeat split. Qed.

Lemma completion_rule_witness :
  let hello := [bubble 1 "Hello" false] in
  (exists r seen tk rest pre tj mid,
     readAnswerInChunks cfg0 0 0 0 [tick 0 hello; tick 1200 hello] None = Some r
     /\ why (loopEnd r) = ExitStable
     /\ [tick 0 hello; tick 1200 hello] = seen ++ tk :: rest
     /\ seen ++ [tk] = pre ++ tj :: mid
     /\ (STABLE_MS cfg0 <= now_stable tk - now_change tj)%Z)
  /\ waitForFinalAnswer cfg0 0 0 0
       [tick 0 [bubble 1 "Hello!" false]; tick 1200 [bubble 1 "Hello!" false]]
     = Some {| outcome := Ok (lit "Hello!"); exit := ExitStable; pollsRun := 2;
               endAgg := aggOf (lit "Hello!", 0%Z) |}.
Proof.
  intros hello.
  split.
  - pose proof (completion_rule cfg0 0 0 0 [tick 0 hello; tick 1200 hello])
      as (Hs & _).
    destruct (readAnswerInChunks cfg0 0 0 0 [tick 0 hello; tick 1200 hello] None)
      as [r|] eqn:Hr; [|vm_compute in Hr; discriminate Hr].
    assert (Hwhy : why (loopEnd r) = ExitStable)
      by (vm_compute in Hr; injection Hr as <-; reflexivity).
    destruct (Hs None r Hr) as (seen & tk & rest & Hticks & _ & _ & Hw).
    rewrite Hwhy in Hw.
    destruct Hw as (_ & _ & _ & pre & tj & mid & cur & Hsplit & _ & _ & _
                    & Hst & _).
    exists r, seen, tk, rest, pre, tj, mid. auto.
  - pose proof (completion_rule cfg0 0 0 0
                  [tick 0 [bubble 1 "Hello!" false];
                   tick 1200 [bubble 1 "Hello!" false]])
      as (_ & _ & _ & Ha).
    destruct (Ha [tick 0 [bubble 1 "Hello!" false]]
                (tick 1200 [bubble 1 "Hello!" false]) [] eq_refl) as [Hx _].
    + repeat constructor.
    + reflexivity.
    + exact (Hx ExitStable eq_refl eq_refl).
Defined.

(** What has been yielded stays: going through more ticks only appends. *)
Lemma yielded_app cfg base t0 a :
  forall st b,
    exists more,
      yielded cfg base t0 st (a ++ b) = yielded cfg base t0 st a ++ more.
Proof.
  induction a as [|tk a IH]; intros st b; simpl.
  - eauto.
  - destruct (now_loop tk - t0 <? MAX_ANSWER_MS cfg)%Z; [|exists []; reflexivity].
    destruct (chunkBody cfg base st tk) as [[d st'] [|]].
    + destruct (IH st' b) as [more ->]. exists more.
      destruct d; reflexivity.
    + exists []. rewrite app_nil_r. reflexivity.
Qed.

Lemma chunkLoop_yielded cfg base t0 ticks :
  forall n st ds e,
    chunkLoop cfg base t0 n st ticks = Some (ds, e) ->
    yielded cfg base t0 st ticks = ds.
Proof.
  induction ticks as [|tk rest IH]; intros n st ds e; simpl; [discriminate|].
  destruct (now_loop tk - t0 <? MAX_ANSWER_MS cfg)%Z.
  2:{ intros H; injection H as <- <-. reflexivity. }
  destruct (chunkBody cfg base st tk) as [[d st'] [|]].
  - destruct (chunkLoop cfg base t0 (S n) st' rest) as [[ds' e']|] eqn:Hl;
      [|discriminate].
    intros H; injection H as <- <-. rewrite (IH _ _ _ _ Hl). reflexivity.
  - intros H; injection H as <- <-. reflexivity.
Qed.

(** C3, as the code has it.  A poll emits only when its filtered text is
    longer than the emitted text, and then emits what lies past the emitted
    length, whether or not the text starts with the emitted text; a text
    that is not longer emits nothing.  So the deltas always add up to the
    length of the emitted text, they spell it whenever every accepted text
    extended the one before, and what was yielded is only ever appended
    to. *)
Theorem monotonic_append (cfg : Config) (base : nat) (t0 : Z) (n : nat)
        (st : Cap) (ticks : list Tick) (ds : list str) (e : LoopEnd) :
  chunkLoop cfg base t0 n st ticks = Some (ds, e) ->
  length (last st) + length (concat ds) = length (last (endCap e))
  /\ (growing base (last st) ticks -> last st ++ concat ds = last (endCap e))
  /\ (forall k, exists more, ds = yielded cfg base t0 st (firstn k ticks) ++ more)
  /\ (forall s tk,
        length (cleanChunk (grabAnswerText base (snap tk))) <= length (last s) ->
        fst (fst (chunkBody cfg base s tk)) = None
        /\ snd (fst (chunkBody cfg base s tk)) = s)
  /\ (forall s tk d s' nx,
        chunkBody cfg base s tk = (d, s', nx) ->
        match d with
        | Some x =>
            last s' = cleanChunk (grabAnswerText base (snap tk))
            /\ length (last s) < length (last s')
            /\ x = slice (length (last s)) (last s')
        | None => s' = s
        end).
Proof.
  intros Hl. split; [|split; [|split; [|split]]].
  - apply (chunkLoop_length cfg base t0 ticks _ _ _ _ Hl).
  - intros Hg. apply (chunkLoop_growing cfg base t0 ticks _ _ _ _ Hg Hl).
  - intros k. rewrite <- (chunkLoop_yielded _ _ _ _ _ _ _ _ Hl).
    destruct (yielded_app cfg base t0 (firstn k ticks) st (skipn k ticks))
      as [more Hm].
    rewrite firstn_skipn in Hm. eauto.
  - intros s tk. apply chunkBody_silent.
  - intros s tk d s' nx Hb. pose proof (chunkBody_emit _ _ _ _ _ _ _ Hb) as H.
    destruct d as [x|]; [|exact H].
    destruct H as (Hacc & _ & Hlt & Hx & _). repeat split; auto.
    unfold accepted in Hacc. destruct (_ && _) in Hacc; congruence.
Qed.

(** C3 as stated fails: after ["Hello"], the text ["Goodbye!"] does not
    start with what was emitted, yet the poll emits ["ye!"], and the deltas
    spell ["Helloye!"] while the emitted text is ["Goodbye!"]. *)
Lemma monotonic_append_counterexample :
  chunkBody cfg0 0 {| last := lit "Hello"; lastChangeAt := 0 |}
    (tick 80 [bubble 1 "Goodbye!" false])
  = (Some (lit "ye!"), {| last := lit "Goodbye!"; lastChangeAt := 80 |}, Continue)
  /\ startsWith (lit "Hello") (lit "Goodbye!") = false
  /\ option_map (fun r => (concat (deltas r), last (endCap (loopEnd r))))
       (readAnswerInChunks cfg0 0 0 0
          [tick 0 [bubble 1 "Hello" false]; tick 80 [bubble 1 "Goodbye!" false];
           tick 1300 [bubble 1 "Goodbye!" false]]
          (Some (page [bubble 1 "Goodbye!" false])))
     = Some (lit "Helloye!", lit "Goodbye!").
Proof. vm_compute. repeat split. Qed.

Lemma monotonic_append_witness :
  length (lit "Hel" ++ lit "lo") = length (lit "Hello")
  /\ lit "Hel" ++ lit "lo" = lit "Hello".
Proof.
  pose proof (monotonic_append cfg0 2 0 0 {| last := []; lastChangeAt := 0 |}
    [tick 0 [bubble 1 "a" false; bubble 2 "b" false; bubble 3 "Hel" false];
     tick 80 [bubble 1 "a" false; bubble 2 "b" false; bubble 3 "Hello" false];
     tick 1280 [bubble 1 "a" false; bubble 2 "b" false; bubble 3 "Hello" false]]
    [lit "Hel"; lit "lo"]
    {| why := ExitStable; polls := 3;
       endCap := {| last := lit "Hello"; lastChangeAt := 80 |} |}
    eq_refl) as (Hlen & Hspell & _).
  split.
  - exact Hlen.
  - apply Hspell. vm_compute. repeat split.
Defined.

End CaptureClaims.

Section AggregateClaims.
Import Js Noise Dom Capture Props Script.

Lemma sawText_firstn base k l :
  sawText base l = false -> sawText base (firstn k l) = false.
Proof.
  unfold sawText. revert k; induction l as [|tk l IH]; intros [|k] H; simpl in *;
    try reflexivity.
  apply orb_false_iff in H as [Ha Hb]. rewrite Ha. simpl. apply IH, Hb.
Qed.

(** C4.  Let the polls [seen] be in time and the clock of the next poll be
    past the deadline.  Then the aggregate capture ends, and it throws
    [no_text_captured] exactly when no poll of [seen] saw a non-empty
    filtered text; the run is then the one that made all these polls and
    ended at the deadline.  When a poll saw text the capture returns a
    text, which is not empty and is the filtered text of one of the polls;
    when it ran to the deadline, that is the text recorded so far: the
    filtered text of the last poll that saw one.  The handler answers the
    throw with status 502 and the reason [no_text_captured]. *)
Theorem no_text_captured_iff (cfg : Config) (base : nat) (tInit t0 : Z)
        (seen : list Tick) (td : Tick) (rest : list Tick) :
  inTime cfg t0 seen ->
  (MAX_ANSWER_MS cfg <= now_loop td - t0)%Z ->
  exists r,
    waitForFinalAnswer cfg base tInit t0 (seen ++ td :: rest) = Some r
    /\ (outcome r = Throw no_text_captured <-> sawText base seen = false)
    /\ (sawText base seen = false ->
        r = {| outcome := Throw no_text_captured; exit := ExitTimeout;
               pollsRun := length seen; endAgg := aggOf ([], tInit) |})
    /\ (sawText base seen = true ->
        exists txt t,
          outcome r = Ok txt /\ truthy txt = true
          /\ In t seen /\ txt = cleanOf base t)
    /\ (sawText base seen = true ->
        aggGoesOn cfg base tInit seen = true ->
        r = {| outcome := Ok (fst (recordedBy base tInit seen));
               exit := ExitTimeout;
               pollsRun := length seen;
               endAgg := aggOf (recordedBy base tInit seen) |}
        /\ exists a t b,
             seen = a ++ t :: b
             /\ truthy (cleanOf base t) = true
             /\ sawText base b = false
             /\ fst (recordedBy base tInit seen) = cleanOf base t)
    /\ (aggGoesOn cfg base tInit seen = false ->
        exit r <> ExitTimeout /\ pollsRun r <= length seen)
    /\ Http.errorResponse no_text_captured
       = Http.RespJson 502 (Http.errorBody "no_text_captured").
Proof.
  intros Hti Hout. unfold waitForFinalAnswer.
  change {| lastText := []; aggChangeAt := tInit; everHadText := false |}
    with (aggOf ([], tInit)).
  destruct (aggGoesOn cfg base tInit seen) eqn:Hgo.
  - rewrite (finalLoop_forward cfg base t0 seen 0 ([], tInit) _ Hti Hgo).
    rewrite finalLoop_at. cbn [Nat.add].
    apply Z.ltb_ge in Hout. rewrite Hout.
    fold (recordedBy base tInit seen).
    eexists. split; [reflexivity|]. cbn [outcome exit pollsRun endAgg].
    destruct (sawText base seen) eqn:Hsaw.
    + destruct (recorded_last_seen base seen ([], tInit) Hsaw)
        as (a & t & b & Hsplit & Ht & Hb & Hrec).
      fold (recordedBy base tInit seen) in Hrec.
      assert (Htxt : truthy (fst (recordedBy base tInit seen)) = true)
        by (rewrite Hrec; exact Ht).
      rewrite Htxt.
      split; [split; discriminate|]. split; [discriminate|].
      split.
      { intros _. exists (fst (recordedBy base tInit seen)), t.
        split; [reflexivity|]. split; [exact Htxt|].
        split; [rewrite Hsplit; apply in_elt | exact Hrec]. }
      split.
      { intros _ _. split; [reflexivity|]. exists a, t, b. auto. }
      split; [discriminate | reflexivity].
    + assert (Hrec : recordedBy base tInit seen = ([], tInit))
        by (apply recorded_unseen, Hsaw).
      rewrite Hrec. cbn [fst truthy].
      split; [split; reflexivity|]. split; [reflexivity|].
      split; [discriminate|]. split; [discriminate|].
      split; [discriminate | reflexivity].
  - destruct (aggGoesOnFrom_false cfg base seen _ Hgo)
      as (a & t & b & x & Hsplit & Hga & Hx).
    assert (Hsaw : sawText base seen = true).
    { destruct (sawText base seen) eqn:Hsaw; [reflexivity|].
      unfold aggGoesOn in Hgo.
      rewrite (aggGoesOnFrom_unseen cfg base seen tInit Hsaw) in Hgo.
      discriminate. }
    assert (Hta : inTime cfg t0 a /\ (now_loop t - t0 < MAX_ANSWER_MS cfg)%Z).
    { unfold inTime in *. rewrite Hsplit in Hti.
      apply Forall_app in Hti as [Ha Hb].
      inversion Hb as [|? ? Hhd Htl]. auto. }
    destruct Hta as [Hta Ht].
    subst seen. rewrite <- app_assoc.
    rewrite (finalLoop_forward cfg base t0 a 0 ([], tInit) _ Hta Hga).
    cbn [app]. rewrite finalLoop_at. cbn [Nat.add].
    apply Z.ltb_lt in Ht. rewrite Ht, Hx.
    eexists. split; [reflexivity|]. cbn [outcome exit pollsRun endAgg].
    rewrite Hsaw.
    split; [split; discriminate|]. split; [discriminate|].
    split.
    { intros _.
      pose proof (aggStops_text cfg base _ _ _ Hx) as Htxt.
      assert (Hfold : recordStep base (fold_left (recordStep base) a ([], tInit)) t
                      = fold_left (recordStep base) (a ++ [t]) ([], tInit)).
      { rewrite fold_left_app. reflexivity. }
      rewrite Hfold in Htxt |- *.
      destruct (recorded_last base (a ++ [t]) ([], tInit))
        as [[Hq _]|(pre & tj & mid & Hs2 & _ & _ & Hq)].
      { rewrite Hq in Htxt. discriminate. }
      rewrite Hq in Htxt |- *. cbn [fst] in Htxt |- *.
      exists (cleanOf base tj), tj.
      split; [reflexivity|]. split; [exact Htxt|]. split; [|reflexivity].
      assert (Hin : In tj (a ++ [t])) by (rewrite Hs2; apply in_elt).
      apply in_app_or in Hin as [Hin|[<-|[]]];
        apply in_or_app; [left; exact Hin | right; left; reflexivity]. }
    split; [discriminate|].
    split; [|reflexivity].
    intros _. split.
    + unfold aggStops in Hx.
      destruct (_ && _ && _) in Hx; [injection Hx as <-; discriminate|].
      destruct (_ && _ && _) in Hx; [injection Hx as <-; discriminate|].
      discriminate.
    + rewrite length_app. cbn [length]. lia.
Qed.

(** Scenario A, baseline 0 and never a bubble; and a run in which a text
    is seen while the spinner never goes off. *)
Lemma no_text_captured_witness :
  waitForFinalAnswer cfg0 0 0 0 [tick 0 []; tick 30000 []; tick 60000 []]
  = Some {| outcome := Throw no_text_captured; exit := ExitTimeout;
            pollsRun := 2; endAgg := aggOf ([], 0%Z) |}
  /\ option_map outcome
       (waitForFinalAnswer cfg0 0 0 0
          [tick 0 []; tick 30000 [bubble 1 "partial" true];
           tick 60000 [bubble 1 "partial" true]])
     = Some (Ok (lit "partial")).
Proof.
  split.
  - destruct (no_text_captured_iff cfg0 0 0 0
                [tick 0 []; tick 30000 []] (tick 60000 []) [])
      as (r & Hr & _ & Hno & _).
    + repeat constructor.
    + vm_compute. discriminate.
    + cbn [app] in Hr. rewrite Hr, (Hno eq_refl). reflexivity.
  - destruct (no_text_captured_iff cfg0 0 0 0
                [tick 0 []; tick 30000 [bubble 1 "partial" true]]
                (tick 60000 [bubble 1 "partial" true]) [])
      as (r & Hr & _ & _ & _ & Hpart & _).
    + repeat constructor.
    + vm_compute. discriminate.
    + cbn [app] in Hr. rewrite Hr.
      destruct (Hpart eq_refl eq_refl) as [-> _]. reflexivity.
Defined.

(** C7, as the code has it.  In the aggregate capture the first filtered
    text a poll sees, when it has at most 5 code units and the spinning
    indicator is off, is returned on that very poll, whatever [STABLE_MS]
    is; and so is any later text that differs from the recorded one.  The
    streaming capture has no such return: it ends by the stability window
    or the deadline only. *)
Theorem short_reply_aggregate (cfg : Config) (base : nat) (tInit t0 : Z)
        (pre : list Tick) (tk : Tick) (post : list Tick) :
  inTime cfg t0 pre ->
  sawText base pre = false ->
  (now_loop tk - t0 < MAX_ANSWER_MS cfg)%Z ->
  truthy (cleanOf base tk) = true ->
  length (cleanOf base tk) <= 5 ->
  spinning (getBubbleState base (snap tk)) = false ->
  waitForFinalAnswer cfg base tInit t0 (pre ++ tk :: post)
  = Some {| outcome := Ok (cleanOf base tk);
            exit := ExitShort;
            pollsRun := S (length pre);
            endAgg := {| lastText := cleanOf base tk;
                         aggChangeAt := now_change tk;
                         everHadText := true |} |}
  /\ (forall st,
        eqb (cleanOf base tk) (lastText st) = false ->
        snd (finalBody cfg base st tk) = Some (ExitShort, cleanOf base tk))
  /\ (forall fin r,
        readAnswerInChunks cfg base tInit t0 (pre ++ tk :: post) fin = Some r ->
        why (loopEnd r) <> ExitShort).
Proof.
  intros Hpre Hsaw Hin Hc Hlen Hsp. split; [|split].
  - unfold waitForFinalAnswer.
    rewrite (finalLoop_skip cfg base t0 pre Hpre Hsaw) by reflexivity.
    simpl. apply Z.ltb_lt in Hin. rewrite Hin.
    assert (Hne : eqb (cleanOf base tk) [] = false)
      by (destruct (cleanOf base tk); [discriminate|reflexivity]).
    rewrite (finalBody_short cfg base
               {| lastText := []; aggChangeAt := tInit; everHadText := false |}
               tk Hc Hne Hlen Hsp).
    reflexivity.
  - intros st Hne. rewrite (finalBody_short cfg base st tk Hc Hne Hlen Hsp).
    reflexivity.
  - intros fin r. unfold readAnswerInChunks.
    destruct (chunkLoop cfg base t0 0 _ (pre ++ tk :: post)) as [[ds e]|] eqn:Hl;
      [|discriminate].
    intros H; injection H as <-. cbn [loopEnd]. intros Hw.
    destruct (chunkLoop_end cfg base t0 _ _ _ _ _ Hl) as [_ H].
    rewrite Hw in H. exact H.
Qed.

(** C7 as stated fails for the streaming capture: the first poll sees
    ["OK"] with the spinner off and yields it, but the loop goes on, and the
    capture ends two polls later, when [STABLE_MS] has passed. *)
Lemma short_reply_counterexample :
  let ok := [bubble 1 "OK" false] in
  chunkBody cfg0 0 {| last := []; lastChangeAt := 0 |} (tick 0 ok)
  = (Some (lit "OK"), {| last := lit "OK"; lastChangeAt := 0 |}, Continue)
  /\ spinning (getBubbleState 0 (snap (tick 0 ok))) = false
  /\ length (cleanChunk (grabAnswerText 0 (snap (tick 0 ok)))) = 2
  /\ option_map (fun r => (deltas r, why (loopEnd r), polls (loopEnd r)))
       (readAnswerInChunks cfg0 0 0 0
          [tick 0 ok; tick 80 ok; tick 1200 ok] (Some (page ok)))
     = Some ([lit "OK"], ExitStable, 3).
Proof. vm_compute. repeat split. Qed.

Lemma short_reply_witness :
  waitForFinalAnswer cfg0 1 0 0
    ([tick 0 [bubble 1 "old" false]; tick 100 [bubble 1 "old" false]]
     ++ tick 200 [bubble 1 "old" false; bubble 2 "OK" false] :: [])
  = Some {| outcome := Ok (lit "OK");
            exit := ExitShort;
            pollsRun := 3;
            endAgg := {| lastText := lit "OK"; aggChangeAt := 200;
                         everHadText := true |} |}.
Proof.
  refine (proj1 (short_reply_aggregate cfg0 1 0 0
    [tick 0 [bubble 1 "old" false]; tick 100 [bubble 1 "old" false]]
    (tick 200 [bubble 1 "old" false; bubble 2 "OK" false]) []
    _ _ _ _ _ _)).
  - repeat constructor.
  - reflexivity.
  - reflexivity.
  - reflexivity.
  - vm_compute. lia.
  - reflexivity.
Defined.

End AggregateClaims.

(** ** Placeholder texts *)

Section Placeholders.
Import Js Noise Dom Capture Props Script.

Lemma orStr_empty (a : str) : orStr a [] = a.
Proof. destruct a; reflexivity. Qed.

Lemma chunkTail_cases base lastEmitted fin :
  let finalClean := cleanChunk (grabAnswerText base fin) in
  chunkTail base lastEmitted fin
  = if length lastEmitted <? length finalClean
    then [slice (length lastEmitted) finalClean] else [].
Proof.
  unfold chunkTail. rewrite orStr_empty. cbv zeta.
  destruct (Nat.ltb_spec (length lastEmitted)
              (length (cleanChunk (grabAnswerText base fin)))) as [Hlt|Hge].
  - destruct (cleanChunk (grabAnswerText base fin)); [simpl in Hlt; lia|].
    reflexivity.
  - rewrite andb_false_r. reflexivity.
Qed.

(** A text of periods, ellipses and white space only is a placeholder. *)
Lemma isPlaceholderText_dots (t : str) :
  truthy (trim t) = true ->
  forallb dotOrSpace t = true ->
  isPlaceholderText t = true.
Proof.
  intros Ht Hall. unfold isPlaceholderText.
  destruct (truthy t); [|reflexivity]. simpl.
  unfold onlyEllipsisOrSpace. rewrite Ht.
  fold dotOrSpace. rewrite (forallb_trim _ _ Hall). reflexivity.
Qed.

(** A placeholder text is never emitted. *)
Lemma chunkBody_placeholder cfg base st tk :
  isPlaceholderText (cleanChunk (grabAnswerText base (snap tk))) = true ->
  fst (fst (chunkBody cfg base st tk)) = None
  /\ snd (fst (chunkBody cfg base st tk)) = st.
Proof.
  intros Hp. unfold chunkBody.
  destruct (truthy (grabAnswerText base (snap tk))); [|auto].
  rewrite Hp. simpl. rewrite andb_false_r. simpl.
  destruct (_ && _); auto.
Qed.

(** Periods, ellipses and white space only, with a period or an ellipsis
    among them. *)
Lemma onlyEllipsisOrSpace_trim (t : str) :
  onlyEllipsisOrSpace (trim t) = true
  <-> forallb dotOrSpace t = true /\ forallb isSpace t = false.
Proof.
  unfold onlyEllipsisOrSpace. fold dotOrSpace.
  assert (Hsp : forall l, forallb isSpace l = true -> forallb dotOrSpace l = true).
  { intros l H. apply forallb_forall. intros x Hx.
    rewrite forallb_forall in H. unfold dotOrSpace. rewrite (H x Hx).
    apply orb_true_r. }
  split.
  - intros H. apply andb_true_iff in H as [Ht Hall]. split.
    + destruct (trim_split t) as (pre & post & Hs & Hpre & Hpost).
      rewrite Hs, !forallb_app, Hall, (Hsp _ Hpre), (Hsp _ Hpost). reflexivity.
    + destruct (forallb isSpace t) eqn:E; [|reflexivity].
      apply truthy_trim_blank in E. congruence.
  - intros [Hall Hns]. apply andb_true_iff. split.
    + destruct (truthy (trim t)) eqn:E; [reflexivity|].
      apply truthy_trim_blank in E. congruence.
    + apply forallb_trim, Hall.
Qed.

(** What [isPlaceholderText] answers [true] for. *)
Lemma isPlaceholderText_iff (t : str) :
  isPlaceholderText t = true <-> noise t.
Proof.
  unfold isPlaceholderText, noise.
  destruct t as [|c t']; cbn [truthy negb].
  - split; auto.
  - set (t := c :: t'). rewrite orb_true_iff, onlyEllipsisOrSpace_trim.
    rewrite existsb_exists. split.
    + intros [H|(p & Hin & Hp)]; [right; left; exact H|].
      right. right. exists p. split; [exact Hin|]. apply includes_iff, Hp.
    + intros [H|[H|(p & Hin & Hp)]]; [discriminate H | left; exact H|].
      right. exists p. split; [exact Hin|]. apply includes_iff, Hp.
Qed.

(** The polls whose text the streaming loop passes over. *)
Lemma accepted_none (base : nat) (tk : Tick) :
  accepted base tk = None
  <-> grabAnswerText base (snap tk) = []
      \/ noise (cleanChunk (grabAnswerText base (snap tk))).
Proof.
  unfold accepted.
  destruct (grabAnswerText base (snap tk)) as [|c raw'] eqn:Hraw;
    cbn [truthy andb].
  - split; auto.
  - set (cur := cleanChunk (c :: raw')).
    destruct (isPlaceholderText cur) eqn:Hph.
    + rewrite andb_false_r. split; [|reflexivity].
      intros _. right. apply isPlaceholderText_iff, Hph.
    + assert (Hc : truthy cur = true).
      { destruct cur; [discriminate Hph | reflexivity]. }
      rewrite Hc. cbn [negb andb]. split; [discriminate|].
      intros [H|H]; [discriminate H|].
      apply isPlaceholderText_iff in H. congruence.
Qed.

Lemma accepted_some (base : nat) (tk : Tick) (cur : str) :
  accepted base tk = Some cur ->
  cur = cleanChunk (grabAnswerText base (snap tk)).
Proof.
  unfold accepted. destruct (_ && _ && _); [|discriminate].
  intros H. injection H as <-. reflexivity.
Qed.

(** What a poll of the streaming loop yields. *)
Lemma chunkBody_yields cfg base (st : Cap) (tk : Tick) :
  fst (fst (chunkBody cfg base st tk))
  = match accepted base tk with
    | Some cur =>
        if length (last st) <? length cur
        then Some (slice (length (last st)) cur)
        else None
    | None => None
    end.
Proof.
  destruct st as [l c]. change {| last := l; lastChangeAt := c |}
    with (capOf (l, c)).
  rewrite chunkBody_told. cbn [fst capOf last].
  unfold emitsAfter, emitStep. cbn [fst].
  destruct (accepted base tk) as [cur|]; [|reflexivity].
  destruct (length l <? length cur); reflexivity.
Qed.

(** C8, as the code has it.  For the raw texts ["OK"] then ["OK."] the
    filter leaves both as they are, and the stream emits ["OK"] and then
    the delta ["."]: a period after real text is content.  What a poll of
    the loop takes for noise is exactly: no text, a text of periods,
    ellipses and white space, or a text that holds one of the seven
    placeholder phrases.  A poll of the loop emits exactly when it read a
    text, its filtered text is not noise and is longer than the emitted
    text.  The read after the loop makes no such test: it emits whatever
    the filtered text has beyond the emitted length, so a text of periods
    only is emitted there. *)
Theorem placeholder_filtering :
  cleanChunk (lit "OK") = lit "OK"
  /\ cleanChunk (lit "OK.") = lit "OK."
  /\ isPlaceholderText (lit "OK.") = false
  /\ option_map deltas
       (readAnswerInChunks cfg0 0 0 0
          [tick 0 [bubble 1 "OK" false]; tick 80 [bubble 1 "OK." false];
           tick 1280 [bubble 1 "OK." false]]
          (Some (page [bubble 1 "OK." false])))
     = Some [lit "OK"; lit "."]
  /\ (forall t, isPlaceholderText t = true <-> noise t)
  /\ (forall base tk,
        accepted base tk = None
        <-> grabAnswerText base (snap tk) = []
            \/ noise (cleanChunk (grabAnswerText base (snap tk))))
  /\ (forall base tk cur,
        accepted base tk = Some cur ->
        cur = cleanChunk (grabAnswerText base (snap tk)))
  /\ (forall cfg base st tk,
        fst (fst (chunkBody cfg base st tk))
        = match accepted base tk with
          | Some cur =>
              if length (last st) <? length cur
              then Some (slice (length (last st)) cur)
              else None
          | None => None
          end)
  /\ (forall base lastEmitted fin,
        let finalClean := cleanChunk (grabAnswerText base fin) in
        chunkTail base lastEmitted fin
        = if length lastEmitted <? length finalClean
          then [slice (length lastEmitted) finalClean] else [])
  /\ option_map deltas
       (readAnswerInChunks cfg0 0 0 0
          [tick 0 [bubble 1 "OK" false]; tick 80 [bubble 1 "..." false];
           tick 1280 [bubble 1 "..." false]]
          (Some (page [bubble 1 "..." false])))
     = Some [lit "OK"; lit "."]
  /\ option_map deltas
       (readAnswerInChunks cfg0 0 0 0
          [tick 0 [bubble 1 "..." false]; tick 60000 [bubble 1 "..." false]]
          (Some (page [bubble 1 "..." false])))
     = Some [lit "..."].
Proof.
  split; [reflexivity|]. split; [reflexivity|]. split; [reflexivity|].
  split; [vm_compute; reflexivity|].
  split; [exact isPlaceholderText_iff|].
  split; [exact accepted_none|].
  split; [exact accepted_some|].
  split; [exact chunkBody_yields|].
  split; [exact chunkTail_cases|].
  split; vm_compute; reflexivity.
Qed.

(** C8 as stated fails: ["OK."] is not reduced to ["OK"], and the second
    poll emits the period. *)
Lemma placeholder_filtering_counterexample :
  eqb (cleanChunk (lit "OK.")) (lit "OK") = false
  /\ isPlaceholderText (cleanChunk (lit "OK.")) = false
  /\ chunkBody cfg0 0 {| last := lit "OK"; lastChangeAt := 0 |}
       (tick 80 [bubble 1 "OK." false])
     = (Some (lit "."), {| last := lit "OK."; lastChangeAt := 80 |}, Continue).
Proof. vm_compute. repeat split. Qed.

End Placeholders.

(** ** The driver: an unconfirmed injection *)

Section DriverFacts.
Import Js Driver.

Variable S : Surface.

Lemma quietly_ret {A} (a : A) (Q : A -> Prop) E :
  Q a -> quietly S (ret a) Q E.
Proof. intros Hq h Hh. simpl. auto. Qed.

Lemma quietly_throw {A} (e : str) (Q : A -> Prop) (E : str -> Prop) :
  E e -> quietly S (throw e) Q E.
Proof. intros He h Hh. simpl. auto. Qed.

Lemma quietly_bind {A B} (m : M A) (k : A -> M B) Q1 Q2 E :
  quietly S m Q1 E ->
  (forall a, Q1 a -> quietly S (k a) Q2 E) ->
  quietly S (bind m k) Q2 E.
Proof.
  intros Hm Hk h Hh. unfold bind. specialize (Hm h Hh).
  destruct (m S h) as [[a|e] h']; destruct Hm as [Hu Hq].
  - apply (Hk a Hq h' Hu).
  - auto.
Qed.

Lemma quietly_catch {A} (m : M A) (k : str -> M A) Q E1 E :
  quietly S m Q E1 ->
  (forall e, E1 e -> quietly S (k e) Q E) ->
  quietly S (catch m k) Q E.
Proof.
  intros Hm Hk h Hh. unfold catch. specialize (Hm h Hh).
  destruct (m S h) as [[a|e] h']; destruct Hm as [Hu Hq].
  - auto.
  - apply (Hk e Hq h' Hu).
Qed.

Lemma quietly_weaken {A} (m : M A) (Q Q' : A -> Prop) (E E' : str -> Prop) :
  quietly S m Q E ->
  (forall a, Q a -> Q' a) -> (forall e, E e -> E' e) ->
  quietly S m Q' E'.
Proof.
  intros Hm HQ HE h Hh. specialize (Hm h Hh).
  destruct (m S h) as [[a|e] h']; destruct Hm; auto.
Qed.

Lemma quietly_call (op : Op) :
  isCommit op = false ->
  quietly S (call op) (fun b => exists h, reply S h op = Ok b) (fromPage S).
Proof.
  intros Hop h Hh. unfold call.
  assert (Hu : uncommitted (op :: h)).
  { unfold uncommitted in *. simpl. rewrite Hop, Hh. reflexivity. }
  destruct (reply S h op) as [b|e] eqn:Hr; split; auto.
  - exists h. exact Hr.
  - exists h, op. exact Hr.
Qed.

(** A call awaited outside every [try]: what it rejects with leaves the
    function. *)
Lemma quietly_call_unguarded (op : Op) :
  isCommit op = false -> isUnguarded op = true ->
  quietly S (call op) (fun _ => True) (rejected S).
Proof.
  intros Hop Hun h Hh. unfold call.
  assert (Hu : uncommitted (op :: h)).
  { unfold uncommitted in *. simpl. rewrite Hop, Hh. reflexivity. }
  destruct (reply S h op) as [b|e] eqn:Hr; split; auto.
  exists h, op. auto.
Qed.

(** A call whose answer is not looked at. *)
Lemma quietly_call_any (op : Op) :
  isCommit op = false ->
  quietly S (call op) (fun _ => True) (fromPage S).
Proof.
  intros Hop. eapply quietly_weaken; [apply quietly_call, Hop| |]; auto.
Qed.

Lemma quietly_quiet {A} (m : M A) (E : str -> Prop) :
  quietly S m (fun _ => True) (fromPage S) ->
  quietly S (quiet m) (fun _ => True) E.
Proof.
  intros Hm. unfold quiet. eapply quietly_catch.
  - eapply quietly_bind; [exact Hm|]. intros a _. apply quietly_ret. exact I.
  - intros e _. apply quietly_ret. exact I.
Qed.

Lemma quietly_orFalse (m : M bool) (Q : bool -> Prop) (E : str -> Prop) :
  quietly S m Q (fromPage S) -> Q false ->
  quietly S (orFalse m) Q E.
Proof.
  intros Hm Hf. unfold orFalse. eapply quietly_catch; [exact Hm|].
  intros e _. apply quietly_ret, Hf.
Qed.

Lemma quietly_seq {A B} (m : M A) (k : M B) Q E :
  quietly S m (fun _ => True) E ->
  quietly S k Q E ->
  quietly S (bind m (fun _ => k)) Q E.
Proof. intros Hm Hk. eapply quietly_bind; [exact Hm|]. intros _ _. exact Hk. Qed.

Lemma quietly_when (b : bool) (m : M unit) E :
  quietly S m (fun _ => True) E ->
  quietly S (when b m) (fun _ => True) E.
Proof. intros Hm. destruct b; simpl; [exact Hm|]. apply quietly_ret. exact I. Qed.

Lemma quietly_box (sel : Sel) E :
  quietly S (orFalse (call (BoxOf sel))) (fun _ => True) E.
Proof.
  apply quietly_orFalse; [|exact I]. apply quietly_call_any. reflexivity.
Qed.

Lemma quietly_focusIntoEditable (sel : Sel) :
  quietly S (focusIntoEditable sel) (fun _ => True) (fromPage S).
Proof.
  unfold focusIntoEditable.
  eapply quietly_bind; [apply quietly_box|]. intros box _.
  apply quietly_seq.
  - apply quietly_when, quietly_seq;
      [apply quietly_call_any; reflexivity | apply quietly_ret; exact I].
  - apply quietly_quiet, quietly_call_any. reflexivity.
Qed.

Lemma quietly_focusAndClear (sel : Sel) :
  quietly S (focusAndClear sel) (fun _ => True) (rejected S).
Proof.
  unfold focusAndClear.
  eapply quietly_bind; [apply quietly_box|]. intros box _.
  apply quietly_seq.
  { apply quietly_when, quietly_seq;
      [apply quietly_call_unguarded; reflexivity | apply quietly_ret; exact I]. }
  repeat (apply quietly_seq;
          [apply quietly_quiet, quietly_call_any; reflexivity|]).
  apply quietly_quiet, quietly_call_any. reflexivity.
Qed.

Hypothesis Hunverified : unverified S.

(** A post-condition check, behind its [.catch(() => false)]. *)
Lemma quietly_postcondition (op : Op) E :
  isPostCondition op = true ->
  quietly S (orFalse (call op)) (fun b => b = false) E.
Proof.
  intros Hop. apply quietly_orFalse; [|reflexivity].
  eapply quietly_weaken;
    [apply quietly_call; destruct op; try reflexivity; discriminate| |auto].
  intros b [h Hr]. destruct b; [|reflexivity].
  exfalso. apply (Hunverified h op Hop Hr).
Qed.

Lemma quietly_okAfter cfg sel expected verifyMs sendMs :
  quietly S (okAfter cfg sel expected verifyMs sendMs)
          (fun b => b = false) (fromPage S).
Proof.
  unfold okAfter, verifyInputMatches, isSendButtonReady, hasInputText.
  apply quietly_seq; [apply quietly_call_any; reflexivity|].
  apply quietly_seq.
  { apply quietly_quiet, quietly_seq; apply quietly_call_any; reflexivity. }
  eapply quietly_bind; [apply quietly_postcondition; reflexivity|].
  intros v ->.
  eapply quietly_bind; [apply quietly_postcondition; reflexivity|].
  intros r ->.
  eapply quietly_bind; [apply quietly_postcondition; reflexivity|].
  intros t ->. apply quietly_ret. reflexivity.
Qed.

Lemma quietly_strategyA cfg sel expected E :
  quietly S (strategyA cfg sel expected) (fun b => b = false) E.
Proof.
  unfold strategyA. eapply quietly_catch.
  - eapply quietly_bind; [apply quietly_call; reflexivity|].
    intros ok _. destruct ok; [apply quietly_okAfter|].
    apply quietly_ret. reflexivity.
  - intros e _. apply quietly_ret. reflexivity.
Qed.

Lemma quietly_strategyB cfg sel expected E :
  quietly S (strategyB cfg sel expected) (fun b => b = false) E.
Proof.
  unfold strategyB. eapply quietly_catch.
  - apply quietly_seq; [apply quietly_call_any; reflexivity|].
    repeat (apply quietly_seq;
            [apply quietly_quiet, quietly_call_any; reflexivity|]).
    apply quietly_okAfter.
  - intros e _. apply quietly_ret. reflexivity.
Qed.

Lemma quietly_strategyC cfg sel expected E :
  quietly S (strategyC cfg sel expected) (fun b => b = false) E.
Proof.
  unfold strategyC. eapply quietly_catch.
  - apply quietly_seq; [apply quietly_call_any; reflexivity|].
    apply quietly_okAfter.
  - intros e _. eapply quietly_catch.
    + apply quietly_seq; [apply quietly_call_any; reflexivity|].
      apply quietly_okAfter.
    + intros e' _. apply quietly_ret. reflexivity.
Qed.

(** With no post-condition confirmed, [setInputFast] cannot return
    [true]. *)
Lemma quietly_setInputFast cfg sel text :
  quietly S (setInputFast cfg sel text) (fun b => b = false) (rejected S).
Proof.
  unfold setInputFast, setInputFastWith.
  apply quietly_seq; [apply quietly_focusAndClear|].
  eapply quietly_bind; [apply quietly_strategyA|]. intros a ->.
  apply quietly_seq; [apply quietly_focusAndClear|].
  eapply quietly_bind; [apply quietly_strategyB|]. intros b ->.
  apply quietly_seq; [apply quietly_focusAndClear|].
  eapply quietly_bind; [apply quietly_strategyC|]. intros c ->.
  apply quietly_postcondition. reflexivity.
Qed.

Lemma quietly_submitPrompt cfg prompt :
  quietly S (submitPrompt cfg prompt) (fun _ => False) (injectionFailure S).
Proof.
  unfold submitPrompt.
  apply quietly_seq.
  { eapply quietly_weaken;
      [apply quietly_call_unguarded; reflexivity|auto|].
    intros e He. right. right. exact He. }
  eapply quietly_bind.
  { instantiate (1 := fun o => exists h, picked S h = o).
    intros h Hh. unfold pickActiveInput. split; [|eauto].
    unfold uncommitted in *. simpl. exact Hh. }
  intros [sel|] Hpick.
  2:{ apply quietly_throw. right. left. split; [reflexivity|exact Hpick]. }
  eapply quietly_bind.
  { instantiate (1 := fun _ => True).
    intros h Hh. unfold countAnswerRoots. split; [|exact I].
    unfold uncommitted in *. simpl. exact Hh. }
  intros beforeCount _.
  eapply quietly_bind.
  { eapply quietly_weaken; [apply quietly_setInputFast| |].
    - intros a Ha. exact Ha.
    - intros e He. right. right. exact He. }
  intros ok ->. simpl. apply quietly_throw. left. reflexivity.
Qed.

End DriverFacts.

Section SubmissionClaims.
Import Js Driver Script.



(** For comparison: when the injection is confirmed but no reply starts,
    [submitPrompt] throws [submit_not_started] after having committed. *)
Example submit_not_started_after_commit :
  let S := constantPage isPostCondition 0 in
  exists h,
    submitPrompt cfg0 (lit "hi") S [] = (Throw submit_not_started, h)
    /\ existsb isCommit h = true.
Proof. eexists. vm_compute. split; reflexivity. Qed.

End SubmissionClaims.

(** ** The single-flight gate *)

Section GateClaims.
Import Js Json Dom Capture Driver Http Script.

Lemma accepted_holds (g : Gate) (id : nat) :
  busy g = false ->
  snd (step g (Arrive id)) = Some Accepted
  /\ busy (fst (step g (Arrive id))) = true
  /\ holds id (fst (step g (Arrive id))) = true.
Proof.
  intros Hb. unfold step. rewrite Hb. cbn [fst snd busy].
  unfold holds, registered. simpl. rewrite Nat.eqb_refl. auto.
Qed.

Lemma release_frees (g : Gate) (holder : nat) (e : Event) :
  holds holder g = true ->
  releases holder e = true ->
  busy (fst (step g e)) = false.
Proof.
  unfold holds. intros Hh Hr.
  apply andb_true_iff in Hh as [Hh Hf]. apply andb_true_iff in Hh as [Hw Hc].
  destruct e as [x|x|x|x]; simpl in Hr; try discriminate;
    apply Nat.eqb_eq in Hr; subst x; simpl.
  - rewrite Hf. reflexivity.
  - rewrite Hc. reflexivity.
  - rewrite Hw. reflexivity.
Qed.

(** What the handler answers once admitted is never the busy answer. *)
Lemma serve_not_busy cfg B opts body w s :
  serve cfg B opts body w = Some s -> response s <> busyResponse.
Proof.
  assert (E : forall e, errorResponse e <> busyResponse).
  { intros e H. unfold errorResponse, busyResponse in H.
    injection H as H _. discriminate H. }
  unfold serve.
  destruct (maybeSanitizeKiloBody cfg B opts body) as [[[sb ch] rs]|e].
  2:{ intros H; injection H as <-. apply E. }
  destruct (truthy (toPrompt B sb)); cbn [negb].
  2:{ intros H; injection H as <-. cbn [response]. unfold busyResponse.
      intros H. injection H as H _. discriminate H. }
  unfold respond.
  destruct ((ensureBrowser ;;; submitPrompt cfg (toPrompt B sb))%driver
              (surface w) []) as [[baseline|e] h].
  2:{ intros H; injection H as <-. apply E. }
  destruct (wantStream sb).
  - destruct (readAnswerInChunks cfg baseline (tInit w) (t0 w) (ticks w)
                (finalSnap w)); [|discriminate].
    intros H; injection H as <-. discriminate.
  - destruct (waitForFinalAnswer cfg baseline (tInit w) (t0 w) (ticks w))
      as [run|]; [|discriminate].
    destruct (outcome run).
    + intros H; injection H as <-. cbn [response]. unfold busyResponse.
      intros H. injection H as H _. discriminate H.
    + intros H; injection H as <-. apply E.
Qed.

(** On a free gate the handler takes the gate and goes on to serve the
    request. *)
Lemma free_gate_serves cfg B opts (g : Gate) (id : nat) body w :
  busy g = false ->
  chatCompletions cfg B opts g id body w
  = (fst (step g (Arrive id)), serve cfg B opts body w).
Proof.
  intros Hb. unfold chatCompletions, step. rewrite Hb. reflexivity.
Qed.

(** C6. While [busy] is set, a request that arrives is answered at once
    with status 429 and the busy error object; the gate is left as it was,
    so nothing is kept of the request, and the handler goes no further.
    Once the request in flight releases the gate (its response finishes or
    closes, or its watchdog fires), a request that arrives is admitted:
    the handler takes the gate for it and answers with what serving the
    request gives, which is never the busy answer. *)
Theorem single_flight_busy (g : Gate) (id : nat) :
  busy g = true ->
  step g (Arrive id) = (g, Some (Rejected busyResponse))
  /\ busyResponse
     = RespJson 429
         (JObj [(lit "error",
                 JObj [(lit "message",
                        JStr (lit "busy: single-flight in progress"))])])
  /\ (forall cfg B opts body w,
        chatCompletions cfg B opts g id body w
        = (g, Some {| kiloSanitize := None; kiloSanitizeReason := None;
                      response := busyResponse |}))
  /\ (forall holder e retry,
        holds holder g = true ->
        releases holder e = true ->
        busy (fst (step g e)) = false
        /\ snd (step (fst (step g e)) (Arrive retry)) = Some Accepted
        /\ busy (fst (step (fst (step g e)) (Arrive retry))) = true
        /\ holds retry (fst (step (fst (step g e)) (Arrive retry))) = true
        /\ forall cfg B opts body w,
             chatCompletions cfg B opts (fst (step g e)) retry body w
             = (fst (step (fst (step g e)) (Arrive retry)),
                serve cfg B opts body w)
             /\ forall s,
                  snd (chatCompletions cfg B opts (fst (step g e)) retry body w)
                  = Some s ->
                  response s <> busyResponse).
Proof.
  intros Hb.
  assert (Hstep : step g (Arrive id) = (g, Some (Rejected busyResponse))).
  { unfold step. rewrite Hb. reflexivity. }
  split; [exact Hstep|]. split; [reflexivity|]. split.
  - intros cfg B opts body w. unfold chatCompletions. rewrite Hstep.
    reflexivity.
  - intros holder e retry Hh Hr.
    pose proof (release_frees g holder e Hh Hr) as Hfree.
    destruct (accepted_holds _ retry Hfree) as (Ha & Hbusy & Hholds).
    split; [exact Hfree|]. split; [exact Ha|]. split; [exact Hbusy|].
    split; [exact Hholds|].
    intros cfg B opts body w.
    rewrite (free_gate_serves cfg B opts _ retry body w Hfree).
    split; [reflexivity|]. cbn [snd]. apply serve_not_busy.
Qed.

(** Scenario D: the second request meets the first in flight, and is
    served when it comes again after the first has finished. *)
Lemma single_flight_witness :
  let g := fst (step idle (Arrive 1)) in
  let ok := [bubble 1 "OK" false] in
  let w := {| surface := Driver.constantPage (fun _ => true) 0;
              tInit := 0; t0 := 0;
              ticks := [tick 0 ok; tick 80 ok; tick 1200 ok];
              finalSnap := Some (page ok) |} in
  busy g = true
  /\ step g (Arrive 2) = (g, Some (Rejected busyResponse))
  /\ snd (runEvents idle [Arrive 1; Arrive 2; Finish 1; Arrive 2])
     = [Some Accepted; Some (Rejected busyResponse); None; Some Accepted]
  /\ option_map response
       (snd (chatCompletions cfg0 host0 opts0 (fst (step g (Finish 1))) 2
               (chat "hello" []) w))
     = Some (RespSse [SseChunk (lit "OK"); SseStop; SseDone]).
Proof.
  intros g ok w.
  split; [reflexivity|].
  destruct (single_flight_busy (fst (step idle (Arrive 1))) 2 eq_refl)
    as (Hrej & _ & _ & Hretry).
  split; [exact Hrej|]. split; [reflexivity|].
  destruct (Hretry 1 (Finish 1) 2 eq_refl eq_refl) as (_ & _ & _ & _ & Hserve).
  destruct (Hserve cfg0 host0 opts0 (chat "hello" []) w) as [-> _].
  vm_compute. reflexivity.
Defined.

End GateClaims.

(** ** The sanitizer and the stream flag *)

Section RequestClaims.
Import Js Json Sanitizer Http Script.

Lemma assoc_filter_other (k d : str) (fs : list (str * value)) :
  eqb d k = false ->
  assoc k (filter (fun kv => negb (eqb (fst kv) d)) fs) = assoc k fs.
Proof.
  intros Hne. induction fs as [|[k1 v] fs IH]; simpl; [reflexivity|].
  destruct (eqb k1 d) eqn:Hd; simpl.
  - apply eqb_spec in Hd. subst k1. rewrite Hne. exact IH.
  - rewrite IH. reflexivity.
Qed.

Lemma assoc_delete_other (k : string) (k' : str) fs :
  eqb (lit k) k' = false -> assoc k' (delete k fs) = assoc k' fs.
Proof. apply assoc_filter_other. Qed.

Lemma assoc_app_other (k d : str) (v : value) fs :
  eqb d k = false -> assoc k (fs ++ [(d, v)]) = assoc k fs.
Proof.
  intros Hne. induction fs as [|[k1 v1] fs IH]; simpl.
  - rewrite Hne. reflexivity.
  - rewrite IH. reflexivity.
Qed.

Lemma assoc_set_other (k : string) (k' : str) (v : value) fs :
  eqb (lit k) k' = false -> assoc k' (set k v fs) = assoc k' fs.
Proof.
  intros Hne. unfold set. destruct (hasKey k fs).
  - induction fs as [|[k1 v1] fs IH]; simpl; [reflexivity|].
    destruct (eqb k1 (lit k)) eqn:Hd; simpl.
    + apply eqb_spec in Hd. subst k1. rewrite Hne. exact IH.
    + rewrite IH. reflexivity.
  - apply assoc_app_other, Hne.
Qed.

Lemma assoc_set_same (k : string) (v : value) fs :
  assoc (lit k) (set k v fs) = Some v.
Proof.
  unfold set. destruct (hasKey k fs) eqn:Hk.
  - unfold hasKey in Hk.
    induction fs as [|[k1 v1] fs IH]; simpl in *; [discriminate|].
    destruct (eqb k1 (lit k)) eqn:Hd; simpl.
    + rewrite Hd. reflexivity.
    + rewrite Hd. apply IH, Hk.
  - unfold hasKey in Hk.
    induction fs as [|[k1 v1] fs IH]; simpl in *.
    + rewrite eqb_refl. reflexivity.
    + destruct (eqb k1 (lit k)); [discriminate|]. apply IH, Hk.
Qed.

Lemma assoc_prune_allowed (k : str) fs :
  existsb (eqb k) allowedTop = true ->
  assoc k (pruneTopFields fs) = assoc k fs.
Proof.
  intros Hal. unfold pruneTopFields.
  induction fs as [|[k1 v1] fs IH]; [reflexivity|].
  cbn [filter fst].
  destruct (existsb (eqb k1) allowedTop) eqn:H1; cbn [assoc].
  - rewrite IH. reflexivity.
  - destruct (eqb k1 k) eqn:Hk; [|exact IH].
    apply eqb_spec in Hk. subst k1. congruence.
Qed.

(** A Kilo request is an object. *)
Lemma isKiloRequest_object (payload : value) :
  isKiloRequest payload = true -> exists fs, payload = JObj fs.
Proof.
  destruct payload; try (intros H; discriminate H). eauto.
Qed.

(** The fields each stage of the sanitizer leaves alone. *)
Lemma rebuildStage_assoc B fs opts d (k : str) :
  rebuildStage B (JObj fs) opts = Ok d ->
  eqb (lit "messages") k = false ->
  assoc k (fst (fst d)) = assoc k fs.
Proof.
  unfold rebuildStage. cbn [spread]. intros H Hk.
  destruct (eqb (mode opts) (lit "tools-minimal")).
  { destruct (Rules.rebuildMessages _ _ _ _ _); [|discriminate].
    injection H as <-. cbn [fst]. apply assoc_set_other, Hk. }
  destruct (eqb (mode opts) (lit "tools-off")).
  { destruct (Rules.rebuildMessages _ _ _ _ _); [|discriminate].
    injection H as <-. cbn [fst]. apply assoc_set_other, Hk. }
  injection H as <-. reflexivity.
Qed.

Lemma streamOptionsStage_assoc opts (d : Draft) (k : str) :
  eqb (lit "stream_options") k = false ->
  assoc k (fst (fst (streamOptionsStage opts d))) = assoc k (fst (fst d)).
Proof.
  intros Hk. destruct d as [[next chg] rsn]. unfold streamOptionsStage.
  destruct (_ && _); cbn [fst]; [apply assoc_delete_other, Hk | reflexivity].
Qed.

Lemma modelStage_assoc block (d : Draft) (k : str) :
  eqb (lit "model") k = false ->
  assoc k (fst (fst (modelStage block d))) = assoc k (fst (fst d)).
Proof.
  intros Hk. destruct d as [[next chg] rsn]. unfold modelStage.
  destruct (_ && _); cbn [fst]; [apply assoc_delete_other, Hk | reflexivity].
Qed.

Lemma pruneStage_assoc opts (d : Draft) (k : str) :
  stripUnknownTopFields opts = false \/ existsb (eqb k) allowedTop = true ->
  assoc k (fst (fst (pruneStage opts d))) = assoc k (fst (fst d)).
Proof.
  intros Hk. destruct d as [[next chg] rsn]. unfold pruneStage.
  destruct (stripUnknownTopFields opts); cbn [fst]; [|reflexivity].
  destruct Hk as [Hk|Hk]; [discriminate|]. apply assoc_prune_allowed, Hk.
Qed.

(** The result of the sanitizer on a Kilo request, stage by stage. *)
Lemma sanitize_kilo B fs opts s :
  isKiloRequest (JObj fs) = true ->
  sanitizeKiloRequest B (JObj fs) opts = Ok s ->
  exists d1 block,
    rebuildStage B (JObj fs) opts = Ok d1
    /\ modelTest B opts (streamOptionsStage opts d1) = Ok block
    /\ let d := pruneStage opts (modelStage block (streamOptionsStage opts d1)) in
       s = {| json := JObj (fst (fst d)); changed := snd (fst d);
              reason := trim (snd d);
              bytesBefore := stringifyBytes B (JObj fs);
              bytesAfter := stringifyBytes B (JObj (fst (fst d))) |}.
Proof.
  intros Hk. unfold sanitizeKiloRequest. rewrite Hk. cbn [negb].
  destruct (rebuildStage B (JObj fs) opts) as [d1|e]; [|discriminate].
  destruct (modelTest B opts (streamOptionsStage opts d1)) as [block|e] eqn:Hb;
    [|discriminate].
  destruct (pruneStage opts (modelStage block (streamOptionsStage opts d1)))
    as [[next chg] rsn] eqn:Hd.
  intros H; injection H as <-. exists d1, block.
  split; [reflexivity|]. split; [exact Hb|]. rewrite Hd. reflexivity.
Qed.

(** The sanitizer leaves the [stream] field of the request alone. *)
Lemma sanitize_keeps_stream B payload opts s :
  sanitizeKiloRequest B payload opts = Ok s ->
  prop "stream" (json s) = prop "stream" payload.
Proof.
  destruct (isKiloRequest payload) eqn:Hk.
  - destruct (isKiloRequest_object _ Hk) as [fs ->]. intros H.
    destruct (sanitize_kilo B fs opts s Hk H) as (d1 & block & H1 & _ & ->).
    cbn [json prop].
    rewrite pruneStage_assoc by (right; reflexivity).
    rewrite modelStage_assoc, streamOptionsStage_assoc by reflexivity.
    apply (rebuildStage_assoc B fs opts d1 _ H1). reflexivity.
  - unfold sanitizeKiloRequest. rewrite Hk. cbn [negb].
    intros H; injection H as <-. reflexivity.
Qed.

Lemma maybeSanitize_keeps_stream cfg B opts body sb ch rs :
  maybeSanitizeKiloBody cfg B opts body = Ok (sb, ch, rs) ->
  prop "stream" sb = prop "stream" body.
Proof.
  unfold maybeSanitizeKiloBody. destruct (SAN_ON cfg); cbn [negb].
  - destruct (sanitizeKiloRequest B body opts) as [s|e] eqn:Hs; [|discriminate].
    intros H; injection H as <- _ _. apply (sanitize_keeps_stream _ _ _ _ Hs).
  - intros H; injection H as <- _ _. reflexivity.
Qed.

End RequestClaims.

Section StreamClaims.
Import Js Json Sanitizer Dom Capture Driver Http Script.

Lemma wantStream_default (body : value) :
  (forall b, prop "stream" body <> Some (JBool b)) -> wantStream body = true.
Proof.
  intros H. unfold wantStream.
  destruct (prop "stream" body) as [[| b | | | |]|]; try reflexivity.
  exfalso. apply (H b). reflexivity.
Qed.



(** With [stream: false] the same request gets the aggregate answer. *)
Example explicit_aggregate :
  let body := chat "hello" [(lit "stream", JBool false)] in
  let ok := [bubble 1 "OK" false] in
  let w := {| surface := constantPage (fun _ => true) 0;
              tInit := 0; t0 := 0;
              ticks := [tick 0 ok];
              finalSnap := None |} in
  option_map response (serve cfg0 host0 opts0 body w)
  = Some (RespJson 200 (completionBody (lit "OK"))).
Proof. vm_compute. reflexivity. Qed.

(** A Kilo request without a [stream] field whose last user message holds
    an array of parts: the sanitizer throws and the answer is the 502
    error object, with no [X-KiloSanitize] header. *)
Example parts_content_is_502 :
  let body :=
    JObj [ (lit "messages",
             JArr [ JObj [ (lit "role", JStr (lit "system"));
                           (lit "content", JStr (lit "You are Kilo Code")) ];
                    JObj [ (lit "role", JStr (lit "user"));
                           (lit "content",
                             JArr [ JObj [ (lit "type", JStr (lit "text"));
                                           (lit "text", JStr (lit "hi")) ] ]) ] ]) ] in
  forall w,
    serve cfg0 host0 opts0 body w
    = Some {| kiloSanitize := None; kiloSanitizeReason := None;
              response := RespJson 502 (errorBody "proxy_error") |}.
Proof. intros body w. vm_compute. reflexivity. Qed.

(** C10. For a payload that [isKiloRequest] does not recognise, the
    sanitizer returns the payload itself, with [changed] false, the reason
    [passthrough] and [bytesAfter] equal to [bytesBefore]; the handler then
    goes on with the body it received. *)
Theorem sanitizer_passthrough (B : Builtins) (payload : value)
        (opts : Options) :
  isKiloRequest payload = false ->
  sanitizeKiloRequest B payload opts
  = Ok {| json := payload; changed := false; reason := lit "passthrough";
          bytesBefore := stringifyBytes B payload;
          bytesAfter := stringifyBytes B payload |}
  /\ (forall s,
        sanitizeKiloRequest B payload opts = Ok s ->
        bytesAfter s = bytesBefore s)
  /\ (forall cfg,
        maybeSanitizeKiloBody cfg B opts payload
        = Ok (payload, false,
              if SAN_ON cfg then Some (lit "passthrough") else None)).
Proof.
  intros Hk.
  assert (H : sanitizeKiloRequest B payload opts
              = Ok {| json := payload; changed := false;
                      reason := lit "passthrough";
                      bytesBefore := stringifyBytes B payload;
                      bytesAfter := stringifyBytes B payload |}).
  { unfold sanitizeKiloRequest. rewrite Hk. reflexivity. }
  split; [exact H|]. split.
  - intros s Hs. rewrite H in Hs. injection Hs as <-. reflexivity.
  - intros cfg. unfold maybeSanitizeKiloBody.
    destruct (SAN_ON cfg); cbn [negb]; [rewrite H|]; reflexivity.
Qed.

Lemma sanitizer_passthrough_witness :
  let payload := chat "hello" [(lit "model", JStr (lit "gemini-webui"));
                               (lit "stream_options", JObj [])] in
  isKiloRequest payload = false
  /\ sanitizeKiloRequest host0 payload opts0
     = Ok {| json := payload; changed := false; reason := lit "passthrough";
             bytesBefore := 0; bytesAfter := 0 |}.
Proof.
  intros payload.
  assert (Hk : isKiloRequest payload = false) by reflexivity.
  split; [exact Hk|].
  destruct (sanitizer_passthrough host0 payload opts0 Hk) as (H & _).
  exact H.
Defined.

(** For comparison: a Kilo request is rewritten. *)
Example kilo_request_rewritten :
  let payload := chat "You are Kilo Code" [(lit "model", JStr (lit "x"));
                                           (lit "stream", JBool true)] in
  isKiloRequest payload = true
  /\ exists s,
       sanitizeKiloRequest host0 payload opts0 = Ok s
       /\ changed s = true
       /\ reason s = lit "tools-minimal +strip-model"
       /\ prop "model" (json s) = None
       /\ prop "stream" (json s) = Some (JBool true).
Proof. split; [reflexivity|]. eexists. vm_compute. repeat split. Qed.

End StreamClaims.

(** ** The noise filter on sample texts *)

Example cleanChunk_typing :
  Noise.cleanChunk (Js.lit "gemini IS typing Hi") = Js.lit "Hi".
Proof. reflexivity. Qed.

Example cleanChunk_inside_word :
  Noise.cleanChunk (Js.lit "xGemini replied") = Js.lit "xGemini replied".
Proof. reflexivity. Qed.

Example isPlaceholderText_dots_only :
  Noise.isPlaceholderText (Js.lit " ... ") = true.
Proof. reflexivity. Qed.

(** Scenario B: baseline 2, the third bubble shows ["Hel"], then ["Hello"],
    then stays: the stream is ["Hel"], ["lo"] and the aggregate is
    ["Hello"]. *)
Example scenario_B :
  let old := [Script.bubble 1 "a" false; Script.bubble 2 "b" false] in
  let ticks :=
    [Script.tick 0 old;
     Script.tick 80 (old ++ [Script.bubble 3 "Hel" true]);
     Script.tick 160 (old ++ [Script.bubble 3 "Hello" true]);
     Script.tick 1000 (old ++ [Script.bubble 3 "Hello" false]);
     Script.tick 1360 (old ++ [Script.bubble 3 "Hello" false])] in
  option_map Capture.deltas
    (Capture.readAnswerInChunks Script.cfg0 2 0 0 ticks
       (Some (Script.page (old ++ [Script.bubble 3 "Hello" false]))))
  = Some [Js.lit "Hel"; Js.lit "lo"]
  /\ option_map Capture.outcome
       (Capture.waitForFinalAnswer Script.cfg0 2 0 0 ticks)
     = Some (Ok (Js.lit "Hello")).
Proof. vm_compute. split; reflexivity. Qed.

(* ================================================================== *)
(** * Further properties of the capture *)
(* ================================================================== *)

Section CaptureMore.
Import Js Noise Dom Capture Props Script.

Lemma chunkLoop_nonempty cfg base t0 ticks :
  forall n st ds e,
    chunkLoop cfg base t0 n st ticks = Some (ds, e) ->
    Forall (fun d => truthy d = true) ds.
Proof.
  induction ticks as [|tk rest IH]; intros n st ds e; simpl; [discriminate|].
  destruct (now_loop tk - t0 <? MAX_ANSWER_MS cfg)%Z.
  2:{ intros H; injection H as <- <-. constructor. }
  destruct (chunkBody cfg base st tk) as [[d st'] nx] eqn:Hb.
  pose proof (chunkBody_emit _ _ _ _ _ _ _ Hb) as Hd.
  assert (Hhd : forall l, Forall (fun d => truthy d = true) l ->
                          Forall (fun d => truthy d = true) (emit d l)).
  { intros l Hl. destruct d as [x|]; simpl; [|exact Hl].
    constructor; [|exact Hl]. apply Hd. }
  destruct nx.
  - destruct (chunkLoop cfg base t0 (S n) st' rest) as [[ds' e']|] eqn:Hl;
      [|discriminate].
    intros H; injection H as <- <-. apply Hhd, (IH _ _ _ _ Hl).
  - intros H; injection H as <- <-. apply Hhd. constructor.
Qed.

(** X1. The streaming capture never yields an empty delta, neither from
    its loop nor from the read after it. *)
Theorem deltas_never_empty (cfg : Config) (base : nat) (tInit t0 : Z)
        (ticks : list Tick) (fin : option Page) (r : StreamRun) :
  readAnswerInChunks cfg base tInit t0 ticks fin = Some r ->
  Forall (fun d => truthy d = true) (deltas r).
Proof.
  unfold readAnswerInChunks.
  destruct (chunkLoop cfg base t0 0 _ ticks) as [[ds e]|] eqn:Hl;
    [|discriminate].
  intros H; injection H as <-. cbn [deltas].
  apply Forall_app. split; [apply (chunkLoop_nonempty _ _ _ _ _ _ _ _ Hl)|].
  rewrite chunkTail_cases. cbv zeta.
  destruct (Nat.ltb_spec (length (last (endCap e)))
              (length (cleanChunk (grabAnswerText base fin)))) as [Hlt|Hge];
    constructor; [|constructor].
  apply truthy_length. unfold slice. rewrite length_skipn. lia.
Qed.

Lemma deltas_never_empty_witness :
  Forall (fun d => truthy d = true) [lit "Hel"; lit "lo"; lit "!"].
Proof.
  exact (deltas_never_empty cfg0 0 0 0
    [tick 0 [bubble 1 "Hel" true]; tick 80 [bubble 1 "Hello" true];
     tick 1280 [bubble 1 "Hello" true]]
    (Some (page [bubble 1 "Hello!" false])) _ eq_refl).
Defined.

(** X2. The text a streaming client has received in the end has the
    length of the longer of the emitted text and the text of the last
    read; and when every accepted text extended the one before and the
    text of the last read starts with the emitted text, the deltas spell
    exactly that longer text. *)
Theorem stream_spells_last_read (cfg : Config) (base : nat) (tInit t0 : Z)
        (ticks : list Tick) (fin : option Page) (r : StreamRun) :
  readAnswerInChunks cfg base tInit t0 ticks fin = Some r ->
  let emitted := last (endCap (loopEnd r)) in
  let finalClean := cleanChunk (grabAnswerText base fin) in
  length (concat (deltas r)) = Nat.max (length emitted) (length finalClean)
  /\ (growing base [] ticks ->
      startsWith emitted finalClean = true ->
      concat (deltas r)
      = if length emitted <? length finalClean then finalClean else emitted).
Proof.
  unfold readAnswerInChunks.
  destruct (chunkLoop cfg base t0 0 _ ticks) as [[ds e]|] eqn:Hl;
    [|discriminate].
  intros H; injection H as <-. cbn [deltas loopEnd]. cbv zeta.
  pose proof (chunkLoop_length _ _ _ _ _ _ _ _ Hl) as Hlen.
  cbn [last length] in Hlen.
  rewrite concat_app, chunkTail_cases. cbv zeta.
  destruct (Nat.ltb_spec (length (last (endCap e)))
              (length (cleanChunk (grabAnswerText base fin)))) as [Hlt|Hge].
  - split.
    + rewrite length_app. cbn [concat]. rewrite app_nil_r. unfold slice.
      rewrite length_skipn. lia.
    + intros Hg Hp.
      pose proof (chunkLoop_growing cfg base t0 ticks 0
                    {| last := []; lastChangeAt := tInit |} ds e Hg Hl) as Hs.
      cbn [last app] in Hs. rewrite Hs. cbn [concat]. rewrite app_nil_r.
      symmetry. apply startsWith_split, Hp.
  - split.
    + cbn [concat]. rewrite app_nil_r. lia.
    + intros Hg _.
      pose proof (chunkLoop_growing cfg base t0 ticks 0
                    {| last := []; lastChangeAt := tInit |} ds e Hg Hl) as Hs.
      cbn [last app] in Hs. cbn [concat]. rewrite app_nil_r. exact Hs.
Qed.

Lemma stream_spells_last_read_witness :
  concat [lit "Hel"; lit "lo"; lit "!"] = lit "Hello!".
Proof.
  pose proof (stream_spells_last_read cfg0 0 0 0
    [tick 0 [bubble 1 "Hel" true]; tick 80 [bubble 1 "Hello" true];
     tick 1280 [bubble 1 "Hello" true]]
    (Some (page [bubble 1 "Hello!" false])) _ eq_refl) as [_ H].
  apply H.
  - vm_compute. repeat split.
  - reflexivity.
Defined.

(** What the aggregate loop holds as [lastText]. *)
Lemma finalBody_lastText cfg base st tk :
  lastText (fst (finalBody cfg base st tk)) = lastText st
  \/ lastText (fst (finalBody cfg base st tk)) = cleanOf base tk.
Proof.
  unfold finalBody, cleanOf.
  destruct (getBubbleState base (snap tk)) as [hb txt sp]. cbn [text spinning].
  generalize (cleanFinal (orStr txt [])). intros clean.
  destruct (truthy clean && negb (eqb clean (lastText st))); simpl.
  - destruct ((length clean <=? 5) && negb sp); simpl; auto.
    destruct (negb sp && _); simpl; auto.
  - destruct (everHadText st && negb sp && _); simpl; auto.
Qed.

Lemma finalLoop_lastText cfg base t0 ticks :
  forall n st r,
    finalLoop cfg base t0 n st ticks = Some r ->
    n <= pollsRun r
    /\ (lastText (endAgg r) = lastText st
        \/ exists tk,
             In tk (firstn (pollsRun r - n) ticks)
             /\ cleanOf base tk = lastText (endAgg r)).
Proof.
  induction ticks as [|tk rest IH]; intros n st r; simpl; [discriminate|].
  destruct (now_loop tk - t0 <? MAX_ANSWER_MS cfg)%Z.
  2:{ intros H; injection H as <-. cbn [pollsRun endAgg]. auto. }
  pose proof (finalBody_lastText cfg base st tk) as Hb.
  destruct (finalBody cfg base st tk) as [st' [[x txt]|]]; cbn [fst] in Hb.
  - intros H; injection H as <-. cbn [pollsRun endAgg]. split; [lia|].
    replace (S n - n) with 1 by lia.
    destruct Hb as [Hb|Hb]; [left; exact Hb|].
    right. exists tk. simpl. auto.
  - intros Hl. destruct (IH _ _ _ Hl) as [Hle Hr]. split; [lia|].
    replace (pollsRun r - n) with (S (pollsRun r - S n)) by lia.
    destruct Hr as [Hr|(tk' & Hin & Hc)].
    + destruct Hb as [Hb|Hb]; [left; congruence|].
      right. exists tk. split; [left; reflexivity|congruence].
    + right. exists tk'. split; [right; exact Hin|exact Hc].
Qed.

(** X3. The aggregate capture never returns the empty string: what it
    returns is the filtered text some poll of the run saw, and it is not
    empty; and the only exception it throws is [no_text_captured]. *)
Theorem final_answer_is_seen_text (cfg : Config) (base : nat) (tInit t0 : Z)
        (ticks : list Tick) (r : FinalRun) :
  waitForFinalAnswer cfg base tInit t0 ticks = Some r ->
  match outcome r with
  | Ok t =>
      truthy t = true
      /\ exists tk, In tk (firstn (pollsRun r) ticks) /\ cleanOf base tk = t
  | Throw e => e = no_text_captured
  end.
Proof.
  unfold waitForFinalAnswer. intros Hr.
  assert (Hinv : aggInv {| lastText := []; aggChangeAt := tInit;
                           everHadText := false |}) by reflexivity.
  destruct (finalLoop_spec cfg base t0 ticks _ _ _ Hinv Hr)
    as (_ & Hi & _ & Hw).
  destruct (finalLoop_lastText cfg base t0 ticks _ _ _ Hr) as [_ Hseen].
  rewrite Nat.sub_0_r in Hseen. cbn [lastText] in Hseen.
  unfold aggInv in Hi.
  assert (Hok : truthy (lastText (endAgg r)) = true ->
                truthy (lastText (endAgg r)) = true
                /\ exists tk, In tk (firstn (pollsRun r) ticks)
                              /\ cleanOf base tk = lastText (endAgg r)).
  { intros Ht. split; [exact Ht|].
    destruct Hseen as [He|Hs]; [|exact Hs].
    rewrite He in Ht. discriminate. }
  destruct (exit r).
  - destruct Hw as (Ho & _). rewrite Ho.
    destruct (everHadText (endAgg r)) eqn:Hev; simpl; [|reflexivity].
    apply Hok. congruence.
  - destruct Hw as (Ho & tk & _ & _ & _ & Hev & _). rewrite Ho.
    apply Hok. congruence.
  - destruct Hw as (Ho & tk & _ & _ & _ & _ & Hev & _). rewrite Ho.
    apply Hok. congruence.
Qed.

Lemma final_answer_is_seen_text_witness :
  truthy (lit "Hello!") = true
  /\ exists tk,
       In tk (firstn 2 [tick 0 [bubble 1 "Hello!" false];
                        tick 1200 [bubble 1 "Hello!" false]])
       /\ cleanOf 0 tk = lit "Hello!".
Proof.
  exact (final_answer_is_seen_text cfg0 0 0 0
    [tick 0 [bubble 1 "Hello!" false]; tick 1200 [bubble 1 "Hello!" false]]
    _ eq_refl).
Defined.

(** X4. While the spinner shows at every poll, the aggregate capture
    cannot finish before the deadline: it ends there, with the text
    recorded so far or with [no_text_captured]. *)
Theorem spinner_holds_until_deadline (cfg : Config) (base : nat)
        (tInit t0 : Z) (ticks : list Tick) (r : FinalRun) :
  Forall (fun tk => spinning (getBubbleState base (snap tk)) = true) ticks ->
  waitForFinalAnswer cfg base tInit t0 ticks = Some r ->
  exit r = ExitTimeout
  /\ exists tk,
       nth_error ticks (pollsRun r) = Some tk
       /\ (MAX_ANSWER_MS cfg <= now_loop tk - t0)%Z.
Proof.
  unfold waitForFinalAnswer. intros Hspin Hr.
  assert (Hinv : aggInv {| lastText := []; aggChangeAt := tInit;
                           everHadText := false |}) by reflexivity.
  destruct (finalLoop_spec cfg base t0 ticks _ _ _ Hinv Hr)
    as (_ & _ & _ & Hw).
  rewrite Forall_forall in Hspin.
  destruct (exit r).
  - destruct Hw as (_ & tk & Hn & Ht). rewrite Nat.sub_0_r in Hn.
    split; [reflexivity|]. eauto.
  - destruct Hw as (_ & tk & Hn & _ & _ & _ & Hsp & _).
    apply nth_error_In, Hspin in Hn. congruence.
  - destruct Hw as (_ & tk & Hn & _ & _ & _ & _ & _ & Hsp & _).
    apply nth_error_In, Hspin in Hn. congruence.
Qed.

Lemma spinner_holds_until_deadline_witness :
  exists r,
    waitForFinalAnswer cfg0 0 0 0
      [tick 0 [bubble 1 "OK" true]; tick 30000 [bubble 1 "OK" true];
       tick 60000 [bubble 1 "OK" true]] = Some r
    /\ exit r = ExitTimeout /\ outcome r = Ok (lit "OK").
Proof.
  eexists. split; [reflexivity|]. split; [|reflexivity].
  refine (proj1 (spinner_holds_until_deadline cfg0 0 0 0
    [tick 0 [bubble 1 "OK" true]; tick 30000 [bubble 1 "OK" true];
     tick 60000 [bubble 1 "OK" true]] _ _ eq_refl)).
  repeat constructor.
Defined.

(** A text without word characters has no word boundary, so neither
    cleaning expression matches in it. *)
Lemma removeAll_no_word (m : option N -> str -> option str) (s : str) :
  (forall prev t, atBoundary prev t = false -> m prev t = None) ->
  forallb (fun c => negb (isWord c)) s = true ->
  forall prev, isWordAt prev = false -> removeAll m 0 prev s = s.
Proof.
  intros Hm. induction s as [|c s IH]; intros Hs prev Hprev; [reflexivity|].
  simpl in Hs. apply andb_true_iff in Hs as [Hc Hs].
  apply negb_true_iff in Hc. cbn [removeAll].
  rewrite Hm.
  - f_equal. apply IH; [exact Hs | exact Hc].
  - unfold atBoundary. cbn [hd_error isWordAt]. rewrite Hprev, Hc.
    reflexivity.
Qed.

(** X5. The cleaning expressions only match at a word boundary, so a text
    without any of [A-Za-z0-9_] passes both of them untouched, only
    trimmed: the Chinese placeholder phrases standing alone are not
    removed by them. *)
Theorem cleaning_needs_word_boundary (t : str) :
  forallb (fun c => negb (isWord c)) t = true ->
  cleanChunk t = trim t /\ cleanFinal t = trim t.
Proof.
  intros Ht. unfold cleanChunk, cleanFinal.
  rewrite !removeAll_no_word; auto.
  - intros prev s Hb. unfold matchFinalNoise. rewrite Hb. reflexivity.
  - intros prev s Hb. unfold matchChunkNoise. rewrite Hb. reflexivity.
Qed.

(** 正在输入 with the spinner off is returned as the answer. *)
Lemma cleaning_needs_word_boundary_witness :
  cleanFinal zhTyping = zhTyping
  /\ option_map outcome
       (waitForFinalAnswer cfg0 0 0 0
          [{| now_loop := 0;
              snap := Some [[ {| node := 1; visible := true; txtNode := None;
                                 innerText := zhTyping; textContent := zhTyping;
                                 spinners := [] |} ]];
              now_change := 0; now_stable := 0 |}])
     = Some (Ok zhTyping).
Proof.
  split.
  - exact (proj2 (cleaning_needs_word_boundary zhTyping eq_refl)).
  - reflexivity.
Defined.

End CaptureMore.

(* ================================================================== *)
(** * Further properties of the gate, the sanitizer and the handler *)
(* ================================================================== *)

Section GateMore.
Import Js Json Http Script.

Lemma step_keeps_holder (g : Gate) (e : Event) :
  (busy g = true -> exists id, holds id g = true) ->
  busy (fst (step g e)) = true ->
  exists id, holds id (fst (step g e)) = true.
Proof.
  intros Hinv. destruct e as [id|id|id|id]; cbn [step].
  - destruct (busy g) eqn:Hb; cbn [fst].
    + intros _. apply Hinv. reflexivity.
    + intros _. exists id. unfold holds, registered. simpl.
      rewrite Nat.eqb_refl. reflexivity.
  - destruct (registered id (onFinish g)); cbn [fst busy];
      [discriminate | exact Hinv].
  - destruct (registered id (onClose g)); cbn [fst busy];
      [discriminate | exact Hinv].
  - destruct (registered id (watchdogs g)); cbn [fst busy];
      [discriminate | exact Hinv].
Qed.

Lemma runEvents_keeps_holder (es : list Event) :
  forall g,
    (busy g = true -> exists id, holds id g = true) ->
    busy (fst (runEvents g es)) = true ->
    exists id, holds id (fst (runEvents g es)) = true.
Proof.
  induction es as [|e es IH]; intros g Hinv; cbn [runEvents].
  - exact Hinv.
  - pose proof (step_keeps_holder g e Hinv) as Hstep.
    destruct (step g e) as [g' a]. cbn [fst] in Hstep.
    specialize (IH g' Hstep).
    destruct (runEvents g' es) as [g'' l]. exact IH.
Qed.

(** X6. Whatever arrivals, finishes, closes and watchdog firings the
    process has gone through since it started, a set [busy] always comes
    with a request whose watchdog is armed and whose [finish] and [close]
    listeners are registered; each of the three frees the gate, so a busy
    gate is never left without a timer that will free it. *)
Theorem busy_gate_has_armed_watchdog (es : list Event) :
  busy (fst (runEvents idle es)) = true ->
  exists id,
    holds id (fst (runEvents idle es)) = true
    /\ registered id (watchdogs (fst (runEvents idle es))) = true
    /\ forall e,
         releases id e = true ->
         busy (fst (step (fst (runEvents idle es)) e)) = false.
Proof.
  intros Hb.
  destruct (runEvents_keeps_holder es idle) as [id Hid];
    [discriminate | exact Hb |].
  exists id. split; [exact Hid|]. split.
  - unfold holds in Hid. apply andb_true_iff in Hid as [Hid _].
    apply andb_true_iff in Hid as [Hw _]. exact Hw.
  - intros e He. apply (release_frees _ id e Hid He).
Qed.

Lemma busy_gate_has_armed_watchdog_witness :
  exists id,
    holds id (fst (runEvents idle [Arrive 1; WatchdogFires 1; Arrive 2;
                                   Finish 1; Arrive 3])) = true.
Proof.
  destruct (busy_gate_has_armed_watchdog
              [Arrive 1; WatchdogFires 1; Arrive 2; Finish 1; Arrive 3]
              eq_refl) as (id & Hid & _).
  exists id. exact Hid.
Defined.

End GateMore.

Section SanitizerMore.
Import Js Json Sanitizer Dom Capture Driver Http Script.

Lemma assoc_filter_none (P : str * value -> bool) (k : str) fs :
  assoc k fs = None -> assoc k (filter P fs) = None.
Proof.
  induction fs as [|[k1 v] fs IH]; simpl; [reflexivity|].
  destruct (eqb k1 k) eqn:Hk; [discriminate|]. intros H.
  destruct (P (k1, v)); simpl; [rewrite Hk|]; apply IH, H.
Qed.

Lemma assoc_delete_same (k : string) fs : assoc (lit k) (delete k fs) = None.
Proof.
  unfold delete. induction fs as [|[k1 v] fs IH]; simpl; [reflexivity|].
  destruct (eqb k1 (lit k)) eqn:Hk; simpl; [exact IH|].
  rewrite Hk. exact IH.
Qed.

Lemma hasKey_false (k : string) fs : hasKey k fs = false -> assoc (lit k) fs = None.
Proof. unfold hasKey. destruct (assoc (lit k) fs); [discriminate|reflexivity]. Qed.

Lemma assoc_prune_none (k : str) fs :
  assoc k fs = None -> assoc k (pruneTopFields fs) = None.
Proof. apply assoc_filter_none. Qed.

Lemma pruneTopFields_allowed fs k v :
  In (k, v) (pruneTopFields fs) -> existsb (eqb k) allowedTop = true.
Proof. unfold pruneTopFields. intros H. apply filter_In in H as [_ H]. exact H. Qed.

(** What each stage of the sanitizer removes, and what stays removed. *)
Lemma streamOptionsStage_strips opts (d : Draft) :
  stripStreamOptions opts = true ->
  assoc (lit "stream_options") (fst (fst (streamOptionsStage opts d))) = None.
Proof.
  intros Hs. destruct d as [[next chg] rsn]. unfold streamOptionsStage.
  rewrite Hs. cbn [andb].
  destruct (hasKey "stream_options" next) eqn:Hh; cbn [fst].
  - apply assoc_delete_same.
  - apply hasKey_false, Hh.
Qed.

Lemma modelStage_strips (d : Draft) :
  assoc (lit "model") (fst (fst (modelStage true d))) = None.
Proof.
  destruct d as [[next chg] rsn]. unfold modelStage. cbn [andb].
  destruct (hasKey "model" next) eqn:Hh; cbn [fst].
  - apply assoc_delete_same.
  - apply hasKey_false, Hh.
Qed.

Lemma modelStage_none block (d : Draft) (k : str) :
  assoc k (fst (fst d)) = None ->
  assoc k (fst (fst (modelStage block d))) = None.
Proof.
  destruct d as [[next chg] rsn]. unfold modelStage.
  destruct (_ && _); cbn [fst]; [apply assoc_filter_none | auto].
Qed.

Lemma pruneStage_none opts (d : Draft) (k : str) :
  assoc k (fst (fst d)) = None ->
  assoc k (fst (fst (pruneStage opts d))) = None.
Proof.
  destruct d as [[next chg] rsn]. unfold pruneStage.
  destruct (stripUnknownTopFields opts); cbn [fst];
    [apply assoc_prune_none | auto].
Qed.

Lemma pruneStage_allowed opts (d : Draft) k v :
  stripUnknownTopFields opts = true ->
  In (k, v) (fst (fst (pruneStage opts d))) ->
  existsb (eqb k) allowedTop = true.
Proof.
  intros Hs. destruct d as [[next chg] rsn]. unfold pruneStage. rewrite Hs.
  cbn [fst]. apply pruneTopFields_allowed.
Qed.

(** Where the sanitizer can throw: in [rebuildMessages] and in the
    [RegExp] constructor under [shouldBlockModel]. *)
Lemma blockedBy_throws B subject list e :
  blockedBy B subject list = Throw e ->
  exists glob,
    In glob list /\ globLikeToRegex glob = None
    /\ e = invalidRegExp B (globSource glob).
Proof.
  induction list as [|s rest IH]; cbn [blockedBy]; [discriminate|].
  destruct (globLikeToRegex s) as [rx|] eqn:Hg.
  - destruct (matchTerms B rx subject); [discriminate|].
    intros H. destruct (IH H) as (glob & Hin & Hn & He).
    exists glob. split; [right; exact Hin | auto].
  - intros H; injection H as <-. exists s. split; [left; reflexivity | auto].
Qed.

Lemma blockedBy_returns B subject list :
  (forall glob, In glob list -> globLikeToRegex glob <> None) ->
  exists b, blockedBy B subject list = Ok b.
Proof.
  induction list as [|s rest IH]; cbn [blockedBy]; intros H; [eauto|].
  destruct (globLikeToRegex s) as [rx|] eqn:Hg.
  - destruct (matchTerms B rx subject); [eauto|].
    apply IH. intros glob Hin. apply H. right. exact Hin.
  - exfalso. apply (H s); [left; reflexivity | exact Hg].
Qed.

Lemma modelTest_throws B opts d e :
  modelTest B opts d = Throw e ->
  stripModel opts = false
  /\ exists glob,
       In glob (blockModels opts) /\ globLikeToRegex glob = None
       /\ e = invalidRegExp B (globSource glob).
Proof.
  unfold modelTest, shouldBlockModel.
  destruct (stripModel opts); [discriminate|].
  destruct (assoc (lit "model") (fst (fst d))) as [v|]; [|discriminate].
  destruct (truthyV v); [|discriminate].
  intros H. split; [reflexivity|]. apply (blockedBy_throws _ _ _ _ H).
Qed.

Lemma modelTest_returns B opts d :
  stripModel opts = true
  \/ (forall glob, In glob (blockModels opts) -> globLikeToRegex glob <> None) ->
  exists b, modelTest B opts d = Ok b.
Proof.
  unfold modelTest, shouldBlockModel. intros [H|H].
  - rewrite H. eauto.
  - destruct (stripModel opts); [eauto|].
    destruct (assoc (lit "model") (fst (fst d))) as [v|]; [|eauto].
    destruct (truthyV v); [|eauto]. apply blockedBy_returns, H.
Qed.



(** A Kilo request whose model is to be tested against a glob that is no
    regular expression: the sanitizer throws the [SyntaxError]. *)
Example bad_glob_throws :
  let payload := chat "You are Kilo Code" [(lit "model", JStr (lit "x"))] in
  let opts := {| mode := lit "passthrough"; keep := []; stripEnv := true;
                 stripStreamOptions := true; stripModel := false;
                 stripUnknownTopFields := false;
                 blockModels := [lit "?bad"]; lang := lit "zh" |} in
  sanitizeKiloRequest host0 payload opts
  = Throw (lit "Invalid regular expression: /^?bad$/i: Nothing to repeat").
Proof. vm_compute. reflexivity. Qed.

(** The flag and the reason the first stage starts from. *)
Lemma rebuildStage_tag B fs opts d :
  rebuildStage B (JObj fs) opts = Ok d ->
  (snd (fst d), snd d) = (true, lit "tools-minimal")
  \/ (snd (fst d), snd d) = (true, lit "tools-off")
  \/ (snd (fst d), snd d) = (false, lit "passthrough").
Proof.
  unfold rebuildStage.
  destruct (eqb (mode opts) (lit "tools-minimal")).
  { destruct (Rules.rebuildMessages _ _ _ _ _); [|discriminate].
    intros H; injection H as <-. auto. }
  destruct (eqb (mode opts) (lit "tools-off")).
  { destruct (Rules.rebuildMessages _ _ _ _ _); [|discriminate].
    intros H; injection H as <-. auto. }
  intros H; injection H as <-. auto.
Qed.

(** [changed] and [reason] of a result agree. *)
Lemma changed_reason B payload opts s :
  sanitizeKiloRequest B payload opts = Ok s ->
  changed s = false <-> reason s = lit "passthrough".
Proof.
  destruct (isKiloRequest payload) eqn:Hk.
  2:{ unfold sanitizeKiloRequest. rewrite Hk. cbn [negb].
      intros H; injection H as <-. split; reflexivity. }
  destruct (isKiloRequest_object _ Hk) as [fs ->]. intros Hs.
  destruct (sanitize_kilo B fs opts s Hk Hs) as (d1 & block & H1 & _ & ->).
  apply rebuildStage_tag in H1. destruct d1 as [[n1 c1] r1].
  cbn [fst snd] in H1. cbn [changed reason].
  unfold streamOptionsStage.
  destruct (stripStreamOptions opts && hasKey "stream_options" n1);
    unfold modelStage;
    match goal with
    | |- context [if ?c then (delete "model" _, _, _) else _] => destruct c
    end;
    unfold pruneStage; destruct (stripUnknownTopFields opts);
    cbn [fst snd];
    destruct H1 as [H1|[H1|H1]]; injection H1 as -> ->;
    split; intros H; try reflexivity; try discriminate H;
    vm_compute in H; discriminate H.
Qed.

(** X8. [changed] and [reason] of a result of the sanitizer agree:
    [changed] is false exactly when the reason is the bare [passthrough].
    On the handler's response the header [X-KiloSanitize] is absent exactly
    when the sanitizer threw, and the answer is then the 502 error object;
    it is [0], with no [X-KiloSanitize-Reason], exactly when the sanitizer
    is switched off or returned the reason [passthrough]; it is [1]
    otherwise, with the reason in [X-KiloSanitize-Reason]. *)
Theorem changed_iff_reason (B : Builtins) (payload : value) (opts : Options) :
  (forall s,
     sanitizeKiloRequest B payload opts = Ok s ->
     changed s = false <-> reason s = lit "passthrough")
  /\ (forall cfg w served,
        serve cfg B opts payload w = Some served ->
        match kiloSanitize served with
        | None =>
            kiloSanitizeReason served = None
            /\ SAN_ON cfg = true
            /\ exists e,
                 sanitizeKiloRequest B payload opts = Throw e
                 /\ response served = errorResponse e
        | Some false =>
            kiloSanitizeReason served = None
            /\ (SAN_ON cfg = false
                \/ exists s,
                     sanitizeKiloRequest B payload opts = Ok s
                     /\ reason s = lit "passthrough")
        | Some true =>
            SAN_ON cfg = true
            /\ exists s,
                 sanitizeKiloRequest B payload opts = Ok s
                 /\ reason s <> lit "passthrough"
                 /\ kiloSanitizeReason served = Some (reason s)
        end).
Proof.
  split; [intros s; apply changed_reason|].
  intros cfg w served.
  assert (Hmarked : forall ch rs r,
    maybeSanitizeKiloBody cfg B opts payload = Ok (ch, rs) ->
    match kiloSanitize (marked (snd ch) rs r) with
    | None => False
    | Some false =>
        kiloSanitizeReason (marked (snd ch) rs r) = None
        /\ (SAN_ON cfg = false
            \/ exists s,
                 sanitizeKiloRequest B payload opts = Ok s
                 /\ reason s = lit "passthrough")
    | Some true =>
        SAN_ON cfg = true
        /\ exists s,
             sanitizeKiloRequest B payload opts = Ok s
             /\ reason s <> lit "passthrough"
             /\ kiloSanitizeReason (marked (snd ch) rs r) = Some (reason s)
    end).
  { intros [sb ch] rs r. unfold maybeSanitizeKiloBody.
    destruct (SAN_ON cfg); cbn [negb].
    - destruct (sanitizeKiloRequest B payload opts) as [s|e] eqn:Hs;
        [|discriminate].
      intros H; injection H as <- <- <-. cbn [snd marked kiloSanitize].
      pose proof (changed_reason B payload opts s Hs) as [Hcr Hrc].
      destruct (changed s) eqn:Hc; cbn [kiloSanitizeReason].
      + split; [reflexivity|]. exists s. split; [reflexivity|].
        split; [|reflexivity]. intros Hr. specialize (Hrc Hr). discriminate.
      + split; [reflexivity|]. right. exists s. auto.
    - intros H; injection H as <- <- <-. cbn. auto. }
  unfold serve.
  destruct (maybeSanitizeKiloBody cfg B opts payload) as [[[sb ch] rs]|e] eqn:Hm.
  - specialize (fun r => Hmarked (sb, ch) rs r eq_refl). cbn [snd] in Hmarked.
    destruct (truthy (toPrompt B sb)); cbn [negb].
    2:{ intros H; injection H as <-. apply Hmarked. }
    unfold respond.
    destruct ((ensureBrowser ;;; submitPrompt cfg (toPrompt B sb))%driver
                (surface w) []) as [[baseline|e] h].
    2:{ intros H; injection H as <-. apply Hmarked. }
    destruct (wantStream sb).
    + destruct (readAnswerInChunks _ _ _ _ _ _); [|discriminate].
      intros H; injection H as <-. apply Hmarked.
    + destruct (waitForFinalAnswer _ _ _ _ _) as [run|]; [|discriminate].
      destruct (outcome run); intros H; injection H as <-;
        apply Hmarked.
  - intros H; injection H as <-. cbn [bare kiloSanitize kiloSanitizeReason response].
    split; [reflexivity|]. unfold maybeSanitizeKiloBody in Hm.
    destruct (SAN_ON cfg); cbn [negb] in Hm; [|discriminate].
    split; [reflexivity|]. exists e.
    destruct (sanitizeKiloRequest B payload opts); [discriminate|].
    injection Hm as ->. auto.
Qed.

Lemma changed_iff_reason_witness :
  let body := chat "You are Kilo Code" [(lit "model", JStr (lit "x"))] in
  exists s,
    sanitizeKiloRequest host0 body opts0 = Ok s
    /\ changed s = true
    /\ reason s <> lit "passthrough".
Proof.
  intros body.
  pose proof (changed_iff_reason host0 body opts0) as [H _].
  destruct (sanitizeKiloRequest host0 body opts0) as [s|e] eqn:Hs.
  2:{ vm_compute in Hs. discriminate Hs. }
  exists s. split; [reflexivity|].
  assert (Hc : changed s = true)
    by (vm_compute in Hs; injection Hs as <-; reflexivity).
  split; [exact Hc|]. intros Hr. apply (H s eq_refl) in Hr. congruence.
Defined.

(** A rewritten Kilo request is answered with [X-KiloSanitize: 1] and the
    reason; with the sanitizer switched off the same request is answered
    with [X-KiloSanitize: 0] and no reason. *)
Example headers_of_a_kilo_request :
  let body := chat "You are Kilo Code" [(lit "model", JStr (lit "x"))] in
  let ok := [bubble 1 "OK" false] in
  let w := {| surface := Driver.constantPage (fun _ => true) 0;
              tInit := 0; t0 := 0;
              ticks := [tick 0 ok; tick 80 ok; tick 1200 ok];
              finalSnap := Some (page ok) |} in
  let off := {| MAX_ANSWER_MS := MAX_ANSWER_MS cfg0;
                STABLE_MS := STABLE_MS cfg0;
                AFTER_INPUT_SETTLE_MS := AFTER_INPUT_SETTLE_MS cfg0;
                FORCE_ENTER_ONLY := FORCE_ENTER_ONLY cfg0;
                SAN_ON := false |} in
  option_map (fun s => (kiloSanitize s, kiloSanitizeReason s))
    (serve cfg0 host0 opts0 body w)
  = Some (Some true, Some (lit "tools-minimal +strip-model"))
  /\ option_map (fun s => (kiloSanitize s, kiloSanitizeReason s))
       (serve off host0 opts0 body w)
     = Some (Some false, None).
Proof. split; vm_compute; reflexivity. Qed.

Lemma messagesOf_empty_not_kilo (payload : value) :
  messagesOf payload = [] -> isKiloRequest payload = false.
Proof. intros H. unfold isKiloRequest. rewrite H. reflexivity. Qed.

(** X9. A body whose [messages] is missing, not an array or empty is
    answered with status 400 and [empty prompt], with [X-KiloSanitize: 0]
    and no [X-KiloSanitize-Reason], whatever the page and the clock would
    do. *)
Theorem empty_prompt_is_400 (cfg : Config) (B : Builtins)
        (opts : Options) (body : value) :
  messagesOf body = [] ->
  forall w,
    serve cfg B opts body w
    = Some {| kiloSanitize := Some false; kiloSanitizeReason := None;
              response := RespJson 400 (errorBody "empty prompt") |}.
Proof.
  intros Hm w. unfold serve.
  assert (Hs : maybeSanitizeKiloBody cfg B opts body
               = Ok (body, false, if SAN_ON cfg then Some (lit "passthrough")
                                  else None)).
  { unfold maybeSanitizeKiloBody, sanitizeKiloRequest.
    rewrite (messagesOf_empty_not_kilo _ Hm).
    destruct (SAN_ON cfg); reflexivity. }
  rewrite Hs.
  assert (Hp : toPrompt B body = []).
  { unfold toPrompt. unfold messagesOf in Hm.
    destruct (prop "messages" body) as [[| | | |l|]|]; try reflexivity.
    rewrite Hm. reflexivity. }
  rewrite Hp. reflexivity.
Qed.

Lemma empty_prompt_is_400_witness :
  let body := JObj [(lit "model", JStr (lit "gemini-webui"))] in
  let w := {| surface := constantPage (fun _ => true) 0;
              tInit := 0; t0 := 0; ticks := []; finalSnap := None |} in
  messagesOf body = []
  /\ serve cfg0 host0 opts0 body w
     = Some {| kiloSanitize := Some false; kiloSanitizeReason := None;
               response := RespJson 400 (errorBody "empty prompt") |}.
Proof.
  intros body w. split; [reflexivity|].
  apply (empty_prompt_is_400 cfg0 host0 opts0 body eq_refl w).
Defined.

End SanitizerMore.

(* ================================================================== *)
(** * Further properties of the driver *)
(* ================================================================== *)

Section DriverConduct.
Import Js Driver Conduct.

Variable S : Surface.

Lemma issuesOnly_ret {A} allowed (a : A) : issuesOnly S allowed (ret a).
Proof. intros h. exists []. auto. Qed.

Lemma issuesOnly_throw {A} allowed (e : str) :
  issuesOnly S allowed (@throw A e).
Proof. intros h. exists []. auto. Qed.

Lemma issuesOnly_call allowed (op : Op) :
  allowed op = true -> issuesOnly S allowed (call op).
Proof.
  intros Hop h. exists [op]. simpl. rewrite Hop. auto.
Qed.

Lemma issuesOnly_bind {A B} allowed (m : M A) (k : A -> M B) :
  issuesOnly S allowed m ->
  (forall a, issuesOnly S allowed (k a)) ->
  issuesOnly S allowed (bind m k).
Proof.
  intros Hm Hk h. unfold bind. destruct (Hm h) as (e1 & H1 & Ha1).
  destruct (m S h) as [[a|e] h1]; cbn [snd] in H1; subst h1.
  - destruct (Hk a (e1 ++ h)) as (e2 & H2 & Ha2).
    exists (e2 ++ e1). rewrite H2, app_assoc, forallb_app, Ha1, Ha2. auto.
  - exists e1. auto.
Qed.

Lemma issuesOnly_catch {A} allowed (m : M A) (k : str -> M A) :
  issuesOnly S allowed m ->
  (forall e, issuesOnly S allowed (k e)) ->
  issuesOnly S allowed (catch m k).
Proof.
  intros Hm Hk h. unfold catch. destruct (Hm h) as (e1 & H1 & Ha1).
  destruct (m S h) as [[a|e] h1]; cbn [snd] in H1; subst h1.
  - exists e1. auto.
  - destruct (Hk e (e1 ++ h)) as (e2 & H2 & Ha2).
    exists (e2 ++ e1). rewrite H2, app_assoc, forallb_app, Ha1, Ha2. auto.
Qed.

Lemma issuesOnly_weaken {A} (allowed allowed' : Op -> bool) (m : M A) :
  (forall op, allowed op = true -> allowed' op = true) ->
  issuesOnly S allowed m -> issuesOnly S allowed' m.
Proof.
  intros Hw Hm h. destruct (Hm h) as (ext & He & Ha). exists ext.
  split; [exact He|]. rewrite forallb_forall in *. auto.
Qed.

Lemma issuesOnly_pick allowed :
  allowed PickActiveInput = true -> issuesOnly S allowed pickActiveInput.
Proof. intros Hop h. exists [PickActiveInput]. simpl. rewrite Hop. auto. Qed.

Lemma issuesOnly_count allowed :
  allowed CountAnswerRoots = true -> issuesOnly S allowed countAnswerRoots.
Proof. intros Hop h. exists [CountAnswerRoots]. simpl. rewrite Hop. auto. Qed.

End DriverConduct.

(** Goes through driver code made of [bind], [catch], [call] and tests;
    [side] settles that a call is allowed. *)
Ltac issues side :=
  repeat first
    [ apply issuesOnly_ret
    | apply issuesOnly_throw
    | apply issuesOnly_call; side
    | apply issuesOnly_bind; [|intro]
    | apply issuesOnly_catch; [|intro]
    | match goal with
      | |- Conduct.issuesOnly _ _ (if ?b then _ else _) => destruct b
      | |- Conduct.issuesOnly _ _ (Driver.when ?b _) => destruct b; cbn [Driver.when]
      end ].

Section DriverMore.
Import Js Driver Conduct Script.

Variable S : Surface.

Ltac unfold_driver :=
  unfold setInputFast, setInputFastWith, strategyA, strategyB, strategyC,
    okAfter, focusAndClear, focusIntoEditable, clickSendButton,
    verifyInputMatches, isSendButtonReady, hasInputText, waitStarted,
    quiet, orFalse.

Lemma issuesOnly_setInputFast cfg sel text :
  issuesOnly S (injectionCall cfg sel (normalizeExpected text))
             (setInputFast cfg sel text).
Proof.
  unfold_driver.
  issues ltac:(cbn [injectionCall];
               rewrite ?eqb_refl, ?Z.eqb_refl; reflexivity).
Qed.

Lemma injectionCall_no_commit cfg sel expected op :
  injectionCall cfg sel expected op = true -> isCommit op = false.
Proof. destruct op as [| | | | | | |[]| | | | | | | | | | | | | | |]; simpl; congruence. Qed.

(** X10. Whatever the page answers, [setInputFast] only focuses, clears,
    writes and checks the input it was given: it never presses Enter and
    never clicks the send button, and every text it writes or verifies is
    the prompt with carriage returns removed and no-break spaces turned
    into spaces. *)
Theorem injection_only_writes_prompt (cfg : Config) (sel : Sel) (text : str)
        (h : list Op) :
  exists ext,
    snd (setInputFast cfg sel text S h) = ext ++ h
    /\ forallb (injectionCall cfg sel (normalizeExpected text)) ext = true
    /\ existsb isCommit ext = false
    /\ forall s t,
         In (ExecInsertText s t) ext \/ In (LocatorType s t) ext
         \/ In (ClipboardWrite t) ext \/ In (InsertText t) ext ->
         t = normalizeExpected text.
Proof.
  destruct (issuesOnly_setInputFast cfg sel text h) as (ext & He & Ha).
  exists ext. split; [exact He|]. split; [exact Ha|].
  rewrite forallb_forall in Ha. split.
  - destruct (existsb isCommit ext) eqn:Hc; [|reflexivity].
    apply existsb_exists in Hc as (op & Hin & Hop).
    apply Ha, injectionCall_no_commit in Hin. congruence.
  - intros s t [H|[H|[H|H]]]; apply Ha in H; cbn [injectionCall] in H;
      repeat (apply andb_true_iff in H as [? H]); apply eqb_spec in H;
      exact H.
Qed.

Lemma issuesOnly_forced cfg prompt :
  FORCE_ENTER_ONLY cfg = true ->
  issuesOnly S (fun op => negb (touchesSend op)) (submitPrompt cfg prompt).
Proof.
  intros Hf. unfold submitPrompt, commitFirst, commitAgain. rewrite Hf.
  apply issuesOnly_bind; [apply issuesOnly_call; reflexivity|intros _].
  apply issuesOnly_bind; [apply issuesOnly_pick; reflexivity|intros [sel|]];
    [|apply issuesOnly_throw].
  apply issuesOnly_bind; [apply issuesOnly_count; reflexivity|intros n].
  apply issuesOnly_bind.
  { eapply issuesOnly_weaken; [|apply issuesOnly_setInputFast].
    intros op. destruct op; simpl; congruence. }
  intros ok. unfold_driver. issues ltac:(reflexivity).
Qed.

(** X11. With [FORCE_ENTER_ONLY] set, [submitPrompt] never looks the send
    button up for a click and never clicks it: it commits with Enter
    only. *)
Theorem force_enter_never_clicks (cfg : Config) (prompt : str) (h : list Op) :
  FORCE_ENTER_ONLY cfg = true ->
  exists ext,
    snd (submitPrompt cfg prompt S h) = ext ++ h
    /\ ~ In ClickSend ext /\ ~ In FindSendSelector ext.
Proof.
  intros Hf.
  destruct (issuesOnly_forced cfg prompt Hf h) as (ext & He & Ha).
  exists ext. split; [exact He|]. rewrite forallb_forall in Ha.
  split; intros Hin; apply Ha in Hin; discriminate.
Qed.

End DriverMore.

Section DriverBounds.
Import Js Driver Conduct Script.

Variable S : Surface.

Lemma spends_of_issuesOnly {A} (f : Op -> bool) (allowed : Op -> bool) (m : M A) :
  (forall op, allowed op = true -> f op = false) ->
  issuesOnly S allowed m -> spends S f 0 m.
Proof.
  intros Hf Hm h. destruct (Hm h) as (ext & He & Ha). exists ext.
  split; [exact He|]. rewrite forallb_forall in Ha.
  assert (Hnil : filter f ext = []).
  { clear He. induction ext as [|op ext IH]; [reflexivity|]. simpl.
    rewrite (Hf op) by (apply Ha; left; reflexivity).
    apply IH. intros x Hx. apply Ha. right. exact Hx. }
  rewrite Hnil. simpl. lia.
Qed.

Lemma spends_bind {A B} f n1 n2 (m : M A) (k : A -> M B) :
  spends S f n1 m -> (forall a, spends S f n2 (k a)) ->
  spends S f (n1 + n2) (bind m k).
Proof.
  intros Hm Hk h. unfold bind. destruct (Hm h) as (e1 & H1 & Hl1).
  destruct (m S h) as [[a|e] h1]; cbn [snd] in H1; subst h1.
  - destruct (Hk a (e1 ++ h)) as (e2 & H2 & Hl2).
    exists (e2 ++ e1). rewrite H2, app_assoc. split; [reflexivity|].
    rewrite filter_app, length_app. lia.
  - exists e1. split; [reflexivity|lia].
Qed.

Lemma spends_catch {A} f n1 n2 (m : M A) (k : str -> M A) :
  spends S f n1 m -> (forall e, spends S f n2 (k e)) ->
  spends S f (n1 + n2) (catch m k).
Proof.
  intros Hm Hk h. unfold catch. destruct (Hm h) as (e1 & H1 & Hl1).
  destruct (m S h) as [[a|e] h1]; cbn [snd] in H1; subst h1.
  - exists e1. split; [reflexivity|lia].
  - destruct (Hk e (e1 ++ h)) as (e2 & H2 & Hl2).
    exists (e2 ++ e1). rewrite H2, app_assoc. split; [reflexivity|].
    rewrite filter_app, length_app. lia.
Qed.

Lemma spends_weaken {A} f n n' (m : M A) :
  n <= n' -> spends S f n m -> spends S f n' m.
Proof.
  intros Hle Hm h. destruct (Hm h) as (ext & He & Hl). exists ext.
  split; [exact He|lia].
Qed.

Lemma spends_call f (op : Op) :
  spends S f (if f op then 1 else 0) (call op).
Proof.
  intros h. exists [op]. split; [reflexivity|]. simpl.
  destruct (f op); simpl; lia.
Qed.

Lemma spends_ret {A} f (a : A) : spends S f 0 (ret a).
Proof. intros h. exists []. simpl. split; [reflexivity|lia]. Qed.

Lemma spends_quiet {A} f n (m : M A) :
  spends S f n m -> spends S f n (quiet m).
Proof.
  intros Hm. unfold quiet. apply (spends_weaken f (n + 0 + 0)); [lia|].
  apply spends_catch; [|intros e; apply spends_ret].
  apply spends_bind; [exact Hm|intros a; apply spends_ret].
Qed.

Variable f : Op -> bool.
Hypothesis f_commit : forall op, f op = true -> isCommit op = true.

Let enter := if f (Press Enter) then 1 else 0.
Let click := if f ClickSend then 1 else 0.

Lemma spends_free {A} (m : M A) :
  issuesOnly S (fun op => negb (isCommit op)) m -> spends S f 0 m.
Proof.
  apply spends_of_issuesOnly. intros op Hop.
  destruct (f op) eqn:Hf; [|reflexivity].
  apply f_commit in Hf. rewrite Hf in Hop. discriminate.
Qed.

Ltac free :=
  apply spends_free;
  unfold focusIntoEditable, isSendButtonReady, waitStarted, quiet, orFalse;
  issues ltac:(reflexivity).

Lemma spends_clickSendButton : spends S f click clickSendButton.
Proof.
  unfold clickSendButton.
  apply (spends_weaken f (0 + click)); [lia|].
  apply spends_bind; [free|intros found].
  destruct (negb found); [apply (spends_weaken f 0); [lia|free]|].
  apply (spends_weaken f (0 + (click + 0))); [lia|].
  apply spends_bind; [free|intros _].
  apply spends_bind; [apply spends_call|intros _; apply spends_ret].
Qed.

Lemma spends_pressEnter : spends S f enter (quiet (call (Press Enter))).
Proof. apply spends_quiet, spends_call. Qed.

Lemma spends_commitFirst cfg sel :
  spends S f (enter + click) (commitFirst cfg sel).
Proof.
  unfold commitFirst. destruct (FORCE_ENTER_ONLY cfg).
  - apply (spends_weaken f (0 + enter)); [lia|].
    apply spends_bind; [free|intros _; apply spends_pressEnter].
  - apply (spends_weaken f (0 + (enter + click))); [lia|].
    apply spends_bind; [free|intros _].
    apply spends_bind; [apply spends_pressEnter|intros _].
    apply spends_quiet, spends_clickSendButton.
Qed.

Lemma spends_commitAgain cfg sel :
  spends S f (Nat.max enter click) (commitAgain cfg sel).
Proof.
  unfold commitAgain. destruct (FORCE_ENTER_ONLY cfg).
  - apply (spends_weaken f (0 + enter)); [lia|].
    apply spends_bind; [free|intros _; apply spends_pressEnter].
  - apply (spends_weaken f click); [lia|].
    apply spends_quiet, spends_clickSendButton.
Qed.

Lemma spends_submitPrompt cfg prompt :
  spends S f (enter + click + Nat.max enter click) (submitPrompt cfg prompt).
Proof.
  unfold submitPrompt.
  apply (spends_weaken f (0 + (0 + (0 + (0 +
           (0 + ((enter + click) + (0 + (Nat.max enter click + 0)))))))));
    [lia|].
  apply spends_bind; [free|intros _].
  apply spends_bind;
    [apply spends_free, issuesOnly_pick; reflexivity|].
  intros o. destruct o as [sel|].
  2:{ apply (spends_weaken f 0); [lia|free]. }
  apply spends_bind;
    [apply spends_free, issuesOnly_count; reflexivity|intros n].
  apply spends_bind.
  { apply spends_free.
    eapply issuesOnly_weaken; [|apply issuesOnly_setInputFast].
    intros op Hop. apply injectionCall_no_commit in Hop. rewrite Hop.
    reflexivity. }
  intros ok. destruct (negb ok); [apply (spends_weaken f 0); [lia|free]|].
  apply spends_bind; [free|intros _].
  apply spends_bind; [apply spends_commitFirst|intros _].
  apply spends_bind; [free|intros started].
  destruct started; [apply (spends_weaken f 0); [lia|free]|].
  apply spends_bind; [apply spends_commitAgain|intros _].
  apply (spends_weaken f (0 + 0)); [lia|].
  apply spends_bind; [free|intros started2].
  destruct started2; free.
Qed.

End DriverBounds.

Section DriverBoundsClaims.
Import Js Driver Conduct Script.

Lemma force_enter_never_clicks_witness :
  let cfg := {| MAX_ANSWER_MS := 60000; STABLE_MS := 1200;
                AFTER_INPUT_SETTLE_MS := 800; FORCE_ENTER_ONLY := true;
                SAN_ON := true |} in
  exists ext,
    snd (submitPrompt cfg (lit "hi") (constantPage isPostCondition 0) [])
    = ext ++ []
    /\ ~ In ClickSend ext /\ ~ In FindSendSelector ext.
Proof.
  intros cfg.
  exact (force_enter_never_clicks (constantPage isPostCondition 0) cfg
           (lit "hi") [] eq_refl).
Defined.

(** X12. One [submitPrompt] commits a bounded number of times, whatever
    the page answers and however it ends: it presses Enter at most twice,
    clicks the send button at most twice, and makes at most three commit
    calls in all. *)
Theorem commits_are_bounded (S : Surface) (cfg : Config) (prompt : str)
        (h : list Op) :
  exists ext,
    snd (submitPrompt cfg prompt S h) = ext ++ h
    /\ length (filter isEnter ext) <= 2
    /\ length (filter isClick ext) <= 2
    /\ length (filter isCommit ext) <= 3.
Proof.
  destruct (spends_submitPrompt S isEnter
              ltac:(intros [| | | | | | |[]| | | | | | | | | | | | | | |];
                    simpl; congruence) cfg prompt h) as (e1 & H1 & L1).
  destruct (spends_submitPrompt S isClick
              ltac:(intros op; destruct op; simpl; congruence)
              cfg prompt h) as (e2 & H2 & L2).
  destruct (spends_submitPrompt S isCommit ltac:(auto) cfg prompt h)
    as (e3 & H3 & L3).
  rewrite H1 in H2, H3. apply app_inv_tail in H2, H3. subst e2 e3.
  exists e1. simpl in L1, L2, L3. auto.
Qed.

End DriverBoundsClaims.

Section DriverSuccess.
Import Js Driver Conduct Script.

Variable S : Surface.

Lemma bind_ok {A B} (m : M A) (k : A -> M B) h b h' :
  bind m k S h = (Ok b, h') ->
  exists a h1, m S h = (Ok a, h1) /\ k a S h1 = (Ok b, h').
Proof.
  unfold bind. destruct (m S h) as [[a|e] h1]; [eauto|discriminate].
Qed.

Lemma orFalse_call_true (op : Op) h h' :
  orFalse (call op) S h = (Ok true, h') -> reply S h op = Ok true.
Proof.
  unfold orFalse, catch, call, ret.
  destruct (reply S h op) as [[|]|e]; intros H; try discriminate H.
  reflexivity.
Qed.

Lemma quiet_call_history (op : Op) h :
  snd (quiet (call op) S h) = op :: h.
Proof.
  unfold quiet, catch, bind, call, ret. destruct (reply S h op); reflexivity.
Qed.

(** Every piece of driver code here only adds to the history. *)
Lemma extends_history {A} (m : M A) allowed h r h' :
  issuesOnly S allowed m -> m S h = (r, h') -> exists ext, h' = ext ++ h.
Proof.
  intros Hm Hrun. destruct (Hm h) as (ext & He & _). rewrite Hrun in He.
  exists ext. exact He.
Qed.

(** [Q0]: a returned [true] means that a post-condition check answered
    [true]. *)
Let Q0 : bool -> list Op -> Prop := fun b _ => b = true -> confirmed S.
Let T : list Op -> Prop := fun _ => True.

Lemma returns_false (m : M bool) :
  (forall h h', m S h <> (Ok true, h')) -> returns S T m Q0.
Proof. intros Hm h _ a h' Hrun Ha. subst a. exfalso. apply (Hm h h' Hrun). Qed.

Lemma returns_ret_false : returns S T (ret false) Q0.
Proof. intros h _ a h' Hrun Ha. injection Hrun as <- _. discriminate. Qed.

Lemma returns_skip {A} (m : M A) (k : A -> M bool) :
  (forall a, returns S T (k a) Q0) -> returns S T (bind m k) Q0.
Proof.
  intros Hk h _ b h' Hrun. apply bind_ok in Hrun as (a & h1 & _ & Hk1).
  apply (Hk a h1 I b h' Hk1).
Qed.

Lemma returns_catch (m : M bool) (k : str -> M bool) :
  returns S T m Q0 -> (forall e, returns S T (k e) Q0) ->
  returns S T (catch m k) Q0.
Proof.
  intros Hm Hk h _ b h'. unfold catch.
  destruct (m S h) as [[a|e] h1] eqn:Hrun.
  - intros H; injection H as <- <-. apply (Hm h I a h1 Hrun).
  - apply (Hk e h1 I).
Qed.

Lemma returns_postcondition (op : Op) :
  isPostCondition op = true -> returns S T (orFalse (call op)) Q0.
Proof.
  intros Hop h _ b h' Hrun Hb. subst b.
  exists h, op. split; [exact Hop|]. apply (orFalse_call_true _ _ _ Hrun).
Qed.

Lemma returns_unless (m : M bool) (k : bool -> M bool) :
  returns S T m Q0 -> returns S T (k false) Q0 ->
  returns S T (bind m k) Q0.
Proof.
  intros Hm Hk h _ b h' Hrun. apply bind_ok in Hrun as (a & h1 & Hm1 & Hk1).
  destruct a.
  - intros _. apply (Hm h I true h1 Hm1). reflexivity.
  - apply (Hk h1 I b h' Hk1).
Qed.

Lemma returns_okAfter cfg sel expected v s :
  returns S T (okAfter cfg sel expected v s) Q0.
Proof.
  unfold okAfter, verifyInputMatches, isSendButtonReady, hasInputText.
  apply returns_skip; intros _. apply returns_skip; intros _.
  apply returns_unless; [apply returns_postcondition; reflexivity|].
  apply returns_unless; [apply returns_postcondition; reflexivity|].
  apply returns_unless; [apply returns_postcondition; reflexivity|].
  apply returns_ret_false.
Qed.

Lemma returns_setInputFast cfg sel text :
  returns S T (setInputFast cfg sel text) Q0.
Proof.
  unfold setInputFast, setInputFastWith, strategyA, strategyB, strategyC.
  apply returns_skip; intros _.
  apply returns_unless.
  { apply returns_catch; [|intros e; apply returns_ret_false].
    apply returns_skip; intros [|];
      [apply returns_okAfter | apply returns_ret_false]. }
  apply returns_skip; intros _.
  apply returns_unless.
  { apply returns_catch; [|intros e; apply returns_ret_false].
    do 4 (apply returns_skip; intros _). apply returns_okAfter. }
  apply returns_skip; intros _.
  apply returns_unless.
  { apply returns_catch.
    - apply returns_skip; intros _. apply returns_okAfter.
    - intros e. apply returns_catch; [|intros e'; apply returns_ret_false].
      apply returns_skip; intros _. apply returns_okAfter. }
  apply returns_postcondition. reflexivity.
Qed.

Lemma commitFirst_enter cfg sel h u h' :
  commitFirst cfg sel S h = (Ok u, h') -> In (Press Enter) h'.
Proof.
  unfold commitFirst. destruct (FORCE_ENTER_ONLY cfg); intros Hrun.
  - apply bind_ok in Hrun as (a & h1 & _ & Hk).
    pose proof (quiet_call_history (Press Enter) h1) as Hq.
    rewrite Hk in Hq. cbn [snd] in Hq. subst h'. left. reflexivity.
  - apply bind_ok in Hrun as (a & h1 & _ & Hk).
    apply bind_ok in Hk as (b & h2 & Hp & Hk).
    pose proof (quiet_call_history (Press Enter) h1) as Hq.
    rewrite Hp in Hq. cbn [snd] in Hq. subst h2.
    assert (Hio : issuesOnly S (fun _ => true) (quiet clickSendButton)).
    { unfold clickSendButton, isSendButtonReady, quiet, orFalse.
      issues ltac:(reflexivity). }
    destruct (extends_history _ _ _ _ _ Hio Hk) as [ext ->].
    apply in_or_app. right. left. reflexivity.
Qed.

Lemma tail_extends cfg sel n ms h r h' :
  (commitAgain cfg sel S h = (r, h') -> exists ext, h' = ext ++ h)
  /\ forall b, waitStarted n ms S h = (b, h') -> exists ext, h' = ext ++ h.
Proof.
  split.
  - apply (extends_history _ (fun _ => true)).
    unfold commitAgain, focusIntoEditable, clickSendButton,
      isSendButtonReady, quiet, orFalse.
    issues ltac:(reflexivity).
  - intros b. apply (extends_history _ (fun _ => true)).
    unfold waitStarted, orFalse. issues ltac:(reflexivity).
Qed.

End DriverSuccess.

Section DriverSuccessClaims.
Import Js Driver Conduct Script.

(** X13. When [submitPrompt] returns a baseline, the injection was
    confirmed by one of the post-condition checks, Enter was pressed, one
    of the two start checks made with that baseline as count answered
    [true], and the baseline is the count the page gave when asked before
    the injection. *)
Theorem submit_success_evidence (S : Surface) (cfg : Config) (prompt : str)
        (h0 : list Op) (n : nat) (h : list Op) :
  submitPrompt cfg prompt S h0 = (Ok n, h) ->
  confirmed S
  /\ In (Press Enter) h
  /\ startSeen S n
  /\ n = counted S (PickActiveInput :: WaitUntilIdle 15000 :: h0).
Proof.
  unfold submitPrompt. intros H.
  apply bind_ok in H as (u0 & h1 & Hidle & H).
  assert (h1 = WaitUntilIdle 15000 :: h0) as ->.
  { unfold call in Hidle. injection Hidle as _ <-. reflexivity. }
  apply bind_ok in H as (o & h2 & Hpick & H).
  unfold pickActiveInput in Hpick. injection Hpick as <- <-.
  destruct (picked S _) as [sel|]; [|discriminate H].
  apply bind_ok in H as (c & h3 & Hcount & H).
  unfold countAnswerRoots in Hcount. injection Hcount as <- <-.
  apply bind_ok in H as (ok & h4 & Hset & H).
  destruct ok; cbn [negb] in H; [|discriminate H].
  pose proof (returns_setInputFast S cfg sel prompt _ I _ _ Hset eq_refl)
    as Hconf.
  apply bind_ok in H as (u1 & h5 & _ & H).
  apply bind_ok in H as (u2 & h6 & Hcommit & H).
  apply commitFirst_enter in Hcommit.
  apply bind_ok in H as (started & h7 & Hst & H).
  destruct (proj2 (tail_extends S cfg sel _ _ _ (Ok tt) _) _ Hst) as [e7 ->].
  destruct started.
  - injection H as <- <-.
    split; [exact Hconf|]. split; [apply in_or_app; auto|].
    split; [|reflexivity].
    exists h6, 4000%Z. apply (orFalse_call_true S _ _ _ Hst).
  - apply bind_ok in H as (u3 & h8 & Hagain & H).
    destruct (proj1 (tail_extends S cfg sel 0 0%Z _ _ _) Hagain) as [e8 ->].
    apply bind_ok in H as (started2 & h9 & Hst2 & H).
    destruct (proj2 (tail_extends S cfg sel _ _ _ (Ok tt) _) _ Hst2)
      as [e9 ->].
    destruct started2; [|discriminate H].
    injection H as <- <-.
    split; [exact Hconf|]. split; [repeat (apply in_or_app; right); exact Hcommit|].
    split; [|reflexivity].
    exists (e8 ++ e7 ++ h6), 2000%Z. apply (orFalse_call_true S _ _ _ Hst2).
Qed.

Lemma submit_success_evidence_witness :
  exists h,
    submitPrompt cfg0 (lit "hi") (constantPage (fun _ => true) 3) []
    = (Ok 3, h)
    /\ In (Press Enter) h.
Proof.
  eexists. split; [reflexivity|].
  exact (proj1 (proj2 (submit_success_evidence
    (constantPage (fun _ => true) 3) cfg0 (lit "hi") [] 3 _ eq_refl))).
Defined.

(** The bound of three commit calls is reached when no reply starts. *)
Example three_commits_without_start :
  let S := constantPage (fun op => match op with
                                   | WaitStarted _ _ => false
                                   | _ => true
                                   end) 0 in
  let h := snd (submitPrompt cfg0 (lit "hi") S []) in
  fst (submitPrompt cfg0 (lit "hi") S []) = Throw submit_not_started
  /\ length (filter isCommit h) = 3
  /\ length (filter isEnter h) = 1.
Proof. vm_compute. repeat split. Qed.

End DriverSuccessClaims.

(** ** The rewriting rules of the sanitizer *)

Section RulesFacts.
Import Js Json Dom Sanitizer Rules.

Lemma strip_blank (s : str) (se : bool) :
  forallb isSpace s = true -> stripNoiseFromUserContent s se = s.
Proof.
  intros H. unfold stripNoiseFromUserContent.
  set (out1 := if se then trim (Noise.removeAll envBlockAt 0 None s) else s).
  assert (H1 : forallb isSpace out1 = true).
  { subst out1. destruct se; [|exact H].
    apply forallb_trim, forallb_removeAll, H. }
  assert (H2 : modeHeadOff out1 = None).
  { unfold modeHeadOff. apply trimStart_blank in H1. rewrite H1. reflexivity. }
  rewrite H2. apply trim_blank in H1. rewrite H1. reflexivity.
Qed.

Lemma strip_cases (s : str) (se : bool) :
  stripNoiseFromUserContent s se = s
  \/ (truthy (stripNoiseFromUserContent s se) = true
      /\ trim (stripNoiseFromUserContent s se) = stripNoiseFromUserContent s se).
Proof.
  unfold stripNoiseFromUserContent.
  match goal with |- context [orStr (trim ?x) s] => generalize x end.
  intros x. unfold orStr. destruct (truthy (trim x)) eqn:E.
  - right. split; [exact E | apply trim_idem].
  - left. reflexivity.
Qed.

Lemma strip_truthy (s : str) (se : bool) :
  truthy s = true -> truthy (stripNoiseFromUserContent s se) = true.
Proof.
  intros H. destruct (strip_cases s se) as [-> | [H1 _]]; assumption.
Qed.

(** A text that is not blank stays not blank. *)
Lemma strip_non_blank (s : str) (se : bool) :
  truthy (trim s) = true ->
  truthy (trim (stripNoiseFromUserContent s se)) = true.
Proof.
  intros H. destruct (strip_cases s se) as [-> | [H1 ->]]; assumption.
Qed.

Lemma kilo_messages_array (payload : value) :
  isKiloRequest payload = true ->
  prop "messages" payload = Some (JArr (messagesOf payload)).
Proof.
  intros H. destruct (messagesOf payload) as [|m l] eqn:E.
  - rewrite (messagesOf_empty_not_kilo _ E) in H. discriminate.
  - unfold messagesOf in E.
    destruct (prop "messages" payload) as [[]|]; try discriminate.
    congruence.
Qed.

Lemma rebuild_array (original : value) (msgs : list value) lang keep mode se :
  prop "messages" original = Some (JArr msgs) ->
  rebuildMessages original lang keep mode se =
  match stripNoiseValue (lastContent (filter isUser msgs)) se with
  | JStr userContent =>
      if truthy userContent && truthy (trim userContent)
      then Messages
             [ message "system"
                 (buildMinimalSystemPrompt lang (keepToolsOf keep mode) mode);
               message "user" (trim userContent) ]
      else Messages
             [ message "system"
                 (buildMinimalSystemPrompt lang (keepToolsOf keep mode) mode) ]
  | other =>
      if truthyV other then TypeError
      else Messages
             [ message "system"
                 (buildMinimalSystemPrompt lang (keepToolsOf keep mode) mode) ]
  end.
Proof. intros H. unfold rebuildMessages. rewrite H. reflexivity. Qed.

Lemma rebuild_form (original : value) lang keep mode se :
  rebuildMessages original lang keep mode se = TypeError
  \/ exists msgs,
       rebuildMessages original lang keep mode se
       = rebuildMessages (JObj [(lit "messages", JArr msgs)]) lang keep mode se.
Proof.
  unfold rebuildMessages.
  destruct (prop "messages" original) as [v|];
    [|right; exists []; reflexivity].
  destruct v as [|b|f|s|items|fields];
    try (match goal with
         | |- context [if truthyV ?x then None else _] => destruct (truthyV x)
         end; [left; reflexivity | right; exists []; reflexivity]).
  right. exists items. reflexivity.
Qed.

Lemma lastContent_last (pre : list value) (u : value) (post : list value) :
  isUser u = true ->
  forallb (fun m => negb (isUser m)) post = true ->
  lastContent (filter isUser (pre ++ u :: post)) = lastContent [u].
Proof.
  intros Hu Hp.
  assert (E : filter isUser post = []).
  { induction post as [|m post IH]; [reflexivity|].
    simpl in *. apply andb_true_iff in Hp as [Hm Hp].
    destruct (isUser m); [discriminate|]. apply IH, Hp. }
  rewrite filter_app. simpl. rewrite Hu, E.
  unfold lastContent. rewrite rev_app_distr. reflexivity.
Qed.

Lemma rebuilt_shape_cases (original : value) (lang : str)
      (keep : list str) (mode : Mode) (se : bool) (l : list value) :
  rebuildMessages original lang keep mode se = Messages l ->
  l = [ message "system"
          (buildMinimalSystemPrompt lang (keepToolsOf keep mode) mode) ]
  \/ exists c,
       l = [ message "system"
               (buildMinimalSystemPrompt lang (keepToolsOf keep mode) mode);
             message "user" c ]
       /\ truthy c = true /\ trim c = c.
Proof.
  intros H.
  destruct (rebuild_form original lang keep mode se) as [E | [msgs E]];
    rewrite E in H; [discriminate|].
  rewrite (rebuild_array (JObj [(lit "messages", JArr msgs)]) msgs
             lang keep mode se eq_refl) in H.
  destruct (stripNoiseValue (lastContent (filter isUser msgs)) se)
    as [|b|f|s|items|fields];
    try (match type of H with
         | context [if truthyV ?x then _ else _] => destruct (truthyV x)
         end; [discriminate|]; left; congruence).
  destruct (truthy s && truthy (trim s)) eqn:T; [|left; congruence].
  right. exists (trim s). apply andb_true_iff in T as [_ T].
  repeat split; [congruence | exact T | apply trim_idem].
Qed.

End RulesFacts.

Section RulesClaims.
Import Js Json Dom Sanitizer Rules.

(** X14. Whatever the request, the messages [rebuildMessages] returns are
    the system message alone or the system message followed by exactly one
    user message, whose text is not empty and is already trimmed: no other
    role and no earlier turn survives the rebuild. *)
Theorem rebuilt_messages_shape (original : value) (lang : str)
        (keep : list str) (mode : Mode) (stripEnv : bool) (l : list value) :
  rebuildMessages original lang keep mode stripEnv = Messages l ->
  let system :=
    message "system"
      (buildMinimalSystemPrompt lang (keepToolsOf keep mode) mode) in
  l = [system]
  \/ exists c, l = [system; message "user" c]
               /\ truthy c = true /\ trim c = c.
Proof.
  intros H system. subst system.
  apply (rebuilt_shape_cases original lang keep mode stripEnv l H).
Qed.

Lemma rebuilt_messages_shape_witness :
  let original :=
    JObj [ (lit "messages",
             JArr [ message "system" (lit "You are Kilo Code");
                    message "user" (lit " hello ") ]) ] in
  let system :=
    message "system"
      (buildMinimalSystemPrompt (lit "en") (keepToolsOf [] Ask) Ask) in
  rebuildMessages original (lit "en") [] Ask true
  = Messages [system; message "user" (lit "hello")]
  /\ ([system; message "user" (lit "hello")] = [system]
      \/ exists c, [system; message "user" (lit "hello")]
                   = [system; message "user" c]
                   /\ truthy c = true /\ trim c = c).
Proof.
  split; [reflexivity|].
  apply (rebuilt_messages_shape
           (JObj [ (lit "messages",
                     JArr [ message "system" (lit "You are Kilo Code");
                            message "user" (lit " hello ") ]) ])
           (lit "en") [] Ask true).
  reflexivity.
Defined.

(** X15. On a Kilo request, [rebuildMessages] throws a [TypeError] exactly
    when the content of the last user message is truthy and not a string
    (an array of parts, an object, [true], a number other than zero):
    [stripNoiseFromUserContent] hands such a value back as it is and
    [userContent.trim] is then not a function. *)
Theorem rebuild_throws_iff (payload : value) (lang : str) (keep : list str)
        (mode : Mode) (stripEnv : bool) :
  isKiloRequest payload = true ->
  let c := lastContent (filter isUser (messagesOf payload)) in
  rebuildMessages payload lang keep mode stripEnv = TypeError
  <-> truthyV c = true /\ isString c = false.
Proof.
  intros Hk c.
  rewrite (rebuild_array _ _ lang keep mode stripEnv (kilo_messages_array _ Hk)).
  fold c. destruct c as [|b|f|s|items|fields]; cbn [stripNoiseValue isString];
    try (destruct (truthyV _); split;
         [ auto | intros [? ?]; auto | discriminate
         | intros [? ?]; discriminate ]).
  destruct (truthy _ && truthy _); split;
    try discriminate; intros [_ ?]; discriminate.
Qed.

Lemma rebuild_throws_iff_witness :
  let payload :=
    JObj [ (lit "messages",
             JArr [ message "system" (lit "You are Kilo Code");
                    JObj [ (lit "role", JStr (lit "user"));
                           (lit "content",
                             JArr [ JObj [ (lit "type", JStr (lit "text"));
                                           (lit "text", JStr (lit "hi")) ] ]) ] ]) ] in
  isKiloRequest payload = true
  /\ rebuildMessages payload (lit "zh") [] Code true = TypeError.
Proof.
  split; [reflexivity|].
  apply (rebuild_throws_iff
           (JObj [ (lit "messages",
             JArr [ message "system" (lit "You are Kilo Code");
                    JObj [ (lit "role", JStr (lit "user"));
                           (lit "content",
                             JArr [ JObj [ (lit "type", JStr (lit "text"));
                                           (lit "text", JStr (lit "hi")) ] ]) ] ]) ])
           (lit "zh") [] Code true).
  - reflexivity.
  - split; reflexivity.
Defined.

(** X16. Only the last message with role [user] reaches the rebuilt
    request: the messages before it and the messages of other roles after
    it change nothing. *)
Theorem only_last_user_counts (original : value) (pre : list value)
        (u : value) (post : list value) (lang : str) (keep : list str)
        (mode : Mode) (stripEnv : bool) :
  prop "messages" original = Some (JArr (pre ++ u :: post)) ->
  isUser u = true ->
  forallb (fun m => negb (isUser m)) post = true ->
  rebuildMessages original lang keep mode stripEnv
  = rebuildMessages (JObj [(lit "messages", JArr [u])]) lang keep mode stripEnv.
Proof.
  intros Hm Hu Hp.
  rewrite (rebuild_array _ _ lang keep mode stripEnv Hm).
  rewrite (rebuild_array (JObj [(lit "messages", JArr [u])]) [u]
             lang keep mode stripEnv eq_refl).
  rewrite (lastContent_last pre u post Hu Hp).
  cbn [filter]. rewrite Hu. reflexivity.
Qed.

Lemma only_last_user_counts_witness :
  let u := message "user" (lit "second") in
  let original :=
    JObj [ (lit "messages",
             JArr [ message "user" (lit "first");
                    message "assistant" (lit "reply");
                    u;
                    message "assistant" (lit "again") ]) ] in
  rebuildMessages original (lit "zh") [] Code true
  = rebuildMessages (JObj [(lit "messages", JArr [u])]) (lit "zh") [] Code true.
Proof.
  apply (only_last_user_counts
           (JObj [ (lit "messages",
             JArr [ message "user" (lit "first");
                    message "assistant" (lit "reply");
                    message "user" (lit "second");
                    message "assistant" (lit "again") ]) ])
           [ message "user" (lit "first"); message "assistant" (lit "reply") ]
           (message "user" (lit "second"))
           [ message "assistant" (lit "again") ]
           (lit "zh") [] Code true); reflexivity.
Defined.

(** X17. When the last user message has a string for content, the rebuilt
    request holds a user message exactly when that string is not blank: a
    text is never lost to the stripping, because a text the stripping
    would empty is kept whole; a blank one gives the system message
    alone. *)
Theorem user_text_kept_iff_not_blank (original : value) (msgs : list value)
        (s : str) (lang : str) (keep : list str) (mode : Mode)
        (stripEnv : bool) :
  prop "messages" original = Some (JArr msgs) ->
  lastContent (filter isUser msgs) = JStr s ->
  let system :=
    message "system"
      (buildMinimalSystemPrompt lang (keepToolsOf keep mode) mode) in
  (truthy (trim s) = true ->
   rebuildMessages original lang keep mode stripEnv
   = Messages [system;
               message "user" (trim (stripNoiseFromUserContent s stripEnv))]
   /\ truthy (trim (stripNoiseFromUserContent s stripEnv)) = true)
  /\ (truthy (trim s) = false ->
      rebuildMessages original lang keep mode stripEnv = Messages [system]).
Proof.
  intros Hm Hc system.
  rewrite (rebuild_array _ _ lang keep mode stripEnv Hm), Hc.
  cbn [stripNoiseValue]. fold system. split; intros H.
  - assert (T : truthy s = true).
    { destruct s; [discriminate H | reflexivity]. }
    rewrite (strip_truthy s stripEnv T), (strip_non_blank s stripEnv H).
    split; reflexivity.
  - apply truthy_trim_blank in H.
    rewrite (strip_blank s stripEnv H).
    apply truthy_trim_blank in H. rewrite H, andb_false_r. reflexivity.
Qed.

Lemma user_text_kept_iff_not_blank_witness :
  let env := lit "<environment_details>cwd</environment_details>" in
  let original := JObj [ (lit "messages", JArr [ message "user" env ]) ] in
  let system :=
    message "system"
      (buildMinimalSystemPrompt (lit "zh") (keepToolsOf [] Code) Code) in
  stripNoiseFromUserContent env true = env
  /\ rebuildMessages original (lit "zh") [] Code true
     = Messages [system; message "user" env].
Proof.
  split; [reflexivity|].
  destruct (user_text_kept_iff_not_blank
              (JObj [ (lit "messages",
                        JArr [ message "user"
                                 (lit "<environment_details>cwd</environment_details>") ]) ])
              [ message "user" (lit "<environment_details>cwd</environment_details>") ]
              (lit "<environment_details>cwd</environment_details>")
              (lit "zh") [] Code true eq_refl eq_refl) as [H _].
  destruct (H eq_refl) as [E _]. exact E.
Defined.

End RulesClaims.

Section PromptFacts.
Import Js Json Dom Sanitizer Rules.

(** What one part of a joined text includes, the joined text includes. *)
Lemma includes_join (sep : str) (parts : list str) (a p : str) :
  In a parts -> includes a p = true -> includes (join sep parts) p = true.
Proof.
  intros Hin Hp. induction parts as [|x t IH]; [destruct Hin|].
  destruct t as [|y t'].
  - destruct Hin as [->|[]]. exact Hp.
  - change (join sep (x :: y :: t')) with (x ++ sep ++ join sep (y :: t')).
    destruct Hin as [->|Hin].
    + apply includes_app_r, Hp.
    + apply includes_app_l, includes_app_l, IH, Hin.
Qed.

Lemma distinct_spec (l seen : list str) (x : str) :
  In x (distinct seen l) <-> In x l /\ existsb (eqb x) seen = false.
Proof.
  revert seen; induction l as [|y l IH]; intros seen; simpl.
  - tauto.
  - destruct (existsb (eqb y) seen) eqn:E.
    + rewrite IH. split.
      * intros [H1 H2]. auto.
      * intros [[->|H1] H2]; [congruence | auto].
    + simpl. rewrite IH. simpl. split.
      * intros [->|[H1 H2]]; [auto|].
        apply orb_false_iff in H2 as [_ H2]. auto.
      * intros [[->|H1] H2]; [auto|].
        destruct (eqb x y) eqn:Exy.
        -- apply eqb_spec in Exy. auto.
        -- right. split; [exact H1|]. rewrite H2. reflexivity.
Qed.

Lemma distinct_NoDup (l seen : list str) : NoDup (distinct seen l).
Proof.
  revert seen; induction l as [|y l IH]; intros seen; simpl.
  - constructor.
  - destruct (existsb (eqb y) seen); [apply IH|].
    constructor; [|apply IH].
    intros H. apply distinct_spec in H as [_ H]. simpl in H.
    rewrite eqb_refl in H. discriminate.
Qed.

Lemma presets_nonempty (mode : Mode) :
  exists t rest, MODE_PRESETS mode = t :: rest.
Proof. destruct mode; eexists _, _; reflexivity. Qed.

Lemma matchLit_app (a b s : str) :
  matchLit (a ++ b) s
  = match matchLit a s with Some r => matchLit b r | None => None end.
Proof.
  revert s; induction a as [|x a IH]; intros s; simpl.
  - reflexivity.
  - destruct s as [|y s]; [reflexivity|].
    destruct (N.eqb (canon x) (canon y)); [apply IH | reflexivity].
Qed.

End PromptFacts.

Section PromptClaims.
Import Js Json Dom Sanitizer Rules.

(** X18. The tool list the rebuilt system prompt is built from is never
    empty and holds every tool once; the prompt shows the tag of every tool
    asked to be kept and of every preset tool of the mode.  This holds for
    the empty [keep] of the mode [tools-off] as well: the sentence
    [noTools] is never reached from [rebuildMessages]. *)
Theorem preset_tools_always_listed (lang : str) (keep : list str)
        (mode : Mode) :
  let tools := keepToolsOf keep mode in
  let prompt := buildMinimalSystemPrompt lang tools mode in
  0 < length tools
  /\ NoDup tools
  /\ forallb (fun t => includes prompt (toolTag t)) (keep ++ MODE_PRESETS mode)
     = true.
Proof.
  intros tools prompt.
  assert (In_tools : forall t, In t (keep ++ MODE_PRESETS mode) -> In t tools).
  { intros t Ht. apply distinct_spec. auto. }
  split; [|split].
  - destruct (presets_nonempty mode) as [t [rest E]].
    assert (H : In t tools).
    { apply In_tools, in_or_app. right. rewrite E. left. reflexivity. }
    destruct tools; [destruct H | simpl; lia].
  - apply distinct_NoDup.
  - apply forallb_forall. intros t Ht. apply In_tools in Ht.
    subst prompt. unfold buildMinimalSystemPrompt.
    destruct tools as [|t0 rest] eqn:E; [destruct Ht|].
    rewrite <- E in *. clear E t0 rest.
    eapply includes_join.
    + right. left. reflexivity.
    + cbn [joined]. apply includes_app_l.
      apply (includes_join _ _ (toolTag t)).
      * apply in_map, Ht.
      * rewrite includes_unfold, startsWith_refl. reflexivity.
Qed.

(** X19. [detectModeSlug] finds a mode exactly when the string content of
    some message holds, in any case of letters, [<slug>], one of the five
    mode names and [</slug>] in a row; and the mode it answers is so
    written in one of the messages. *)
Theorem slug_detected_iff (payload : value) :
  ((exists m, detectModeSlug payload = Some m)
   <-> exists m,
         existsb (fun msg =>
                    search (matches ("<slug>" ++ modeName m ++ "</slug>"))
                           (contentString msg))
                 (messagesOf payload) = true)
  /\ forall m, detectModeSlug payload = Some m ->
       existsb (fun msg =>
                  search (matches ("<slug>" ++ modeName m ++ "</slug>"))
                         (contentString msg))
               (messagesOf payload) = true.
Proof.
  unfold detectModeSlug. generalize (messagesOf payload). intros msgs.
  assert (L : forall k, lit ("<slug>" ++ modeName k ++ "</slug>")
                        = lit "<slug>" ++ lit (modeName k) ++ lit "</slug>")
    by (intros k; destruct k; reflexivity).
  assert (S2 : forall r m, slugAt r = Some m ->
    matches ("<slug>" ++ modeName m ++ "</slug>") r = true).
  { intros r m H. unfold slugAt in H.
    destruct (matchLit (lit "<slug>") r) as [r1|] eqn:E1; [|discriminate].
    assert (A : forall k,
      match matchLit (lit (modeName k)) r1 with
      | Some r2 => if matches "</slug>" r2 then Some k else None
      | None => None
      end = Some m ->
      matches ("<slug>" ++ modeName m ++ "</slug>") r = true).
    { intros k Hk.
      destruct (matchLit (lit (modeName k)) r1) as [r2|] eqn:E2; [|discriminate].
      destruct (matches "</slug>" r2) eqn:E3; [|discriminate].
      injection Hk as <-. unfold matches in *.
      rewrite L, matchLit_app, E1, matchLit_app, E2. exact E3. }
    unfold Noise.orElse in H.
    repeat match type of H with
           | match ?x with Some _ => _ | None => _ end = Some _ =>
               let E := fresh "E" in
               destruct x eqn:E; [injection H as ->; eapply A; exact E|]
           end.
    eapply A; exact H. }
  assert (S2' : forall r k,
    matches ("<slug>" ++ modeName k ++ "</slug>") r = true ->
    exists m, slugAt r = Some m).
  { intros r k H. unfold matches in H. rewrite L, matchLit_app in H.
    unfold slugAt.
    destruct (matchLit (lit "<slug>") r) as [r1|]; [|discriminate].
    rewrite matchLit_app in H.
    destruct (matchLit (lit (modeName k)) r1) as [r2|] eqn:E2; [|discriminate].
    assert (E3 : matches "</slug>" r2 = true).
    { unfold matches. destruct (matchLit (lit "</slug>") r2); [reflexivity|].
      discriminate. }
    assert (A : match matchLit (lit (modeName k)) r1 with
                | Some r2 => if matches "</slug>" r2 then Some k else None
                | None => None
                end = Some k) by (rewrite E2, E3; reflexivity).
    clear E2 E3 H. unfold Noise.orElse.
    destruct k; cbn [modeName] in A |- *;
      repeat match goal with
             | |- exists _, ?x = Some _ => eexists; reflexivity
             | |- exists _, match ?x with Some _ => _ | None => _ end = Some _ =>
                 first [ rewrite A
                       | let E := fresh "E" in destruct x eqn:E ]
             end. }
  assert (S3 : forall s m, searchSome slugAt s = Some m ->
    search (matches ("<slug>" ++ modeName m ++ "</slug>")) s = true).
  { intros s m. induction s as [|c s IH]; cbn [searchSome search].
    - destruct (slugAt []) eqn:E; [|discriminate].
      intros H. injection H as ->. rewrite (S2 _ _ E). reflexivity.
    - destruct (slugAt (c :: s)) eqn:E.
      + intros H. injection H as ->. rewrite (S2 _ _ E). reflexivity.
      + intros H. rewrite (IH H). apply orb_true_r. }
  assert (S3' : forall s k,
    search (matches ("<slug>" ++ modeName k ++ "</slug>")) s = true ->
    exists m, searchSome slugAt s = Some m).
  { intros s k. induction s as [|c s IH]; cbn [searchSome search].
    - rewrite orb_false_r. intros H. destruct (S2' _ _ H) as [m ->]. eauto.
    - intros H. destruct (slugAt (c :: s)) eqn:E; [eauto|].
      apply orb_true_iff in H as [H|H]; [|exact (IH H)].
      destruct (S2' _ _ H) as [m Hm]. congruence. }
  assert (S4 : forall m, firstSlug msgs = Some m ->
    existsb (fun msg =>
               search (matches ("<slug>" ++ modeName m ++ "</slug>"))
                      (contentString msg)) msgs = true).
  { intros m. induction msgs as [|msg rest IH]; cbn [firstSlug existsb];
      [discriminate|].
    destruct (searchSome slugAt (contentString msg)) as [k|] eqn:E.
    - intros H. injection H as ->. rewrite (S3 _ _ E). reflexivity.
    - intros H. rewrite (IH H). apply orb_true_r. }
  split; [|exact S4]. split.
  - intros [m H]. exists m. apply S4, H.
  - clear S4. intros [k H].
    induction msgs as [|msg rest IH]; cbn [firstSlug existsb] in *;
      [discriminate|].
    destruct (searchSome slugAt (contentString msg)) as [m|] eqn:E; [eauto|].
    apply orb_true_iff in H as [H|H]; [|exact (IH H)].
    destruct (S3' _ _ H) as [m Hm]. congruence.
Qed.

End PromptClaims.

(** ** The diagnostic reads *)

Section PeekFacts.
Import Js Dom Peek.

Lemma uniq_roots (l : list Root) (seen : list nat) :
  uniq seen (map element l) = map element (uniqRoots seen l).
Proof.
  revert seen; induction l as [|r l IH]; intros seen; simpl; [reflexivity|].
  destruct (existsb (Nat.eqb (node (element r))) seen); simpl; rewrite IH;
    reflexivity.
Qed.

Lemma filter_roots (l : list Root) :
  filter visible (map element l)
  = map element (filter (fun r => visible (element r)) l).
Proof.
  induction l as [|r l IH]; simpl; [reflexivity|].
  destruct (visible (element r)); simpl; rewrite IH; reflexivity.
Qed.

(** Both reads of the page count the same bubbles. *)
Lemma visibleBubbles_roots (pg : RootPage) :
  visibleBubbles (pageOf pg) = map element (visibleRoots pg).
Proof.
  unfold visibleBubbles, visibleRoots, pageOf.
  rewrite <- concat_map, uniq_roots, filter_roots. reflexivity.
Qed.

Lemma describe_length (l : list Root) (k : nat) :
  length (describe k l) = length l.
Proof.
  revert k; induction l as [|r l IH]; intros k; simpl; [|rewrite IH];
    reflexivity.
Qed.

Lemma describe_nth (l : list Root) (k i : nat) (b : BubbleInfo) :
  nth_error (describe k l) i = Some b ->
  exists r, nth_error l i = Some r
    /\ index b = k + i
    /\ id b = orStr (idAttr r)
                (orStr (match dataMessageId r with Some s => s | None => [] end)
                   (lit "bubble-" ++ decimal (k + i)))
    /\ text_len b = length (bubbleText (element r))
    /\ preview b = firstn 80 (bubbleText (element r)).
Proof.
  revert k i; induction l as [|r l IH]; intros k i H.
  - destruct i; discriminate H.
  - destruct i as [|i]; simpl in H.
    + injection H as <-. exists r. rewrite Nat.add_0_r. simpl. auto.
    + destruct (IH (S k) i H) as [r' [H1 H2]]. exists r'.
      replace (k + S i) with (S k + i) by lia. simpl. auto.
Qed.

End PeekFacts.

Section PeekClaims.
Import Js Dom Peek.

(** X20. [/peek] takes the number of bubbles now on the page for baseline,
    so it reports a text only if the page shows more bubbles at its second
    read than at its first: on a page that does not change in between
    (and when the second read rejects) it answers the bubble count with an
    empty text, length 0 and no spinner, whatever the last bubble holds. *)
Theorem peek_needs_new_bubble (first : RootPage) (second : option RootPage) :
  (forall pg, second = Some pg ->
              length (visibleRoots pg) <= length (visibleRoots first)) ->
  peek first second
  = {| bubbles := length (visibleRoots first); peekSpinning := false;
       peekTextLen := 0; peekText := [] |}.
Proof.
  intros H. unfold peek, findAllBubbles. rewrite describe_length.
  assert (E : getBubbleState (length (visibleRoots first))
                (option_map pageOf second) = noBubble).
  { destruct second as [pg|]; [|reflexivity].
    cbn [option_map getBubbleState]. unfold readBubbles.
    rewrite visibleBubbles_roots, length_map.
    specialize (H pg eq_refl). apply Nat.leb_le in H. rewrite H.
    reflexivity. }
  rewrite E. reflexivity.
Qed.

Lemma peek_needs_new_bubble_witness :
  let answer :=
    {| node := 1; visible := true; txtNode := None;
       innerText := lit "Hello"; textContent := lit "Hello";
       spinners := [Some true] |} in
  let pg := [[ {| element := answer; idAttr := [];
                  dataMessageId := None |} ]] in
  peek pg (Some pg)
  = {| bubbles := 1; peekSpinning := false; peekTextLen := 0;
       peekText := [] |}.
Proof.
  apply (peek_needs_new_bubble
           [[ {| element :=
                   {| node := 1; visible := true; txtNode := None;
                      innerText := lit "Hello"; textContent := lit "Hello";
                      spinners := [Some true] |};
                 idAttr := []; dataMessageId := None |} ]]
           (Some [[ {| element :=
                   {| node := 1; visible := true; txtNode := None;
                      innerText := lit "Hello"; textContent := lit "Hello";
                      spinners := [Some true] |};
                 idAttr := []; dataMessageId := None |} ]])).
  intros pg H. injection H as <-. simpl. lia.
Defined.

(** X21. Every entry of [findAllBubbles] describes the visible root at its
    own position: [index] is the position, [id] is never empty (the
    element's id, else its [data-message-id], else [bubble-] and the
    position), [text_len] is the length of the trimmed text and [preview]
    its first 80 code units at most. *)
Theorem bubble_entries (pg : RootPage) (i : nat) (b : BubbleInfo) :
  nth_error (findAllBubbles pg) i = Some b ->
  exists r, nth_error (visibleRoots pg) i = Some r
    /\ index b = i
    /\ truthy (id b) = true
    /\ (truthy (idAttr r) = false -> dataMessageId r = None ->
        id b = lit "bubble-" ++ decimal i)
    /\ text_len b = length (bubbleText (element r))
    /\ preview b = firstn 80 (bubbleText (element r))
    /\ length (preview b) = Nat.min 80 (text_len b).
Proof.
  intros H. unfold findAllBubbles in H.
  destruct (describe_nth _ _ _ _ H) as [r [H1 [H2 [H3 [H4 H5]]]]].
  exists r. simpl in H2, H3. repeat split; try assumption.
  - rewrite H3. unfold orStr.
    destruct (truthy (idAttr r)) eqn:E1; [exact E1|].
    destruct (truthy match dataMessageId r with Some s => s | None => [] end)
      eqn:E2; [exact E2 | reflexivity].
  - intros E1 E2. rewrite H3, E2. unfold orStr. rewrite E1. reflexivity.
  - rewrite H5, H4. apply length_firstn.
Qed.

Lemma bubble_entries_witness :
  let plain (n : nat) (t : string) :=
    {| element := {| node := n; visible := true; txtNode := None;
                     innerText := lit t; textContent := lit t;
                     spinners := [] |};
       idAttr := []; dataMessageId := None |} in
  let pg := [[ plain 1 "first"%string; plain 2 " second "%string ]] in
  exists b, nth_error (findAllBubbles pg) 1 = Some b
    /\ index b = 1 /\ id b = lit "bubble-1" /\ text_len b = 6.
Proof.
  eexists. split; [reflexivity|].
  destruct (bubble_entries
              [[ {| element := {| node := 1; visible := true; txtNode := None;
                                  innerText := lit "first";
                                  textContent := lit "first";
                                  spinners := [] |};
                    idAttr := []; dataMessageId := None |};
                 {| element := {| node := 2; visible := true; txtNode := None;
                                  innerText := lit " second ";
                                  textContent := lit " second ";
                                  spinners := [] |};
                    idAttr := []; dataMessageId := None |} ]]
              1 _ eq_refl) as [r [H1 [H2 [H3 [H4 [H5 _]]]]]].
  injection H1 as <-.
  split; [exact H2 | split; [exact (H4 eq_refl eq_refl) | exact H5]].
Defined.

End PeekClaims.

(** ** The sanitizer and the prompt, the gate and [/reset] *)

Section Composition.
Import Js Json Dom Capture Driver Sanitizer Rules Http.

Lemma trim_head (c : N) (rest : str) :
  isSpace c = false -> truthy (trim (c :: rest)) = true.
Proof.
  intros H. unfold trim. rewrite (trimStart_fixed c rest H).
  destruct (trimEnd_split (c :: rest)) as [post [H1 H2]].
  destruct (trimEnd (c :: rest)) as [|x t]; [|reflexivity].
  simpl in H1. subst post. simpl in H2. rewrite H in H2. discriminate.
Qed.

Lemma trim_head_app (a b : str) :
  (exists c rest, a = c :: rest /\ isSpace c = false) ->
  truthy (trim (a ++ b)) = true.
Proof. intros [c [rest [-> H]]]. simpl. apply trim_head, H. Qed.

(** The system prompt starts with a character that is not white space. *)
Lemma prompt_head (lang : str) (tools : list str) (mode : Mode) :
  exists c rest,
    buildMinimalSystemPrompt lang tools mode = c :: rest
    /\ isSpace c = false.
Proof.
  unfold buildMinimalSystemPrompt, textsOf.
  destruct (eqb lang (lit "zh"));
    [|destruct (eqb lang (lit "en"));
      [|destruct (existsb (eqb lang) inheritedNames)]];
    eexists _, _; (split; [reflexivity | reflexivity]).
Qed.

Lemma extract_message (B : Builtins) (role : string) (c : str) :
  extractTextFromMessage B (message role c) = c.
Proof. reflexivity. Qed.

(** The prompt of a body whose messages are what [rebuildMessages]
    returned. *)
Lemma prompt_of_rebuilt (B : Builtins) (original : value)
      (lang : str) (keep : list str) (mode : Mode) (stripEnv : bool)
      (l : list value) (body : value) :
  rebuildMessages original lang keep mode stripEnv = Messages l ->
  prop "messages" body = Some (JArr l) ->
  let system := buildMinimalSystemPrompt lang (keepToolsOf keep mode) mode in
  truthy (toPrompt B body) = true
  /\ (toPrompt B body = trim system
      \/ exists c, truthy c = true
                   /\ toPrompt B body = trim (system ++ separator ++ c)).
Proof.
  intros Hr Hb system.
  destruct (prompt_head lang (keepToolsOf keep mode) mode) as [c0 [rest0 [E0 H0]]].
  fold system in E0.
  assert (T : truthy system = true) by (rewrite E0; reflexivity).
  destruct (rebuilt_shape_cases original lang keep mode stripEnv l Hr)
    as [-> | [c [-> [Hc _]]]];
    unfold toPrompt; rewrite Hb; cbn [map filter];
    rewrite !extract_message; fold system; rewrite T.
  - cbn [filter join]. split; [|left; reflexivity].
    rewrite <- (app_nil_r system). apply trim_head_app. eauto.
  - rewrite Hc. cbn [filter join]. split.
    + apply trim_head_app. eauto.
    + right. exists c. auto.
Qed.

(** In the modes [tools-minimal] and [tools-off] the first stage of the
    sanitizer stores what [rebuildMessages] returned. *)
Lemma rebuildStage_messages B fs opts d1 :
  rebuildStage B (JObj fs) opts = Ok d1 ->
  mode opts = lit "tools-minimal" \/ mode opts = lit "tools-off" ->
  let modeSlug := match detectModeSlug (JObj fs) with
                  | Some m => m
                  | None => Code
                  end in
  let kept := if eqb (mode opts) (lit "tools-minimal") then keep opts else [] in
  exists l,
    rebuildMessages (JObj fs) (lang opts) kept modeSlug (stripEnv opts)
    = Messages l
    /\ assoc (lit "messages") (fst (fst d1)) = Some (JArr l)
    /\ snd (fst d1) = true.
Proof.
  intros H Hmode modeSlug kept. unfold rebuildStage in H.
  fold modeSlug in H. unfold kept.
  destruct (eqb (mode opts) (lit "tools-minimal")) eqn:Hm1.
  { destruct (rebuildMessages (JObj fs) (lang opts) (keep opts) modeSlug
                (stripEnv opts)) as [l|]; [|discriminate].
    injection H as <-. exists l. cbn [fst snd].
    split; [reflexivity|]. split; [apply assoc_set_same | reflexivity]. }
  destruct (eqb (mode opts) (lit "tools-off")) eqn:Hm2.
  { destruct (rebuildMessages (JObj fs) (lang opts) [] modeSlug
                (stripEnv opts)) as [l|]; [|discriminate].
    injection H as <-. exists l. cbn [fst snd].
    split; [reflexivity|]. split; [apply assoc_set_same | reflexivity]. }
  destruct Hmode as [E|E]; rewrite E, eqb_refl in *; discriminate.
Qed.

(** Once set, the flag [changed] stays set. *)
Lemma stages_keep_changed opts block (d : Draft) :
  snd (fst d) = true ->
  snd (fst (pruneStage opts (modelStage block (streamOptionsStage opts d))))
  = true.
Proof.
  destruct d as [[next chg] rsn]. cbn [fst snd]. intros ->.
  unfold streamOptionsStage.
  destruct (stripStreamOptions opts && hasKey "stream_options" next);
    unfold modelStage;
    match goal with
    | |- context [if ?c then (delete "model" _, _, _) else _] => destruct c
    end;
    unfold pruneStage; destruct (stripUnknownTopFields opts); reflexivity.
Qed.

(** What the handler answers from [ensureBrowser()] on. *)
Lemma respond_cases cfg changed report stream prompt w s :
  respond cfg changed report stream prompt w = Some s ->
  (exists frames, response s = RespSse frames)
  \/ (exists full, response s = RespJson 200 (completionBody full))
  \/ (exists e, response s = errorResponse e).
Proof.
  unfold respond.
  destruct ((ensureBrowser ;;; submitPrompt cfg prompt)%driver (surface w) [])
    as [[baseline|e] h].
  2:{ intros H; injection H as <-. right. right. exists e. reflexivity. }
  destruct stream.
  - destruct (readAnswerInChunks _ _ _ _ _ _); [|discriminate].
    intros H; injection H as <-. left. eexists. reflexivity.
  - destruct (waitForFinalAnswer _ _ _ _ _) as [run|]; [|discriminate].
    destruct (outcome run) as [full|e]; intros H; injection H as <-; right.
    + left. exists full. reflexivity.
    + right. exists e. reflexivity.
Qed.

End Composition.

Section CompositionClaims.
Import Js Json Dom Sanitizer Rules Http Script.

(** X22. With the sanitizer on, in the modes [tools-minimal] and
    [tools-off], a Kilo request is never answered with [empty prompt]:
    when the sanitizer returns, the prompt the handler types is the
    trimmed system prompt of [rebuildMessages], or the system prompt, the
    separator and the user text, so it is not empty and the handler goes
    on to the browser with it, with [X-KiloSanitize: 1]; when the
    sanitizer throws, the answer is the 502 error object. *)
Theorem rebuilt_prompt_never_empty (cfg : Config) (B : Builtins)
        (opts : Options) (body : value) :
  SAN_ON cfg = true ->
  isKiloRequest body = true ->
  mode opts = lit "tools-minimal" \/ mode opts = lit "tools-off" ->
  let modeSlug := match detectModeSlug body with
                  | Some m => m
                  | None => Code
                  end in
  let kept := if eqb (mode opts) (lit "tools-minimal") then keep opts else [] in
  let system :=
    buildMinimalSystemPrompt (lang opts) (keepToolsOf kept modeSlug) modeSlug in
  (forall w s,
     serve cfg B opts body w = Some s ->
     response s <> RespJson 400 (errorBody "empty prompt"))
  /\ (forall e w,
        sanitizeKiloRequest B body opts = Throw e ->
        serve cfg B opts body w
        = Some {| kiloSanitize := None; kiloSanitizeReason := None;
                  response := errorResponse e |})
  /\ (forall r,
        sanitizeKiloRequest B body opts = Ok r ->
        changed r = true
        /\ truthy (toPrompt B (json r)) = true
        /\ (toPrompt B (json r) = trim system
            \/ exists c,
                 truthy c = true
                 /\ toPrompt B (json r) = trim (system ++ separator ++ c))
        /\ forall w,
             serve cfg B opts body w
             = respond cfg true (Some (reason r)) (wantStream (json r))
                 (toPrompt B (json r)) w).
Proof.
  intros Hon Hk Hmode modeSlug kept system.
  destruct (isKiloRequest_object _ Hk) as [fs ->].
  assert (Hok : forall r,
    sanitizeKiloRequest B (JObj fs) opts = Ok r ->
    changed r = true
    /\ truthy (toPrompt B (json r)) = true
    /\ (toPrompt B (json r) = trim system
        \/ exists c,
             truthy c = true
             /\ toPrompt B (json r) = trim (system ++ separator ++ c))).
  { intros r Hr.
    destruct (sanitize_kilo B fs opts r Hk Hr) as (d1 & block & H1 & _ & ->).
    destruct (rebuildStage_messages B fs opts d1 H1 Hmode)
      as (l & Hl & Hmsg & Hchg).
    cbn [changed json]. split; [apply stages_keep_changed, Hchg|].
    apply (prompt_of_rebuilt B (JObj fs) (lang opts) kept modeSlug
             (stripEnv opts) l _ Hl).
    cbn [prop].
    rewrite pruneStage_assoc by (right; reflexivity).
    rewrite modelStage_assoc, streamOptionsStage_assoc by reflexivity.
    exact Hmsg. }
  assert (Hthrow : forall e w,
    sanitizeKiloRequest B (JObj fs) opts = Throw e ->
    serve cfg B opts (JObj fs) w
    = Some {| kiloSanitize := None; kiloSanitizeReason := None;
              response := errorResponse e |}).
  { intros e w He. unfold serve, maybeSanitizeKiloBody.
    rewrite Hon, He. reflexivity. }
  assert (Hserve : forall r w,
    sanitizeKiloRequest B (JObj fs) opts = Ok r ->
    serve cfg B opts (JObj fs) w
    = respond cfg true (Some (reason r)) (wantStream (json r))
        (toPrompt B (json r)) w).
  { intros r w Hr. destruct (Hok r Hr) as (Hc & Hp & _).
    unfold serve, maybeSanitizeKiloBody. rewrite Hon, Hr. cbn [negb].
    rewrite Hp, Hc. reflexivity. }
  split; [|split; [exact Hthrow|]].
  - intros w s.
    destruct (sanitizeKiloRequest B (JObj fs) opts) as [r|e] eqn:Hr.
    + rewrite (Hserve r w eq_refl). intros H.
      destruct (respond_cases _ _ _ _ _ _ _ H) as [[x ->]|[[x ->]|[x ->]]];
        discriminate.
    + rewrite (Hthrow e w eq_refl). intros H; injection H as <-. discriminate.
  - intros r Hr. destruct (Hok r Hr) as (Hc & Hp & Hshape).
    split; [exact Hc|]. split; [exact Hp|]. split; [exact Hshape|].
    intros w. apply Hserve, Hr.
Qed.

(** A Kilo request whose user message is blank, on a page that takes the
    prompt and shows ["OK"]: the system prompt alone is typed and the
    answer is streamed. *)
Lemma rebuilt_prompt_never_empty_witness :
  let body :=
    JObj [ (lit "messages",
             JArr [ message "system" (lit "You are Kilo Code");
                    message "user" (lit "   ") ]) ] in
  let ok := [bubble 1 "OK" false] in
  let w := {| surface := Driver.constantPage (fun _ => true) 0;
              tInit := 0; t0 := 0;
              ticks := [tick 0 ok; tick 80 ok; tick 1200 ok];
              finalSnap := Some (page ok) |} in
  SAN_ON cfg0 = true
  /\ isKiloRequest body = true
  /\ (forall s,
        serve cfg0 host0 opts0 body w = Some s ->
        response s <> RespJson 400 (errorBody "empty prompt"))
  /\ option_map response (serve cfg0 host0 opts0 body w)
     = Some (RespSse [SseChunk (lit "OK"); SseStop; SseDone]).
Proof.
  intros body ok w.
  split; [reflexivity|]. split; [reflexivity|].
  destruct (rebuilt_prompt_never_empty cfg0 host0 opts0 body eq_refl eq_refl
              (or_introl eq_refl)) as (Hnot & _ & _).
  split; [apply Hnot|]. vm_compute. reflexivity.
Defined.

End CompositionClaims.

Section ResetClaims.
Import Http Routes.

Lemma registered_cons (a b : nat) (l : list nat) :
  registered a l = true -> registered a (b :: l) = true.
Proof. intros H. unfold registered in *. simpl. rewrite H. apply orb_true_r. Qed.

Lemma registered_without (a b : nat) (l : list nat) :
  Nat.eqb a b = false -> registered a l = true ->
  registered a (without b l) = true.
Proof.
  intros Hab H. unfold registered, without in *.
  induction l as [|x l IH]; simpl in *; [discriminate|].
  destruct (Nat.eqb a x) eqn:E.
  - apply Nat.eqb_eq in E. subst x. rewrite Hab. simpl.
    rewrite Nat.eqb_refl. reflexivity.
  - simpl in H. destruct (negb (Nat.eqb x b)); simpl; [rewrite E|]; auto.
Qed.

(** X23. [/reset] frees the gate without touching the watchdog and the
    listeners of a request in flight: with request [a] in flight, a reset
    lets the next request [b] in at once, both then hold their callbacks,
    and when [a] finishes the gate is free again although [b] has not
    finished.  Single flight holds only as long as [/reset] is not called
    during a request. *)
Theorem reset_lets_a_second_request_in (g : Gate) (a b : nat) :
  holds a g = true ->
  Nat.eqb a b = false ->
  let g1 := handle g Reset in
  let g2 := handle g1 (Chat (Arrive b)) in
  let g3 := handle g2 (Chat (Finish a)) in
  snd (step g1 (Arrive b)) = Some Accepted
  /\ busy g2 = true /\ holds a g2 = true /\ holds b g2 = true
  /\ busy g3 = false /\ holds b g3 = true.
Proof.
  intros H Hab. unfold holds in H.
  apply andb_true_iff in H as [H H3]. apply andb_true_iff in H as [H1 H2].
  assert (Hba : Nat.eqb b a = false) by (rewrite Nat.eqb_sym; exact Hab).
  assert (Hb : forall l, registered b (b :: l) = true).
  { intros l. unfold registered. simpl. rewrite Nat.eqb_refl. reflexivity. }
  cbv zeta. cbn [handle reset step busy].
  unfold reset. cbn [fst snd busy watchdogs onClose onFinish].
  rewrite (registered_cons a b _ H3).
  cbn [fst busy watchdogs onClose onFinish]. unfold holds.
  cbn [watchdogs onClose onFinish].
  rewrite !(registered_cons a b) by assumption.
  rewrite !Hb.
  rewrite !(registered_without b a) by (auto using Hb).
  repeat split.
Qed.

Lemma reset_lets_a_second_request_in_witness :
  let g := fst (step idle (Arrive 1)) in
  let g3 := handle (handle (handle g Reset) (Chat (Arrive 2)))
                   (Chat (Finish 1)) in
  holds 1 g = true
  /\ snd (step (handle g Reset) (Arrive 2)) = Some Accepted
  /\ busy g3 = false /\ holds 2 g3 = true.
Proof.
  split; [reflexivity|].
  destruct (reset_lets_a_second_request_in
              (fst (step idle (Arrive 1))) 1 2 eq_refl eq_refl)
    as [H1 [_ [_ [_ [H5 H6]]]]].
  split; [exact H1 | split; [exact H5 | exact H6]].
Defined.

End ResetClaims.
